(** * logos: an inversion-of-control container

    A shallow embedding of [logos/context.py] (resources, registries,
    layered registries, scopes and the ambient accessor) together with the
    properties of the resolution engine.

    Python objects that the code shares and mutates (the module list handed
    to the application container, the runtime dictionaries of scopes, the
    instances built by services, the scopes themselves) live in a store and
    are referred to by their index; everything else is plain data.  Every
    operation is a computation in a state-and-exception monad. *)

From Stdlib Require Import List String Ascii ZArith Bool Arith Lia.
Import ListNotations.
Open Scope string_scope.
Open Scope list_scope.
Set Warnings "-register-all".

(** ** Python values *)

Inductive value : Type :=
| VNone
| VInt (z : Z)
| VStr (s : string)
| VList (l : list value)               (* a list built by the engine *)
| VDict (d : list (string * value))    (* a dict built by the engine, in insertion order *)
| VListRef (r : nat)                   (* a caller-owned list object of the store *)
| VDictRef (r : nat)                   (* a caller-owned dict object of the store *)
| VObj (id : nat)                      (* an instance built by a class or a factory *)
| VClass (class_path : string)         (* a class object, [module:Name] *)
| VAttr (path : string)                (* a module attribute that is no class, [module:name] *)
| VCtx (id : nat).                     (* a Context object *)

Definition dict := list (string * value).

Fixpoint dict_get {A : Type} (k : string) (d : list (string * A)) : option A :=
  match d with
  | [] => None
  | (k', v) :: d' => if String.eqb k k' then Some v else dict_get k d'
  end.

Definition dict_mem {A : Type} (k : string) (d : list (string * A)) : bool :=
  match dict_get k d with Some _ => true | None => false end.

(** [d[k] = v]: an existing key keeps its position, a new key goes last. *)
Fixpoint dict_set (k : string) (v : value) (d : dict) : dict :=
  match d with
  | [] => [(k, v)]
  | (k', v') :: d' =>
      if String.eqb k k' then (k, v) :: d' else (k', v') :: dict_set k v d'
  end.

(** ** Strings as the code uses them *)

Definition percent : ascii := "%"%char.

Definition startswith_percent (s : string) : bool :=
  match s with
  | String c _ => Ascii.eqb c percent
  | EmptyString => false
  end.

Fixpoint endswith_percent (s : string) : bool :=
  match s with
  | EmptyString => false
  | String c EmptyString => Ascii.eqb c percent
  | String _ s' => endswith_percent s'
  end.

(** [value.replace('%', '')] *)
Fixpoint replace_percent (s : string) : string :=
  match s with
  | EmptyString => EmptyString
  | String c s' =>
      if Ascii.eqb c percent then replace_percent s' else String c (replace_percent s')
  end.

(** [s.split(':')] *)
Fixpoint split_colon_aux (cur : string) (s : string) : list string :=
  match s with
  | EmptyString => [cur]
  | String c s' =>
      if Ascii.eqb c ":"%char then cur :: split_colon_aux EmptyString s'
      else split_colon_aux (cur ++ String c EmptyString)%string s'
  end.

Definition split_colon (s : string) : list string := split_colon_aux EmptyString s.

(** ** Resources *)

Record Service : Type := mkService {
  klz : option string;        (* the attribute [klz], when set *)
  factory : option string;    (* the attribute [factory], when set *)
  parameters : dict
}.

Inductive resource : Type :=
| RParameter (v : value)              (* Parameter(value) *)
| RService (s : Service)              (* Service(...) *)
| RClass (class_path : string)        (* Class(class_path) *)
| RResourceGroup (pattern : string).  (* ResourceGroup(pattern) *)

(** ** Registries

    [AppRef] is a reference to the one [ApplicationContainer] object of the
    process; [NoneRef] is [None], which is what
    [ApplicationContainer.instance] holds before the singleton is built. *)

Inductive container : Type :=
| Container (resources : list (string * resource))
| StackContainer (containers : list container)
| AppRef
| NoneRef
| CtxRef (id : nat).

(** ** Exceptions and results *)

Inductive exn : Type :=
| ContainerException (message : string)
| ValueError (message : string)
| AttributeError (attr : string)
| TypeError (message : string)
| IndexError
| ModuleNotFoundError (name : string)   (* the name given to [import_module] *)
| ReError (message : string).           (* [re.error]: not a regular expression *)

(** [Stuck] is not a Python outcome: the model ran out of fuel, met a
    reference to nothing or, in the examples, a pattern outside the fragment
    of the regular expressions that they implement. *)
Inductive result (A : Type) : Type :=
| Ok (a : A)
| Raise (e : exn)
| Stuck.
Arguments Ok {A} a.
Arguments Raise {A} e.
Arguments Stuck {A}.

(** ** The store *)

Record obj : Type := mkObj {
  obj_class : string;
  obj_fields : dict
}.

Record ContextObj : Type := mkContext {
  ctx_container : container;
  ctx_runtime : nat              (* the dict object held in [self.runtime] *)
}.

(** The attributes of the application container; [app_modules] and
    [app_configuration] are unset between [__new__] and [__init__]. *)
Record ApplicationContainer : Type := mkApp {
  app__container : option container;
  app_modules : option nat;
  app_configuration : option nat
}.

(** Calls that leave the engine: constructors, factories and clones. *)
Inductive event : Type :=
| EvConstruct (class_path : string) (kwargs : dict)
| EvCreate (factory_obj : value) (kwargs : dict)
| EvClone (v : value).

Record state : Type := mkState {
  lists : list (list string);          (* list objects *)
  dicts : list dict;                   (* dict objects *)
  objs : list obj;                     (* instances *)
  ctxs : list ContextObj;              (* Context objects *)
  app_instance : option ApplicationContainer;  (* ApplicationContainer.instance *)
  wrapper_stack : option container;    (* context._stack *)
  instances : option (list nat);       (* the ContextVar Context.instances *)
  trace : list event
}.

Definition empty_state : state :=
  mkState [] [] [] [] None None None [].

Definition set_lists (x : list (list string)) (s : state) : state :=
  mkState x (dicts s) (objs s) (ctxs s) (app_instance s) (wrapper_stack s) (instances s) (trace s).
Definition set_dicts (x : list dict) (s : state) : state :=
  mkState (lists s) x (objs s) (ctxs s) (app_instance s) (wrapper_stack s) (instances s) (trace s).
Definition set_objs (x : list obj) (s : state) : state :=
  mkState (lists s) (dicts s) x (ctxs s) (app_instance s) (wrapper_stack s) (instances s) (trace s).
Definition set_ctxs (x : list ContextObj) (s : state) : state :=
  mkState (lists s) (dicts s) (objs s) x (app_instance s) (wrapper_stack s) (instances s) (trace s).
Definition set_app_instance (x : option ApplicationContainer) (s : state) : state :=
  mkState (lists s) (dicts s) (objs s) (ctxs s) x (wrapper_stack s) (instances s) (trace s).
Definition set_wrapper_stack (x : option container) (s : state) : state :=
  mkState (lists s) (dicts s) (objs s) (ctxs s) (app_instance s) x (instances s) (trace s).
Definition set_instances (x : option (list nat)) (s : state) : state :=
  mkState (lists s) (dicts s) (objs s) (ctxs s) (app_instance s) (wrapper_stack s) x (trace s).
Definition set_trace (x : list event) (s : state) : state :=
  mkState (lists s) (dicts s) (objs s) (ctxs s) (app_instance s) (wrapper_stack s) (instances s) x.

(** Replace the element at an index; out of range the list is unchanged. *)
Fixpoint list_update {A : Type} (i : nat) (x : A) (l : list A) : list A :=
  match l, i with
  | [], _ => []
  | _ :: l', O => x :: l'
  | y :: l', S i' => y :: list_update i' x l'
  end.

(** ** The monad *)

Definition M (A : Type) : Type := state -> result A * state.

Definition ret {A : Type} (a : A) : M A := fun s => (Ok a, s).
Definition raise {A : Type} (e : exn) : M A := fun s => (Raise e, s).
Definition stuck {A : Type} : M A := fun s => (Stuck, s).

Definition bind {A B : Type} (m : M A) (k : A -> M B) : M B :=
  fun s =>
    match m s with
    | (Ok a, s') => k a s'
    | (Raise e, s') => (Raise e, s')
    | (Stuck, s') => (Stuck, s')
    end.

Declare Scope monad_scope.
Delimit Scope monad_scope with monad.
Notation "x <- m ;; k" := (bind m (fun x => k))
  (at level 100, m at next level, right associativity) : monad_scope.
Notation "m ;;; k" := (bind m (fun _ => k))
  (at level 100, right associativity) : monad_scope.
Open Scope monad_scope.

Definition gets {A : Type} (f : state -> A) : M A := fun s => (Ok (f s), s).
Definition modify (f : state -> state) : M unit := fun s => (Ok tt, f s).

Definition of_option {A : Type} (o : option A) : M A :=
  match o with Some a => ret a | None => stuck end.

Fixpoint mapM {A B : Type} (f : A -> M B) (l : list A) : M (list B) :=
  match l with
  | [] => ret []
  | x :: l' => y <- f x ;; ys <- mapM f l' ;; ret (y :: ys)
  end.

Fixpoint forM_ {A : Type} (l : list A) (f : A -> M unit) : M unit :=
  match l with
  | [] => ret tt
  | x :: l' => f x ;;; forM_ l' f
  end.

(** [[x for x in l if f(x)]] *)
Fixpoint filterM {A : Type} (f : A -> M bool) (l : list A) : M (list A) :=
  match l with
  | [] => ret []
  | x :: l' =>
      b <- f x ;;
      rest <- filterM f l' ;;
      ret (if b then x :: rest else rest)
  end.

(** The outcome of a call that does not touch the store. *)
Definition of_result {A : Type} (r : result A) : M A := fun s => (r, s).

(** *** Store primitives *)

Definition read_list (r : nat) : M (list string) :=
  l <- gets lists ;; of_option (nth_error l r).

Definition list_append (r : nat) (x : string) : M unit :=
  l <- read_list r ;;
  modify (fun s => set_lists (list_update r (l ++ [x]) (lists s)) s).

Definition read_dict (r : nat) : M dict :=
  d <- gets dicts ;; of_option (nth_error d r).

(** A fresh [{}] (or dict literal). *)
Definition alloc_dict (d : dict) : M nat :=
  ds <- gets dicts ;;
  modify (set_dicts (ds ++ [d])) ;;;
  ret (List.length ds).

(** [d[name] = v] on the dict object [r]. *)
Definition dict_setitem (r : nat) (name : string) (v : value) : M unit :=
  d <- read_dict r ;;
  modify (fun s => set_dicts (list_update r (dict_set name v d) (dicts s)) s).

Definition read_obj (id : nat) : M obj :=
  os <- gets objs ;; of_option (nth_error os id).

Definition alloc_obj (o : obj) : M nat :=
  os <- gets objs ;;
  modify (set_objs (os ++ [o])) ;;;
  ret (List.length os).

Definition read_ctx (id : nat) : M ContextObj :=
  cs <- gets ctxs ;; of_option (nth_error cs id).

(** The new object may mention itself, so it is built from its own index. *)
Definition alloc_ctx (mk : nat -> ContextObj) : M nat :=
  cs <- gets ctxs ;;
  modify (set_ctxs (cs ++ [mk (List.length cs)])) ;;;
  ret (List.length cs).

Definition emit (e : event) : M unit :=
  modify (fun s => set_trace (trace s ++ [e]) s).

(** [x or {}] for an optional dict argument: [None] and the empty dict are
    both falsy and give a fresh dict; a non-empty dict is used itself. *)
Definition dict_or_new (x : option nat) : M nat :=
  match x with
  | None => alloc_dict []
  | Some r =>
      d <- read_dict r ;;
      match d with
      | [] => alloc_dict []
      | _ :: _ => ret r
      end
  end.

(** ** Patterns

    The group patterns of the code are regular expressions handed to the
    functions [match] and [sub] of the module [re], which the engine calls
    and does not define: they are a parameter of the engine.  *)

(** [re_module_match p s] tells whether [match(p, s)] finds a match,
    [re_module_sub p s] is [sub(p, '', s)]; either can raise ([re.error] on
    what is not a regular expression). *)
Class re_module : Type := {
  re_module_match : string -> string -> result bool;
  re_module_sub : string -> string -> result string
}.

(** *** The patterns of the examples

    The examples run the engine on an implementation of [match] and [sub]
    for a fragment of the regular expressions that contains the pattern the
    repository uses ([^app.command.]): an optional leading [^], then literal
    characters, backslash-escaped punctuation and [.], which stands for any
    character but a newline.  On every other pattern [parse_regex] answers
    [None] and this implementation is [Stuck]. *)

Inductive atom : Type :=
| ALit (c : ascii)
| AAny.

Record regex : Type := mkRegex {
  anchored : bool;
  atoms : list atom
}.

Definition is_meta (c : ascii) : bool :=
  existsb (Ascii.eqb c)
    ["\"; "^"; "$"; "*"; "+"; "?"; "{"; "}"; "["; "]"; "("; ")"; "|"]%char.

(** A backslash makes a literal of an ASCII character that is neither a
    letter nor a digit. *)
Definition is_escapable (c : ascii) : bool :=
  let n := nat_of_ascii c in
  ((n <? 128) && negb (((48 <=? n) && (n <=? 57)) || ((65 <=? n) && (n <=? 90))
                       || ((97 <=? n) && (n <=? 122))))%nat%bool.

Fixpoint parse_atoms (s : string) : option (list atom) :=
  match s with
  | EmptyString => Some []
  | String "\"%char (String c s') =>
      if is_escapable c then option_map (cons (ALit c)) (parse_atoms s') else None
  | String c s' =>
      if is_meta c then None
      else option_map (cons (if Ascii.eqb c "."%char then AAny else ALit c))
                      (parse_atoms s')
  end.

Definition parse_regex (p : string) : option regex :=
  match p with
  | String "^"%char p' => option_map (mkRegex true) (parse_atoms p')
  | _ => option_map (mkRegex false) (parse_atoms p)
  end.

Definition newline : ascii := Ascii.ascii_of_nat 10.

Definition atom_matches (a : atom) (c : ascii) : bool :=
  match a with
  | ALit c' => Ascii.eqb c c'
  | AAny => negb (Ascii.eqb c newline)
  end.

(** The rest of [s] after a match of the atoms at its start. *)
Fixpoint match_prefix (ats : list atom) (s : string) : option string :=
  match ats with
  | [] => Some s
  | a :: ats' =>
      match s with
      | EmptyString => None
      | String c s' => if atom_matches a c then match_prefix ats' s' else None
      end
  end.

(** [re.match(pattern, s)] as a truth value: a match at the start of [s]. *)
Definition re_match (r : regex) (s : string) : bool :=
  match match_prefix (atoms r) s with Some _ => true | None => false end.

(** Scanning left to right, dropping every non-overlapping match; [skip]
    counts the characters of the current match still to be dropped, and
    [start] tells whether the scan is at the first character, the only
    place where [^] matches. *)
Fixpoint sub_scan (r : regex) (start : bool) (skip : nat) (s : string) : string :=
  match s with
  | EmptyString => EmptyString
  | String c s' =>
      match skip with
      | S k => sub_scan r false k s'
      | O =>
          if (start || negb (anchored r)) && re_match r s
          then sub_scan r false (List.length (atoms r) - 1) s'
          else String c (sub_scan r false 0 s')
      end
  end.

(** [re.sub(pattern, '', s)]; a pattern without atoms matches the empty
    string only. *)
Definition re_sub (r : regex) (s : string) : string :=
  match atoms r with
  | [] => s
  | _ :: _ => sub_scan r true 0 s
  end.

#[global] Instance fragment_re : re_module := {
  re_module_match p s :=
    match parse_regex p with Some r => Ok (re_match r s) | None => Stuck end;
  re_module_sub p s :=
    match parse_regex p with Some r => Ok (re_sub r s) | None => Stuck end
}.

(** ** Sets of names *)

Definition name_in (x : string) (s : list string) : bool := existsb (String.eqb x) s.

Definition names_add (s : list string) (x : string) : list string :=
  if name_in x s then s else s ++ [x].

(** [a.union(b)] *)
Definition names_union (a b : list string) : list string := fold_left names_add b a.

(** ** The importable world: modules, their registries and their classes *)

(** The classes are those of the programs that use the engine; of a class
    the world tells what the engine can observe: whether it defines the
    methods [clone] and [create] (as plain methods of its instances), and
    what its constructor does with the keyword arguments it is called on. *)
Record class_info : Type := mkClassInfo {
  cls_cloneable : bool;            (* the class defines [clone] *)
  cls_product : option string;     (* the class defines [create], building this class *)
  cls_init : dict -> option exn    (* what the constructor raises on these
                                      keyword arguments, if it raises *)
}.

(** A class whose constructor takes whatever keyword arguments it is given. *)
Definition mkClass (cloneable : bool) (product : option string) : class_info :=
  mkClassInfo cloneable product (fun _ => None).

(** The constructor [__init__(self, <required>...)]: the keyword arguments
    must be exactly the required names. *)
Definition requires (names : list string) (kwargs : dict) : option exn :=
  if forallb (fun n => dict_mem n kwargs) names
     && forallb (fun kv => name_in (fst kv) names) kwargs
  then None
  else Some (TypeError "__init__() got missing or unexpected arguments").

(** A module of the world imports without raising, and so do the packages
    it is in; its attributes are the registry [container], when it has one,
    and its classes. *)
Record module_info : Type := mkModule {
  mod_container : option container;           (* the module attribute [container] *)
  mod_classes : list (string * class_info)
}.

Definition world : Type := list (string * module_info).

Inductive attr : Type :=
| AttrClass (ci : class_info)
| AttrContainer (c : container).

(** [getattr(module, name)] *)
Definition module_getattr (m : module_info) (name : string) : option attr :=
  if String.eqb name "container" then option_map AttrContainer (mod_container m)
  else option_map AttrClass (dict_get name (mod_classes m)).

(** What [import_module(name)] finds.  [importlib] refuses an empty name
    and, no package being given, a relative one, whatever modules exist. *)
Definition lookup_module (W : world) (name : string) : option module_info :=
  match name with
  | EmptyString => None
  | String "."%char _ => None
  | _ => dict_get name W
  end.

(** The exception of [import_module(name)] when nothing is found. *)
Definition import_error (name : string) : exn :=
  match name with
  | EmptyString => ValueError "Empty module name"
  | String "."%char _ =>
      TypeError "the 'package' argument is required to perform a relative import"
  | _ => ModuleNotFoundError name
  end.

(** ** Service declarations: [Service.__init__] *)

Definition Service_init (klz factory : option string) (parameters : option dict)
  : result Service :=
  match klz, factory with
  | Some k, _ => Ok (mkService (Some k) None (match parameters with Some p => p | None => [] end))
  | None, Some f => Ok (mkService None (Some f) (match parameters with Some p => p | None => [] end))
  | None, None => Raise (ValueError "class or factory is required")
  end.

(** ** Parameter interpolation: [Parameter.resolve_value]

    [get] is [container.get]; the fuel bounds the depth of the recursion,
    which the code leaves unbounded. *)

Fixpoint Parameter_resolve_value (get : string -> M value) (fuel : nat) (v : value)
  : M value :=
  match fuel with
  | O => stuck
  | S f =>
      match v with
      | VDict d =>
          d' <- mapM (fun kv => v' <- Parameter_resolve_value get f (snd kv) ;;
                                ret (fst kv, v')) d ;;
          ret (VDict d')
      | VDictRef r =>
          d <- read_dict r ;;
          d' <- mapM (fun kv => v' <- Parameter_resolve_value get f (snd kv) ;;
                                ret (fst kv, v')) d ;;
          ret (VDict d')
      | VList l =>
          l' <- mapM (Parameter_resolve_value get f) l ;;
          ret (VList l')
      | VListRef r =>
          l <- read_list r ;;
          l' <- mapM (Parameter_resolve_value get f) (map VStr l) ;;
          ret (VList l')
      | VStr s =>
          if startswith_percent s && endswith_percent s
          then v' <- get (replace_percent s) ;; Parameter_resolve_value get f v'
          else ret v
      | _ => ret v
      end
  end.

(** ** Layered lookup: [StackContainer.get] and [StackContainer.has],
    over any implementation of the container interface *)

Section Layers.
Variable C : Type.
Variable has : C -> string -> M bool.
Variable get : C -> string -> M value.

(** The [for] loop of [get] over the layers it is given, then [fallback]. *)
Fixpoint StackContainer_walk (layers : list C) (name : string) (fallback : M value)
  : M value :=
  match layers with
  | [] => fallback
  | c :: rest =>
      b <- has c name ;;
      if b then get c name else StackContainer_walk rest name fallback
  end.

Definition StackContainer_get (containers : list C) (name : string) : M value :=
  StackContainer_walk (rev containers) name
    (match containers with
     | [] => raise IndexError
     | c0 :: _ => get c0 name
     end).

(** [any(container.has(name) for container in self.containers)] *)
Fixpoint StackContainer_has (containers : list C) (name : string) : M bool :=
  match containers with
  | [] => ret false
  | c :: rest =>
      b <- has c name ;;
      if b then ret true else StackContainer_has rest name
  end.
End Layers.
Arguments StackContainer_walk {C}.
Arguments StackContainer_get {C}.
Arguments StackContainer_has {C}.

Fixpoint foldM {A B : Type} (f : B -> A -> M B) (l : list A) (b : B) : M B :=
  match l with
  | [] => ret b
  | x :: l' => b' <- f b x ;; foldM f l' b'
  end.

(** ** The engine, in a given world of importable modules *)

Section Engine.
Context {RE : re_module}.
Variable W : world.

(** [import_module(name)] *)
Definition import_module (name : string) : M module_info :=
  match lookup_module W name with
  | Some m => ret m
  | None => raise (import_error name)
  end.

(** [module_path, class_name = path.split(':')] followed by
    [getattr(import_module(module_path), class_name)] *)
Definition load_class (path : string) : M attr :=
  match split_colon path with
  | [module_path; class_name] =>
      m <- import_module module_path ;;
      match module_getattr m class_name with
      | Some a => ret a
      | None => raise (AttributeError class_name)
      end
  | [_] => raise (ValueError "not enough values to unpack (expected 2, got 1)")
  | _ => raise (ValueError "too many values to unpack (expected 2)")
  end.

(** The class that a path names, when it names one. *)
Definition class_info_of (path : string) : option class_info :=
  match split_colon path with
  | [module_path; class_name] =>
      match lookup_module W module_path with
      | Some m =>
          match module_getattr m class_name with
          | Some (AttrClass ci) => Some ci
          | _ => None
          end
      | None => None
      end
  | _ => None
  end.

(** Loading the attribute and calling it on the keyword arguments.  A
    registry object is not callable; the constructor of a class either
    raises or builds a new instance holding its arguments. *)
Definition construct (path : string) (kwargs : dict) : M value :=
  a <- load_class path ;;
  match a with
  | AttrClass ci =>
      match cls_init ci kwargs with
      | Some e => raise e
      | None =>
          emit (EvConstruct path kwargs) ;;;
          id <- alloc_obj (mkObj path kwargs) ;;
          ret (VObj id)
      end
  | AttrContainer _ => raise (TypeError "object is not callable")
  end.

(** [factory.create] on a resolved factory and the keyword arguments: on
    an instance of a class that defines [create], the product; on such a
    class itself the method is unbound; anything else has no [create]. *)
Definition create (fac : value) (kwargs : dict) : M value :=
  match fac with
  | VObj fid =>
      o <- read_obj fid ;;
      match option_map cls_product (class_info_of (obj_class o)) with
      | Some (Some product) =>
          emit (EvCreate fac kwargs) ;;;
          id <- alloc_obj (mkObj product kwargs) ;;
          ret (VObj id)
      | _ => raise (AttributeError "create")
      end
  | VClass path =>
      match option_map cls_product (class_info_of path) with
      | Some (Some _) =>
          raise (TypeError "create() missing 1 required positional argument: 'self'")
      | _ => raise (AttributeError "create")
      end
  | _ => raise (AttributeError "create")
  end.

(** [hasattr(value, 'clone')] *)
Definition hasattr_clone (v : value) : M bool :=
  match v with
  | VObj id =>
      o <- read_obj id ;;
      ret (match class_info_of (obj_class o) with
           | Some ci => cls_cloneable ci
           | None => false
           end)
  | VClass path =>
      ret (match class_info_of path with
           | Some ci => cls_cloneable ci
           | None => false
           end)
  | _ => ret false
  end.

(** [value.clone()]: on an instance, a new instance with the same
    contents; on a class object the method is unbound. *)
Definition clone (v : value) : M value :=
  match v with
  | VObj id =>
      o <- read_obj id ;;
      emit (EvClone v) ;;;
      id' <- alloc_obj o ;;
      ret (VObj id')
  | _ => raise (TypeError "clone() missing 1 required positional argument: 'self'")
  end.

(** *** [Service.resolve], [Class.resolve], [ResourceGroup.resolve] *)

Definition Service_resolve (get : string -> M value) (fuel : nat) (s : Service)
  : M value :=
  kw <- Parameter_resolve_value get fuel (VDict (parameters s)) ;;
  kwargs <- match kw with VDict d => ret d | _ => stuck end ;;
  match factory s with
  | Some fname => fac <- get fname ;; create fac kwargs
  | None =>
      match klz s with
      | Some path => construct path kwargs
      | None => raise (TypeError "'NoneType' object is not callable")
      end
  end.

Definition Class_resolve (class_path : string) : M value :=
  a <- load_class class_path ;;
  ret (match a with
       | AttrClass _ => VClass class_path
       | AttrContainer _ => VAttr class_path
       end).

(** [{sub(self.pattern, '', v): v for v in context.find(self.pattern)}] *)
Definition ResourceGroup_resolve (find : string -> M (list string)) (pattern : string)
  : M value :=
  names <- find pattern ;;
  d <- foldM (fun d v => k <- of_result (re_module_sub pattern v) ;;
                         ret (dict_set k (VStr v) d))
             names [] ;;
  ret (VDict d).

Definition resource_resolve (get : string -> M value)
           (find : string -> M (list string)) (fuel : nat) (r : resource) : M value :=
  match r with
  | RParameter v => Parameter_resolve_value get fuel v
  | RService s => Service_resolve get fuel s
  | RClass p => Class_resolve p
  | RResourceGroup p => ResourceGroup_resolve find p
  end.

(** *** The application container *)

Definition read_app : M ApplicationContainer :=
  a <- gets app_instance ;; of_option a.

(** [ApplicationContainer.__new__] *)
Definition ApplicationContainer_new : M unit :=
  a <- gets app_instance ;;
  match a with
  | None => modify (set_app_instance (Some (mkApp None None None)))
  | Some _ => raise (ContainerException "application container already initialized")
  end.

(** [ApplicationContainer.__init__(modules, configuration)] *)
Definition ApplicationContainer_init (modules : nat) (configuration : option nat)
  : M unit :=
  a <- read_app ;;
  modify (set_app_instance (Some (mkApp None (Some modules) (app_configuration a)))) ;;;
  list_append modules "logos" ;;;
  c <- dict_or_new configuration ;;
  modify (set_app_instance (Some (mkApp None (Some modules) (Some c)))).

(** [ApplicationContainer(modules, configuration)] *)
Definition ApplicationContainer_call (modules : nat) (configuration : option nat)
  : M unit :=
  ApplicationContainer_new ;;;
  ApplicationContainer_init modules configuration.

(** The property [ApplicationContainer.container] *)
Definition ApplicationContainer_container : M container :=
  a <- read_app ;;
  match app__container a with
  | Some c => ret c
  | None =>
      m <- match app_modules a with Some m => ret m | None => raise (AttributeError "modules") end ;;
      c <- match app_configuration a with
           | Some c => ret c
           | None => raise (AttributeError "configuration")
           end ;;
      ms <- read_list m ;;
      stack <- foldM (fun stack module =>
                        mi <- import_module module ;;
                        match mod_container mi with
                        | Some mc => ret (stack ++ [mc])
                        | None => ret stack
                        end)
                     ms
                     [Container [("app.modules", RParameter (VListRef m));
                                 ("app.configuration", RParameter (VDictRef c))]] ;;
      modify (set_app_instance
                (Some (mkApp (Some (StackContainer stack)) (Some m) (Some c)))) ;;;
      ret (StackContainer stack)
  end.

(** *** The ambient accessor: the property [__ContextWrapper.container]

    The list handed to the new [StackContainer] is the one the code then
    appends the [context] registry to, so the new scope sees both layers. *)
Definition ContextWrapper_container : M nat :=
  st <- gets wrapper_stack ;;
  stk <- match st with
         | Some stk => ret stk
         | None =>
             a <- gets app_instance ;;
             let stk := StackContainer [match a with Some _ => AppRef | None => NoneRef end] in
             modify (set_wrapper_stack (Some stk)) ;;;
             ret stk
         end ;;
  i <- gets instances ;;
  match rev (match i with Some l => l | None => [] end) with
  | top :: _ => ret top
  | [] =>
      rt <- alloc_dict [] ;;
      alloc_ctx (fun id =>
        mkContext (StackContainer [stk; Container [("context", RParameter (VCtx id))]]) rt)
  end.

(** *** Membership through scopes and registries *)

Fixpoint Context_has (fuel : nat) (self : nat) (name : string) {struct fuel} : M bool :=
  match fuel with
  | O => stuck
  | S f =>
      c <- read_ctx self ;;
      d <- read_dict (ctx_runtime c) ;;
      if dict_mem name d then ret true
      else container_has f (ctx_container c) name
  end

(** [has] on whatever object implements the container interface *)
with container_has (fuel : nat) (c : container) (name : string) {struct fuel} : M bool :=
  match fuel with
  | O => stuck
  | S f =>
      match c with
      | Container resources => ret (dict_mem name resources)
      | StackContainer cs => StackContainer_has (container_has f) cs name
      | AppRef =>
          c' <- ApplicationContainer_container ;;
          container_has f c' name
      | NoneRef => raise (AttributeError "has")
      | CtxRef id => Context_has f id name
      end
  end.

Definition ContextWrapper_has (fuel : nat) (name : string) : M bool :=
  id <- ContextWrapper_container ;;
  Context_has fuel id name.

(** The property [StackContainer.resources_names].  Its per-object cache
    is left out: the registries it reads are fixed once built, so reading
    them again gives the same set. *)
Fixpoint resources_names (fuel : nat) (cs : list container) {struct fuel}
  : M (list string) :=
  match fuel with
  | O => stuck
  | S f =>
      foldM (fun acc c =>
               c1 <- match c with
                     | AppRef => ApplicationContainer_container
                     | _ => ret c
                     end ;;
               let acc1 := match c1 with
                           | Container rs => names_union acc (map fst rs)
                           | _ => acc
                           end in
               match c1 with
               | StackContainer cs' =>
                   ns <- resources_names f cs' ;;
                   ret (names_union acc1 ns)
               | _ => ret acc1
               end)
            cs []
  end.

(** [__ContextWrapper.find] *)
Definition ContextWrapper_find (fuel : nat) (pattern : string) : M (list string) :=
  id <- ContextWrapper_container ;;
  c <- read_ctx id ;;
  names <- match ctx_container c with
           | StackContainer cs => resources_names fuel cs
           | _ => raise (AttributeError "resources_names")
           end ;;
  filterM (fun name => of_result (re_module_match pattern name)) names.

(** *** Lookup through scopes and registries

    [Container.get] hands the ambient accessor [context] to the resource
    it resolves, whatever scope the request came through. *)

Fixpoint ContextWrapper_get (fuel : nat) (name : string) {struct fuel} : M value :=
  match fuel with
  | O => stuck
  | S f =>
      id <- ContextWrapper_container ;;
      Context_get f id name
  end

with Context_get (fuel : nat) (self : nat) (name : string) {struct fuel} : M value :=
  match fuel with
  | O => stuck
  | S f =>
      c <- read_ctx self ;;
      d <- read_dict (ctx_runtime c) ;;
      (if dict_mem name d then ret tt
       else v <- container_get f (ctx_container c) name ;;
            dict_setitem (ctx_runtime c) name v) ;;;
      d' <- read_dict (ctx_runtime c) ;;
      ret (match dict_get name d' with Some v => v | None => VNone end)
  end

(** [get] on whatever object implements the container interface *)
with container_get (fuel : nat) (c : container) (name : string) {struct fuel} : M value :=
  match fuel with
  | O => stuck
  | S f =>
      match c with
      | Container resources =>
          match dict_get name resources with
          | None => raise (ContainerException (name ++ " not in container")%string)
          | Some r => resource_resolve (ContextWrapper_get f) (ContextWrapper_find f) f r
          end
      | StackContainer cs =>
          StackContainer_get (container_has f) (container_get f) cs name
      | AppRef =>
          c' <- ApplicationContainer_container ;;
          container_get f c' name
      | NoneRef => raise (AttributeError "get")
      | CtxRef id => Context_get f id name
      end
  end.

(** *** Scopes *)

(** [Context.__init__]: the first overload takes a [StackContainer]; the
    second takes any other container object and wraps it in one; [None]
    fits neither. *)
Definition Context_init (c : container) (runtime : option nat) : M nat :=
  c' <- match c with
        | StackContainer _ => ret c
        | NoneRef => raise (TypeError "invalid call argument(s)")
        | _ => ret (StackContainer [c])
        end ;;
  rt <- dict_or_new runtime ;;
  alloc_ctx (fun _ => mkContext c' rt).

(** [Context.__enter__] *)
Definition Context_enter (self : nat) : M unit :=
  i <- gets instances ;;
  (match i with
   | None => modify (set_instances (Some []))
   | Some _ => ret tt
   end) ;;;
  modify (fun s => set_instances
                     (Some ((match instances s with Some l => l | None => [] end) ++ [self])) s).

(** [contexts.index(self)] *)
Fixpoint list_index (x : nat) (l : list nat) : option nat :=
  match l with
  | [] => None
  | y :: l' => if Nat.eqb x y then Some O else option_map S (list_index x l')
  end.

(** [contexts.pop(i)] for an index in range *)
Fixpoint list_pop (i : nat) (l : list nat) : list nat :=
  match l, i with
  | [], _ => []
  | _ :: l', O => l'
  | y :: l', S i' => y :: list_pop i' l'
  end.

(** [Context.__exit__]; [list.index] raises when the scope is absent, and
    never answers [-1]. *)
Definition Context_exit (self : nat) : M unit :=
  i <- gets instances ;;
  match i with
  | None => raise (ValueError "is not in list")
  | Some contexts =>
      match list_index self contexts with
      | None => raise (ValueError "is not in list")
      | Some index => modify (set_instances (Some (list_pop index contexts)))
      end
  end.

(** The statement [with scope: body].  [__exit__] runs however the body
    ends and answers [None], so an exception of the body goes on. *)
Definition with_Context {A : Type} (self : nat) (body : M A) : M A :=
  fun s =>
    match Context_enter self s with
    | (Ok _, s1) =>
        match body s1 with
        | (Stuck, s2) => (Stuck, s2)
        | (r, s2) =>
            match Context_exit self s2 with
            | (Ok _, s3) => (r, s3)
            | (Raise e, s3) => (Raise e, s3)
            | (Stuck, s3) => (Stuck, s3)
            end
        end
    | (Raise e, s1) => (Raise e, s1)
    | (Stuck, s1) => (Stuck, s1)
    end.

(** One turn of the loop of [Context.new_from], on the entry [item] of the
    parent's cache, [rt] being the dict that becomes the child's cache. *)
Definition new_from_item (rt : nat) (item : string * value) : M unit :=
  d <- read_dict rt ;;
  if negb (dict_mem (fst item) d) then
    b <- hasattr_clone (snd item) ;;
    if b then v <- clone (snd item) ;; dict_setitem rt (fst item) v
    else ret tt
  else ret tt.

(** [Context.new_from(context, runtime, container)] *)
Definition Context_new_from (context : nat) (runtime : option nat)
           (container : option container) : M nat :=
  parent <- read_ctx context ;;
  rt <- dict_or_new runtime ;;
  items <- read_dict (ctx_runtime parent) ;;
  forM_ items (new_from_item rt) ;;;
  Context_init
    (match container with
     | Some c => StackContainer [ctx_container parent; c]
     | None => StackContainer [ctx_container parent]
     end)
    (Some rt).

(** *** What a program can do with the engine, one call at a time *)

Inductive op : Type :=
| OpContextGet (fuel self : nat) (name : string)
| OpContextHas (fuel self : nat) (name : string)
| OpWrapperGet (fuel : nat) (name : string)
| OpWrapperHas (fuel : nat) (name : string)
| OpWrapperFind (fuel : nat) (pattern : string)
| OpEnter (self : nat)
| OpExit (self : nat)
| OpNewContext (c : container) (runtime : option nat)
| OpNewFrom (context : nat) (runtime : option nat) (container : option container)
| OpNewApplication (modules : nat) (configuration : option nat)
| OpNewDict (d : dict).

Definition exec_op (o : op) (s : state) : state :=
  match o with
  | OpContextGet fuel self name => snd (Context_get fuel self name s)
  | OpContextHas fuel self name => snd (Context_has fuel self name s)
  | OpWrapperGet fuel name => snd (ContextWrapper_get fuel name s)
  | OpWrapperHas fuel name => snd (ContextWrapper_has fuel name s)
  | OpWrapperFind fuel pattern => snd (ContextWrapper_find fuel pattern s)
  | OpEnter self => snd (Context_enter self s)
  | OpExit self => snd (Context_exit self s)
  | OpNewContext c runtime => snd (Context_init c runtime s)
  | OpNewFrom context runtime container => snd (Context_new_from context runtime container s)
  | OpNewApplication modules configuration =>
      snd (ApplicationContainer_call modules configuration s)
  | OpNewDict d => snd (alloc_dict d s)
  end.

Definition exec_ops (ops : list op) (s : state) : state :=
  fold_left (fun s o => exec_op o s) ops s.
End Engine.

(** ** Vocabulary of the statements *)

(** The value under a key of a dict object of the store. *)
Definition dict_at (s : state) (r : nat) (k : string) : option value :=
  match nth_error (dicts s) r with
  | Some d => dict_get k d
  | None => None
  end.

(** The contents of an optional dict argument: nothing for [None]. *)
Definition dict_arg (x : option nat) (s : state) : dict :=
  match x with
  | Some r => match nth_error (dicts s) r with Some d => d | None => [] end
  | None => []
  end.

(** The active-scope stack as [instances.get([])] sees it. *)
Definition active_stack (s : state) : list nat :=
  match instances s with Some l => l | None => [] end.

(** [s'] extends [s]: scopes are still there, dict objects are still there
    and every entry a dict had is still in it with the same value. *)
Record ext (s s' : state) : Prop := mkExt {
  ext_ctxs : forall id c, nth_error (ctxs s) id = Some c -> nth_error (ctxs s') id = Some c;
  ext_dicts_len : List.length (dicts s) <= List.length (dicts s');
  ext_dicts : forall r k v, dict_at s r k = Some v -> dict_at s' r k = Some v
}.

Definition mono {A : Type} (m : M A) : Prop :=
  forall s r s', m s = (r, s') -> ext s s'.

(** [has] answers false on each of these layers in turn. *)
Inductive all_miss {C : Type} (has : C -> string -> M bool) (name : string)
  : list C -> state -> state -> Prop :=
| all_miss_nil : forall s, all_miss has name [] s s
| all_miss_cons : forall c rest s s1 s2,
    has c name s = (Ok false, s1) ->
    all_miss has name rest s1 s2 ->
    all_miss has name (c :: rest) s s2.

(** Nesting depth of a value. *)
Fixpoint depth (v : value) : nat :=
  match v with
  | VList l => S (fold_right (fun x n => Nat.max (depth x) n) 0 l)
  | VDict d => S (fold_right (fun kv n => Nat.max (depth (snd kv)) n) 0 d)
  | _ => 0
  end.

Definition is_placeholder (s : string) : bool :=
  startswith_percent s && endswith_percent s.

(** Values made of engine-built data only: no store reference inside. *)
Fixpoint closed_value (v : value) : bool :=
  match v with
  | VList l => forallb closed_value l
  | VDict d => forallb (fun kv => closed_value (snd kv)) d
  | VListRef _ | VDictRef _ => false
  | _ => true
  end.

(** Closed values without any placeholder string. *)
Fixpoint plain (v : value) : bool :=
  match v with
  | VList l => forallb plain l
  | VDict d => forallb (fun kv => plain (snd kv)) d
  | VStr s => negb (is_placeholder s)
  | VListRef _ | VDictRef _ => false
  | _ => true
  end.

(** Strings without any [%]. *)
Fixpoint no_percent (s : string) : bool :=
  match s with
  | EmptyString => true
  | String c s' => negb (Ascii.eqb c percent) && no_percent s'
  end.

(** A registry of already interpolated values, as a [get]. *)
Definition env_get (env : string -> option value) (name : string) : M value :=
  match env name with
  | Some v => ret v
  | None => raise (ContainerException (name ++ " not in container")%string)
  end.

Fixpoint sequence_results {A : Type} (l : list (result A)) : result (list A) :=
  match l with
  | [] => Ok []
  | Ok a :: l' =>
      match sequence_results l' with
      | Ok l'' => Ok (a :: l'')
      | Raise e => Raise e
      | Stuck => Stuck
      end
  | Raise e :: _ => Raise e
  | Stuck :: _ => Stuck
  end.

(** Interpolation as a function of the value alone, over such a registry:
    every string that starts and ends with [%] is replaced by what the
    registry holds under that string without its [%] characters. *)
Fixpoint interpolate (env : string -> option value) (v : value) : result value :=
  match v with
  | VList l =>
      match sequence_results (map (interpolate env) l) with
      | Ok l' => Ok (VList l')
      | Raise e => Raise e
      | Stuck => Stuck
      end
  | VDict d =>
      match sequence_results
              (map (fun kv => match interpolate env (snd kv) with
                              | Ok v' => Ok (fst kv, v')
                              | Raise e => Raise e
                              | Stuck => Stuck
                              end) d) with
      | Ok d' => Ok (VDict d')
      | Raise e => Raise e
      | Stuck => Stuck
      end
  | VStr s =>
      if is_placeholder s then
        match env (replace_percent s) with
        | Some v' => Ok v'
        | None => Raise (ContainerException (replace_percent s ++ " not in container")%string)
        end
      else Ok v
  | _ => Ok v
  end.

(** [l] without its first occurrence of [x]. *)
Fixpoint remove_first (x : nat) (l : list nat) : list nat :=
  match l with
  | [] => []
  | y :: l' => if Nat.eqb x y then l' else y :: remove_first x l'
  end.

(** ** Sample worlds *)

(** [logos/__init__.py]; of the modules of the repository, the registry
    and the class that the registry names. *)
Definition logos_container : container :=
  Container
    [("groups.commands", RResourceGroup "^app.command.");
     ("app.command",
      RService (mkService (Some "logos.command:DelegateCommand") None
                          [("commands", VStr "%groups.commands%")]))].

Definition logos_modules : world :=
  [("logos", mkModule (Some logos_container) []);
   ("logos.command",
    mkModule None [("DelegateCommand", mkClassInfo false None (requires ["commands"]))])].

(** An application module registering two commands. *)
Definition myapp_world : world :=
  logos_modules ++
  [("myapp",
    mkModule
      (Some (Container
               [("app.command.build", RService (mkService (Some "myapp:Build") None []));
                ("app.command.test", RService (mkService (Some "myapp:Test") None []))]))
      [("Build", mkClass true None); ("Test", mkClass false None)])].

(** The process after [ApplicationContainer(['myapp'])]. *)
Definition myapp_started : state :=
  snd (ApplicationContainer_call 0 None (set_lists [["myapp"]] empty_state)).

(** A module whose registry holds the parameters of the interpolation
    example. *)
Definition cfg_world : world :=
  logos_modules ++
  [("cfg",
    mkModule
      (Some (Container
               [("x", RParameter (VInt 5));
                ("p", RParameter
                        (VDict [("a", VStr "%x%");
                                ("b", VList [VInt 1; VStr "%x%"])]));
                ("q", RParameter (VStr "%x% and %y%"));
                ("ab", RParameter (VInt 7));
                ("r", RParameter (VStr "%a%b%"))]))
      [])].

Definition cfg_started : state :=
  snd (ApplicationContainer_call 0 None (set_lists [["cfg"]] empty_state)).

(** A module with a group whose pattern is not anchored. *)
Definition ab_world : world :=
  logos_modules ++
  [("ab",
    mkModule
      (Some (Container
               [("abab", RParameter (VInt 1));
                ("g", RResourceGroup "ab")]))
      [])].

Definition ab_started : state :=
  snd (ApplicationContainer_call 0 None (set_lists [["ab"]] empty_state)).

(** Two flat layers binding the same name. *)
Definition L1 : container := Container [("k", RParameter (VInt 1))].
Definition L2 : container := Container [("k", RParameter (VInt 2))].

(** Construction attempts made one after the other, with their outcomes. *)
Fixpoint construct_all (attempts : list (nat * option nat)) (s : state)
  : list (result unit) * state :=
  match attempts with
  | [] => ([], s)
  | (m, c) :: rest =>
      let (r, s1) := ApplicationContainer_call m c s in
      let (rs, s2) := construct_all rest s1 in
      (r :: rs, s2)
  end.

(** Two scopes, the first entered, then the second. *)
Definition two_scopes_active : state :=
  exec_ops [] [OpNewContext (Container []) None; OpNewContext (Container []) None;
               OpEnter 0; OpEnter 1] empty_state.

(** The started application with one explicit scope over it (scope 0). *)
Definition myapp_scoped : state :=
  exec_ops myapp_world [OpNewContext AppRef None] myapp_started.

(** Scope 0 has resolved a cloneable service and one that is not, and the
    caller holds a dict of overrides (dict 2). *)
Definition derive_ready : state :=
  exec_ops myapp_world
    [OpContextGet 20 0 "app.command.build"; OpContextGet 20 0 "app.command.test";
     OpNewDict [("request.id", VInt 7)]]
    myapp_scoped.

(** Two scopes over one dict of overrides (dict 0), which [runtime or {}]
    keeps as the cache of both: the registry of scope 0 builds [a] from the
    [a] of the ambient accessor, the registry of scope 1 binds [a] to [5],
    and scope 1 is the active one. *)
Definition shared_cache : state :=
  exec_ops []
    [OpNewDict [("z", VInt 0)];
     OpNewContext (Container [("a", RParameter (VDict [("k", VStr "%a%")]))]) (Some 0);
     OpNewContext (Container [("a", RParameter (VInt 5))]) (Some 0);
     OpEnter 1]
    empty_state.

(** ** Registries seen as trees

    A registry built from [Container] and [StackContainer] alone is a tree
    of flat registries; the functions below read such a tree without the
    store. *)

Fixpoint pure_tree (c : container) : bool :=
  match c with
  | Container _ => true
  | StackContainer cs => forallb pure_tree cs
  | _ => false
  end.

(** No reference to the application container inside. *)
Fixpoint no_app (c : container) : bool :=
  match c with
  | AppRef => false
  | StackContainer cs => forallb no_app cs
  | _ => true
  end.

Fixpoint tree_depth (c : container) : nat :=
  match c with
  | StackContainer cs => S (fold_right (fun c n => Nat.max (tree_depth c) n) 0 cs)
  | _ => 0
  end.

(** Some flat registry of the tree holds the name. *)
Fixpoint tree_has (name : string) (c : container) : bool :=
  match c with
  | Container rs => dict_mem name rs
  | StackContainer cs => existsb (tree_has name) cs
  | _ => false
  end.

(** The names of the flat registries of the tree. *)
Fixpoint tree_names (c : container) : list string :=
  match c with
  | Container rs => map fst rs
  | StackContainer cs => flat_map tree_names cs
  | _ => []
  end.

(** The answer of the most recently appended layer that has the name. *)
Fixpoint last_hit {A : Type} (has : container -> bool) (find : container -> option A)
         (l : list container) : option A :=
  match l with
  | [] => None
  | c :: l' =>
      match last_hit has find l' with
      | Some x => Some x
      | None => if has c then find c else None
      end
  end.

(** The resource a name stands for in the tree, found in the most recently
    appended layer that has the name, with the number of layered registries
    gone through on the way. *)
Fixpoint tree_find (name : string) (c : container) : option (nat * resource) :=
  match c with
  | Container rs => option_map (pair 0) (dict_get name rs)
  | StackContainer cs =>
      option_map (fun x => (S (fst x), snd x))
                 (last_hit (tree_has name) (tree_find name) cs)
  | _ => None
  end.

(** The error of a lookup that no layer of the tree answers: that of the
    first layer, all the way down. *)
Fixpoint tree_miss (name : string) (c : container) : exn :=
  match c with
  | Container _ => ContainerException (name ++ " not in container")%string
  | StackContainer [] => IndexError
  | StackContainer (c0 :: _) => tree_miss name c0
  | _ => AttributeError "get"
  end.

(** The registries that the modules of a list contribute, in order. *)
Fixpoint module_containers (W : world) (ms : list string) : list container :=
  match ms with
  | [] => []
  | m :: ms' =>
      match lookup_module W m with
      | Some mi =>
          match mod_container mi with
          | Some c => c :: module_containers W ms'
          | None => module_containers W ms'
          end
      | None => module_containers W ms'
      end
  end.

(** The first registry of the application container, over its module list
    [m] and its configuration [c]. *)
Definition app_base (m c : nat) : container :=
  Container [("app.modules", RParameter (VListRef m));
             ("app.configuration", RParameter (VDictRef c))].

(** The first module of a list that cannot be imported. *)
Fixpoint first_missing (W : world) (ms : list string) : option string :=
  match ms with
  | [] => None
  | m :: ms' =>
      match lookup_module W m with
      | Some _ => first_missing W ms'
      | None => Some m
      end
  end.

Fixpoint count_colons (s : string) : nat :=
  match s with
  | EmptyString => 0
  | String c s' => (if Ascii.eqb c ":"%char then 1 else 0) + count_colons s'
  end.

(** The two processes differ at most in the application container. *)
Record same_store (s s' : state) : Prop := mkSameStore {
  same_lists : lists s' = lists s;
  same_dicts : dicts s' = dicts s;
  same_objs : objs s' = objs s;
  same_ctxs : ctxs s' = ctxs s;
  same_wrapper_stack : wrapper_stack s' = wrapper_stack s;
  same_instances : instances s' = instances s;
  same_trace : trace s' = trace s
}.

Definition frame {A : Type} (m : M A) : Prop :=
  forall s r s', m s = (r, s') -> same_store s s'.

(** A module with a factory and a service built by it. *)
Definition shop_world : world :=
  logos_modules ++
  [("shop",
    mkModule
      (Some (Container
               [("widget.factory", RService (mkService (Some "shop:WidgetFactory") None []));
                ("widget", RService (mkService None (Some "widget.factory")
                                               [("size", VInt 2)]))]))
      [("WidgetFactory", mkClass false (Some "shop:Widget"));
       ("Widget", mkClass true None)])].

Definition shop_started : state :=
  snd (ApplicationContainer_call 0 None (set_lists [["shop"]] empty_state)).

(** * Properties *)

Ltac munfold :=
  unfold bind, gets, modify, ret, raise, stuck, of_option in *.

(** ** Service declarations *)

(** C2 (as stated, refuted): a declaration with both a class reference and a
    factory reference is accepted. *)
Lemma Service_init_both_accepted :
  ~ (exists e, Service_init (Some "pkg:Cls") (Some "a.factory") None = Raise e).
Proof.
  intros [e H]. simpl in H. discriminate H.
Qed.

(** C2 (amended): construction fails, with the error "class or factory is
    required", exactly when neither reference is given; a class reference,
    alone or together with a factory reference, gives a service that holds
    the class reference only; a factory reference alone gives a service that
    holds it. *)
Theorem Service_init_spec :
  forall (k f : option string) (p : option dict),
    match k, f with
    | None, None =>
        Service_init k f p = Raise (ValueError "class or factory is required")
    | Some c, _ =>
        exists s, Service_init k f p = Ok s /\ klz s = Some c /\ factory s = None
    | None, Some fa =>
        exists s, Service_init k f p = Ok s /\ klz s = None /\ factory s = Some fa
    end.
Proof.
  intros [c|] [fa|] p; simpl; eauto.
Qed.

(** ** The application container *)

Lemma nth_error_list_update_eq :
  forall (A : Type) (l : list A) i x y,
    nth_error l i = Some y -> nth_error (list_update i x l) i = Some x.
Proof.
  induction l as [|a l IH]; intros [|i] x y H; simpl in *; try discriminate; eauto.
Qed.

Lemma nth_error_list_update_neq :
  forall (A : Type) (l : list A) i j x,
    i <> j -> nth_error (list_update i x l) j = nth_error l j.
Proof.
  induction l as [|a l IH]; intros [|i] [|j] x H; simpl; auto; congruence.
Qed.

Lemma length_list_update :
  forall (A : Type) (l : list A) i x, List.length (list_update i x l) = List.length l.
Proof.
  induction l as [|a l IH]; intros [|i] x; simpl; auto.
Qed.

Lemma call_when_initialized :
  forall s a m c,
    app_instance s = Some a ->
    ApplicationContainer_call m c s =
    (Raise (ContainerException "application container already initialized"), s).
Proof.
  intros s a m c H.
  unfold ApplicationContainer_call, ApplicationContainer_new. munfold.
  rewrite H. reflexivity.
Qed.

Lemma construct_all_when_initialized :
  forall attempts s a,
    app_instance s = Some a ->
    construct_all attempts s =
    (map (fun _ => Raise (ContainerException "application container already initialized"))
         attempts, s).
Proof.
  induction attempts as [|[m c] rest IH]; intros s a H; simpl.
  - reflexivity.
  - rewrite (call_when_initialized s a m c H). rewrite (IH s a H). reflexivity.
Qed.

(** What a successful first construction leaves behind. *)
Lemma call_first :
  forall s m c l,
    app_instance s = None ->
    nth_error (lists s) m = Some l ->
    match c with Some r => r < List.length (dicts s) | None => True end ->
    exists s1 cfg,
      ApplicationContainer_call m c s = (Ok tt, s1) /\
      app_instance s1 = Some (mkApp None (Some m) (Some cfg)) /\
      lists s1 = list_update m (l ++ ["logos"]) (lists s).
Proof.
  intros s m c l Hn Hl Hc.
  unfold ApplicationContainer_call, ApplicationContainer_new, ApplicationContainer_init,
    read_app, list_append, read_list, dict_or_new, alloc_dict, read_dict.
  munfold. rewrite Hn. simpl. rewrite Hl. simpl.
  destruct c as [r|]; simpl.
  - destruct (nth_error (dicts s) r) as [d|] eqn:Hd.
    + destruct d as [|kv d]; simpl;
        do 2 eexists; (split; [reflexivity | split; reflexivity]).
    + apply nth_error_None in Hd. lia.
  - do 2 eexists; (split; [reflexivity | split; reflexivity]).
Qed.

(** C9: in a process where the application container has not been built, the
    first construction succeeds and installs the instance; whatever
    constructions are attempted afterwards, each fails with the error
    "application container already initialized" and the instance and the rest
    of the process are left as the first construction made them. *)
Theorem ApplicationContainer_singleton :
  forall s m c l attempts,
    app_instance s = None ->
    nth_error (lists s) m = Some l ->
    match c with Some r => r < List.length (dicts s) | None => True end ->
    exists s1 a,
      ApplicationContainer_call m c s = (Ok tt, s1) /\
      app_instance s1 = Some a /\
      construct_all attempts s1 =
      (map (fun _ => Raise (ContainerException "application container already initialized"))
           attempts, s1).
Proof.
  intros s m c l attempts Hn Hl Hc.
  destruct (call_first s m c l Hn Hl Hc) as (s1 & cfg & Hcall & Hinst & _).
  exists s1, (mkApp None (Some m) (Some cfg)). repeat split; auto.
  eapply construct_all_when_initialized; eauto.
Qed.

Lemma ApplicationContainer_singleton_witness :
  exists s1 a,
    ApplicationContainer_call 0 None (set_lists [["myapp"]] empty_state) = (Ok tt, s1) /\
    app_instance s1 = Some a /\
    construct_all [(0, @None nat); (0, @None nat)] s1 =
    (map (fun _ => Raise (ContainerException "application container already initialized"))
         [(0, @None nat); (0, @None nat)], s1).
Proof.
  apply (ApplicationContainer_singleton (set_lists [["myapp"]] empty_state) 0 None ["myapp"]).
  - reflexivity.
  - reflexivity.
  - exact I.
Defined.

(** C10: construction appends ['logos'] to the very list object it was
    given, which the caller still holds, and keeps that object as its module
    list. *)
Theorem ApplicationContainer_init_appends_to_callers_list :
  forall s m c l,
    app_instance s = None ->
    nth_error (lists s) m = Some l ->
    match c with Some r => r < List.length (dicts s) | None => True end ->
    exists s1 a,
      ApplicationContainer_call m c s = (Ok tt, s1) /\
      app_instance s1 = Some a /\
      app_modules a = Some m /\
      nth_error (lists s1) m = Some (l ++ ["logos"]) /\
      List.length (lists s1) = List.length (lists s) /\
      (forall r, r <> m -> nth_error (lists s1) r = nth_error (lists s) r).
Proof.
  intros s m c l Hn Hl Hc.
  destruct (call_first s m c l Hn Hl Hc) as (s1 & cfg & Hcall & Hinst & Hlists).
  exists s1, (mkApp None (Some m) (Some cfg)).
  rewrite Hlists. repeat split; auto.
  - eapply nth_error_list_update_eq; eauto.
  - apply length_list_update.
  - intros r Hr. apply nth_error_list_update_neq. congruence.
Qed.

Lemma ApplicationContainer_init_appends_to_callers_list_witness :
  exists s1 a,
    ApplicationContainer_call 0 None (set_lists [["myapp"]] empty_state) = (Ok tt, s1) /\
    app_instance s1 = Some a /\
    app_modules a = Some 0 /\
    nth_error (lists s1) 0 = Some (["myapp"] ++ ["logos"]) /\
    List.length (lists s1) = List.length (lists (set_lists [["myapp"]] empty_state)) /\
    (forall r, r <> 0 -> nth_error (lists s1) r
                         = nth_error (lists (set_lists [["myapp"]] empty_state)) r).
Proof.
  apply (ApplicationContainer_init_appends_to_callers_list
           (set_lists [["myapp"]] empty_state) 0 None ["myapp"]).
  - reflexivity.
  - reflexivity.
  - exact I.
Defined.

(** ** Activation of scopes *)

Lemma list_pop_index :
  forall x l i, list_index x l = Some i -> list_pop i l = remove_first x l.
Proof.
  induction l as [|y l IH]; intros i H; simpl in *.
  - discriminate.
  - destruct (Nat.eqb x y).
    + injection H as <-. reflexivity.
    + destruct (list_index x l) as [j|]; simpl in H; try discriminate.
      injection H as <-. simpl. f_equal. apply IH. reflexivity.
Qed.

Lemma list_index_in :
  forall x l, In x l -> exists i, list_index x l = Some i.
Proof.
  induction l as [|y l IH]; intros H; simpl in *.
  - contradiction.
  - destruct (Nat.eqb x y) eqn:E; eauto.
    destruct H as [H|H].
    + subst. rewrite Nat.eqb_refl in E. discriminate.
    + destruct (IH H) as [i Hi]. rewrite Hi. simpl. eauto.
Qed.

Lemma remove_first_app_fresh :
  forall x l, ~ In x l -> remove_first x (l ++ [x]) = l.
Proof.
  induction l as [|y l IH]; intros H; simpl.
  - rewrite Nat.eqb_refl. reflexivity.
  - destruct (Nat.eqb x y) eqn:E.
    + apply Nat.eqb_eq in E. subst. exfalso. apply H. left. reflexivity.
    + f_equal. apply IH. intros Hin. apply H. right. exact Hin.
Qed.

Lemma Context_enter_spec :
  forall self s,
    exists s1, Context_enter self s = (Ok tt, s1) /\
               instances s1 = Some (active_stack s ++ [self]).
Proof.
  intros self s. unfold Context_enter, active_stack. munfold.
  destruct (instances s) as [l|] eqn:E; simpl; rewrite ?E;
    eexists; split; reflexivity.
Qed.

Lemma Context_exit_spec :
  forall self s,
    In self (active_stack s) ->
    exists s1, Context_exit self s = (Ok tt, s1) /\
               instances s1 = Some (remove_first self (active_stack s)).
Proof.
  intros self s H. unfold Context_exit, active_stack in *. munfold.
  destruct (instances s) as [l|]; simpl in *; [|contradiction].
  destruct (list_index_in self l H) as [i Hi]. rewrite Hi. simpl.
  rewrite (list_pop_index self l i Hi). eexists; split; reflexivity.
Qed.

(** C7 (as stated, refuted): with scopes 0 and 1 active in that order,
    entering scope 0 again and leaving it does not restore the stack: the
    earlier occurrence of scope 0 is the one removed. *)
Lemma with_Context_reentered_not_restored :
  active_stack two_scopes_active = [0; 1] /\
  active_stack (snd (with_Context 0 (ret tt) two_scopes_active)) = [1; 0] /\
  active_stack (snd (with_Context 0 (ret tt) two_scopes_active))
  <> active_stack two_scopes_active.
Proof.
  repeat split; try reflexivity.
  vm_compute. discriminate.
Qed.

(** C7 (amended): entering a scope appends exactly that scope to the active
    stack; leaving it removes the first occurrence of that scope from the
    stack, whether the block ended normally or with an exception, which then
    goes on to the caller; so around a block that leaves the stack as it
    found it, the stack ends as the stack before with the entered scope
    appended and its first occurrence removed, which is the stack before
    whenever the scope was not already active. *)
Theorem with_Context_stack :
  forall (A : Type) (self : nat) (body : M A) (s : state) (r : result A) (s2 : state),
    body (snd (Context_enter self s)) = (r, s2) ->
    r <> Stuck ->
    active_stack s2 = active_stack (snd (Context_enter self s)) ->
    exists s3,
      active_stack (snd (Context_enter self s)) = active_stack s ++ [self] /\
      with_Context self body s = (r, s3) /\
      active_stack s3 = remove_first self (active_stack s ++ [self]) /\
      (~ In self (active_stack s) -> active_stack s3 = active_stack s).
Proof.
  intros A self body s r s2 Hbody Hr Hstack.
  destruct (Context_enter_spec self s) as (s1 & He & Hi1).
  rewrite He in *. simpl in *.
  assert (H1 : active_stack s1 = active_stack s ++ [self]).
  { unfold active_stack at 1. rewrite Hi1. reflexivity. }
  assert (Hin : In self (active_stack s2)).
  { rewrite Hstack, H1. apply in_or_app. right. left. reflexivity. }
  destruct (Context_exit_spec self s2 Hin) as (s3 & Hx & Hi3).
  exists s3.
  assert (H3 : active_stack s3 = remove_first self (active_stack s ++ [self])).
  { unfold active_stack at 1. rewrite Hi3, Hstack, H1. reflexivity. }
  split; [exact H1|]. split; [|split].
  - unfold with_Context. rewrite He, Hbody, Hx.
    destruct r; try reflexivity. contradiction.
  - exact H3.
  - intros Hfresh. rewrite H3. apply remove_first_app_fresh. exact Hfresh.
Qed.

Lemma with_Context_stack_witness :
  exists s3,
    active_stack (snd (Context_enter 2 two_scopes_active))
    = active_stack two_scopes_active ++ [2] /\
    with_Context 2 (raise (ValueError "boom")) two_scopes_active
    = (@Raise unit (ValueError "boom"), s3) /\
    active_stack s3 = remove_first 2 (active_stack two_scopes_active ++ [2]) /\
    (~ In 2 (active_stack two_scopes_active) ->
     active_stack s3 = active_stack two_scopes_active).
Proof.
  apply (with_Context_stack unit 2 (raise (ValueError "boom")) two_scopes_active
           (Raise (ValueError "boom"))
           (snd (Context_enter 2 two_scopes_active))).
  - reflexivity.
  - discriminate.
  - reflexivity.
Defined.

(** ** Layered lookup *)

Section LayeredLookup.
Variable C : Type.
Variable has : C -> string -> M bool.
Variable get : C -> string -> M value.
Variable name : string.

Lemma walk_all_miss :
  forall layers rest fallback s s1,
    all_miss has name layers s s1 ->
    StackContainer_walk has get (layers ++ rest) name fallback s
    = StackContainer_walk has get rest name fallback s1.
Proof.
  intros layers rest fallback s s1 H.
  induction H as [s|c more s s1 s2 Hc _ IH]; simpl.
  - reflexivity.
  - unfold bind at 1. rewrite Hc. exact IH.
Qed.

Lemma walk_hit :
  forall L rest fallback s s1,
    has L name s = (Ok true, s1) ->
    StackContainer_walk has get (L :: rest) name fallback s = get L name s1.
Proof.
  intros L rest fallback s s1 H. simpl. unfold bind. rewrite H. reflexivity.
Qed.

Lemma StackContainer_get_first_hit :
  forall lo L hi s s1 s2,
    all_miss has name (rev hi) s s1 ->
    has L name s1 = (Ok true, s2) ->
    StackContainer_get has get (lo ++ L :: hi) name s = get L name s2.
Proof.
  intros lo L hi s s1 s2 Hmiss Hhit. unfold StackContainer_get.
  rewrite rev_app_distr. simpl. rewrite <- app_assoc. simpl.
  rewrite (walk_all_miss _ _ _ _ _ Hmiss).
  apply walk_hit. exact Hhit.
Qed.

Lemma StackContainer_get_fallback :
  forall c0 rest s s1,
    all_miss has name (rev (c0 :: rest)) s s1 ->
    StackContainer_get has get (c0 :: rest) name s = get c0 name s1.
Proof.
  intros c0 rest s s1 Hmiss. unfold StackContainer_get.
  rewrite <- (app_nil_r (rev (c0 :: rest))).
  rewrite (walk_all_miss _ _ _ _ _ Hmiss). reflexivity.
Qed.

Lemma StackContainer_has_false :
  forall cs s s',
    StackContainer_has has cs name s = (Ok false, s') <-> all_miss has name cs s s'.
Proof.
  induction cs as [|c cs IH]; intros s s'; simpl.
  - unfold ret. split.
    + intros H. injection H as <-. constructor.
    + intros H. inversion H. reflexivity.
  - unfold bind. split.
    + intros H. destruct (has c name s) as [[[|]| |] s1] eqn:E; try discriminate.
      econstructor; [exact E|]. apply IH. exact H.
    + intros H. inversion H; subst.
      match goal with E : has c name s = _ |- _ => rewrite E end.
      apply IH. assumption.
Qed.

Lemma StackContainer_has_true :
  forall cs s s',
    StackContainer_has has cs name s = (Ok true, s') <->
    exists lo L hi s1,
      cs = lo ++ L :: hi /\ all_miss has name lo s s1 /\ has L name s1 = (Ok true, s').
Proof.
  induction cs as [|c cs IH]; intros s s'; simpl.
  - unfold ret. split.
    + intros H. discriminate.
    + intros (lo & L & hi & s1 & H & _). destruct lo; discriminate.
  - unfold bind. split.
    + intros H. destruct (has c name s) as [[[|]| |] s1] eqn:E; try discriminate.
      * injection H as <-. exists [], c, cs, s. repeat split; auto. constructor.
      * apply IH in H. destruct H as (lo & L & hi & s2 & -> & Hm & Hh).
        exists (c :: lo), L, hi, s2. repeat split; auto.
        econstructor; eauto.
    + intros (lo & L & hi & s1 & Hcs & Hm & Hh).
      destruct lo as [|c' lo]; simpl in Hcs; injection Hcs as -> ->.
      * inversion Hm; subst. rewrite Hh. reflexivity.
      * inversion Hm; subst.
        match goal with E : has c' name s = _ |- _ => rewrite E end.
        apply IH. exists lo, L, hi, s1. auto.
Qed.
End LayeredLookup.

Arguments container_has : simpl never.
Arguments container_get : simpl never.
Arguments Context_get : simpl never.
Arguments Context_has : simpl never.
Arguments ContextWrapper_get : simpl never.
Arguments resources_names : simpl never.
Arguments Parameter_resolve_value : simpl never.

(** One step of each lookup. *)
Lemma container_get_stack {RE : re_module} :
  forall W f cs name,
    container_get W (S f) (StackContainer cs) name
    = StackContainer_get (container_has W f) (container_get W f) cs name.
Proof. reflexivity. Qed.

Lemma container_has_stack :
  forall W f cs name,
    container_has W (S f) (StackContainer cs) name
    = StackContainer_has (container_has W f) cs name.
Proof. reflexivity. Qed.

Lemma container_get_flat {RE : re_module} :
  forall W f rs name,
    container_get W (S f) (Container rs) name
    = match dict_get name rs with
      | None => raise (ContainerException (name ++ " not in container")%string)
      | Some r => resource_resolve W (ContextWrapper_get W f) (ContextWrapper_find W f) f r
      end.
Proof. reflexivity. Qed.

(** Flat registries answer [has] without touching the process. *)
Lemma container_has_flat :
  forall W f rs name s,
    container_has W (S f) (Container rs) name s = (Ok (dict_mem name rs), s).
Proof. reflexivity. Qed.

Lemma all_miss_flat :
  forall W f name s rss,
    forallb (fun rs => negb (dict_mem name rs)) rss = true ->
    all_miss (container_has W (S f)) name (map Container rss) s s.
Proof.
  induction rss as [|rs rss IH]; intros H; cbn [map forallb] in *.
  - constructor.
  - apply andb_prop in H. destruct H as [H1 H2].
    econstructor.
    + rewrite container_has_flat. apply negb_true_iff in H1. rewrite H1. reflexivity.
    + apply IH. exact H2.
Qed.

Lemma forallb_rev :
  forall (A : Type) (p : A -> bool) l, forallb p (rev l) = forallb p l.
Proof.
  induction l as [|x l IH]; simpl; auto.
  rewrite forallb_app. simpl. rewrite IH. rewrite andb_true_r. apply andb_comm.
Qed.

Lemma StackContainer_has_flat :
  forall W f name s rss,
    StackContainer_has (container_has W (S f)) (map Container rss) name s
    = (Ok (existsb (dict_mem name) rss), s).
Proof.
  induction rss as [|rs rss IH]; cbn [StackContainer_has map].
  - reflexivity.
  - unfold bind. rewrite container_has_flat. cbn [existsb].
    destruct (dict_mem name rs) eqn:E; [reflexivity | exact IH].
Qed.

(** Without any layer there is no first layer to ask. *)
Remark StackContainer_get_empty {RE : re_module} :
  forall W f name s,
    container_get W (S f) (StackContainer []) name s = (Raise IndexError, s).
Proof. reflexivity. Qed.

(** C4: [get] on a layered registry answers with the most recently appended
    layer that has the name (the layers above it having answered no); when no
    layer has the name it asks the first layer, whose answer (for a flat
    registry, the error "name not in container") is the outcome; [has]
    answers yes exactly when some layer, asked in turn, has the name.  Over
    [L1, L2], which bind [k] to 1 and 2, [k] is 2, and over [L2, L1] it is 1. *)
Theorem StackContainer_lookup {RE : re_module} :
  forall (W : world) (f : nat) (name : string),
    (forall lo L hi s s1 s2,
        all_miss (container_has W f) name (rev hi) s s1 ->
        container_has W f L name s1 = (Ok true, s2) ->
        container_get W (S f) (StackContainer (lo ++ L :: hi)) name s
        = container_get W f L name s2) /\
    (forall c0 rest s s1,
        all_miss (container_has W f) name (rev (c0 :: rest)) s s1 ->
        container_get W (S f) (StackContainer (c0 :: rest)) name s
        = container_get W f c0 name s1) /\
    (forall r0 rss s,
        forallb (fun rs => negb (dict_mem name rs)) (r0 :: rss) = true ->
        container_get W (S (S (S f))) (StackContainer (map Container (r0 :: rss))) name s
        = (Raise (ContainerException (name ++ " not in container")%string), s)) /\
    (forall cs s s',
        container_has W (S f) (StackContainer cs) name s = (Ok true, s') <->
        exists lo L hi s1,
          cs = lo ++ L :: hi /\
          all_miss (container_has W f) name lo s s1 /\
          container_has W f L name s1 = (Ok true, s')) /\
    (forall cs s s',
        container_has W (S f) (StackContainer cs) name s = (Ok false, s') <->
        all_miss (container_has W f) name cs s s') /\
    (forall rss s,
        container_has W (S (S f)) (StackContainer (map Container rss)) name s
        = (Ok (existsb (dict_mem name) rss), s)) /\
    (forall s,
        container_get W (S (S (S f))) (StackContainer [L1; L2]) "k" s = (Ok (VInt 2), s) /\
        container_get W (S (S (S f))) (StackContainer [L2; L1]) "k" s = (Ok (VInt 1), s)).
Proof.
  intros W f name.
  split; [|split; [|split; [|split; [|split; [|split]]]]].
  - intros lo L hi s s1 s2 Hm Hh. rewrite container_get_stack.
    eapply StackContainer_get_first_hit; eauto.
  - intros c0 rest s s1 Hm. rewrite container_get_stack.
    eapply StackContainer_get_fallback; eauto.
  - intros r0 rss s H. rewrite container_get_stack. cbn [map].
    rewrite (StackContainer_get_fallback _ _ _ _ _ _ s s).
    + cbn [forallb] in H. apply andb_prop in H. destruct H as [H _].
      apply negb_true_iff in H. unfold dict_mem in H. rewrite container_get_flat.
      destruct (dict_get name r0); [discriminate|reflexivity].
    + change (Container r0 :: map Container rss) with (map Container (r0 :: rss)).
      rewrite <- map_rev. apply all_miss_flat. rewrite forallb_rev. exact H.
  - intros cs s s'. rewrite container_has_stack. apply StackContainer_has_true.
  - intros cs s s'. rewrite container_has_stack. apply StackContainer_has_false.
  - intros rss s. rewrite container_has_stack. apply StackContainer_has_flat.
  - intros s. split; reflexivity.
Qed.

Lemma StackContainer_lookup_witness :
  container_get [] 3 (StackContainer ([L1] ++ L2 :: [])) "k" empty_state
  = container_get [] 2 L2 "k" empty_state /\
  container_get [] 3 (StackContainer ([] ++ L1 :: [Container []])) "k" empty_state
  = container_get [] 2 L1 "k" empty_state /\
  container_get [] 3 (StackContainer [L1; L2]) "missing" empty_state
  = container_get [] 2 L1 "missing" empty_state.
Proof.
  destruct (StackContainer_lookup [] 2 "k") as (Hhit & _).
  destruct (StackContainer_lookup [] 2 "missing") as (_ & Hfall & _).
  split; [|split].
  - apply (Hhit [L1] L2 [] empty_state empty_state empty_state).
    + simpl. constructor.
    + reflexivity.
  - apply (Hhit [] L1 [Container []] empty_state empty_state empty_state).
    + simpl. econstructor; [reflexivity|constructor].
    + reflexivity.
  - apply (Hfall L1 [L2] empty_state empty_state).
    simpl. econstructor; [reflexivity|]. econstructor; [reflexivity|constructor].
Defined.

(** ** Parameter interpolation *)

Lemma Parameter_resolve_value_S :
  forall get f v,
    Parameter_resolve_value get (S f) v =
    match v with
    | VDict d =>
        d' <- mapM (fun kv => v' <- Parameter_resolve_value get f (snd kv) ;;
                              ret (fst kv, v')) d ;;
        ret (VDict d')
    | VDictRef r =>
        d <- read_dict r ;;
        d' <- mapM (fun kv => v' <- Parameter_resolve_value get f (snd kv) ;;
                              ret (fst kv, v')) d ;;
        ret (VDict d')
    | VList l =>
        l' <- mapM (Parameter_resolve_value get f) l ;;
        ret (VList l')
    | VListRef r =>
        l <- read_list r ;;
        l' <- mapM (Parameter_resolve_value get f) (map VStr l) ;;
        ret (VList l')
    | VStr s =>
        if startswith_percent s && endswith_percent s
        then v' <- get (replace_percent s) ;; Parameter_resolve_value get f v'
        else ret v
    | _ => ret v
    end.
Proof. reflexivity. Qed.

Lemma endswith_percent_app :
  forall s, endswith_percent (s ++ "%") = true.
Proof.
  induction s as [|c s IH]; simpl.
  - reflexivity.
  - destruct (s ++ "%")%string eqn:E.
    + destruct s; discriminate.
    + exact IH.
Qed.

Lemma is_placeholder_wrap :
  forall n, is_placeholder ("%" ++ n ++ "%") = true.
Proof.
  intros n. unfold is_placeholder. simpl.
  destruct (n ++ "%")%string eqn:E.
  - destruct n; discriminate.
  - rewrite <- E. apply endswith_percent_app.
Qed.

Lemma replace_percent_app :
  forall a b, replace_percent (a ++ b) = (replace_percent a ++ replace_percent b)%string.
Proof.
  induction a as [|c a IH]; intros b; simpl.
  - reflexivity.
  - destruct (Ascii.eqb c percent); simpl; rewrite IH; reflexivity.
Qed.

Lemma string_app_empty_r : forall s : string, (s ++ "")%string = s.
Proof.
  induction s as [|c s IH]; simpl; [reflexivity | rewrite IH; reflexivity].
Qed.

Lemma replace_percent_wrap :
  forall n, replace_percent ("%" ++ n ++ "%") = replace_percent n.
Proof.
  intros n. simpl. rewrite replace_percent_app. simpl. apply string_app_empty_r.
Qed.

Lemma replace_percent_no_percent :
  forall n, no_percent n = true -> replace_percent n = n.
Proof.
  induction n as [|c n IH]; simpl; intros H.
  - reflexivity.
  - apply andb_prop in H. destruct H as [H1 H2].
    apply negb_true_iff in H1. rewrite H1. rewrite (IH H2). reflexivity.
Qed.

Lemma mapM_pure :
  forall (A B : Type) (f : A -> M B) (g : A -> result B) (l : list A) (s : state),
    (forall x, In x l -> f x s = (g x, s)) ->
    mapM f l s = (sequence_results (map g l), s).
Proof.
  induction l as [|x l IH]; intros s H; simpl.
  - reflexivity.
  - unfold bind at 1. rewrite (H x (or_introl eq_refl)).
    destruct (g x) as [b| |]; try reflexivity.
    unfold bind. rewrite IH by (intros y Hy; apply H; right; exact Hy).
    destruct (sequence_results (map g l)); reflexivity.
Qed.

Lemma sequence_results_ok :
  forall (A : Type) (l : list A), sequence_results (map Ok l) = Ok l.
Proof.
  induction l as [|x l IH]; simpl; [reflexivity | rewrite IH; reflexivity].
Qed.

Lemma depth_list_bound :
  forall x l, In x l -> depth x <= fold_right (fun x n => Nat.max (depth x) n) 0 l.
Proof.
  induction l as [|y l IH]; simpl; intros H.
  - contradiction.
  - destruct H as [->|H]; [lia|]. specialize (IH H). lia.
Qed.

Lemma depth_dict_bound :
  forall (kv : string * value) d,
    In kv d -> depth (snd kv) <= fold_right (fun kv n => Nat.max (depth (snd kv)) n) 0 d.
Proof.
  induction d as [|y d IH]; simpl; intros H.
  - contradiction.
  - destruct H as [->|H]; [lia|]. specialize (IH H). lia.
Qed.

(** Values without placeholders come back as they are, however deep. *)
Lemma Parameter_resolve_value_plain :
  forall get fuel v s,
    plain v = true -> depth v < fuel ->
    Parameter_resolve_value get fuel v s = (Ok v, s).
Proof.
  induction fuel as [|f IH]; intros v s Hp Hd; [lia|].
  rewrite Parameter_resolve_value_S.
  destruct v; try reflexivity; simpl in Hp, Hd; try discriminate.
  - unfold is_placeholder in Hp. apply negb_true_iff in Hp. rewrite Hp. reflexivity.
  - unfold bind.
    rewrite (mapM_pure _ _ (Parameter_resolve_value get f) Ok l s).
    + rewrite sequence_results_ok. reflexivity.
    + intros x Hx. apply IH.
      * rewrite forallb_forall in Hp. apply Hp. exact Hx.
      * pose proof (depth_list_bound x l Hx). lia.
  - unfold bind.
    rewrite (mapM_pure _ _ _ Ok d s).
    + rewrite sequence_results_ok. reflexivity.
    + intros [k x] Hx. unfold bind. simpl. rewrite IH.
      * reflexivity.
      * rewrite forallb_forall in Hp. apply (Hp (k, x)). exact Hx.
      * pose proof (depth_dict_bound (k, x) d Hx). simpl in *. lia.
Qed.

(** Over a registry of plain values the code computes [interpolate]. *)
Lemma Parameter_resolve_value_interpolate :
  forall env k,
    (forall n x, env n = Some x -> plain x = true /\ depth x < k) ->
    forall fuel v s,
      closed_value v = true -> depth v + k < fuel ->
      Parameter_resolve_value (env_get env) fuel v s = (interpolate env v, s).
Proof.
  intros env k Henv.
  induction fuel as [|f IH]; intros v s Hc Hd; [lia|].
  rewrite Parameter_resolve_value_S.
  destruct v; try reflexivity; simpl in Hc, Hd; try discriminate.
  - simpl. unfold is_placeholder.
    destruct (startswith_percent s0 && endswith_percent s0); [|reflexivity].
    unfold bind, env_get.
    destruct (env (replace_percent s0)) as [x|] eqn:E; [|reflexivity].
    destruct (Henv _ _ E) as [Hp Hx]. unfold ret.
    apply Parameter_resolve_value_plain; [exact Hp | lia].
  - unfold bind.
    rewrite (mapM_pure _ _ (Parameter_resolve_value (env_get env) f) (interpolate env) l s).
    + simpl. destruct (sequence_results (map (interpolate env) l)); reflexivity.
    + intros x Hx. apply IH.
      * rewrite forallb_forall in Hc. apply Hc. exact Hx.
      * pose proof (depth_list_bound x l Hx). lia.
  - unfold bind.
    rewrite (mapM_pure _ _ _
               (fun kv => match interpolate env (snd kv) with
                          | Ok v' => Ok (fst kv, v')
                          | Raise e => Raise e
                          | Stuck => Stuck
                          end) d s).
    + simpl.
      destruct (sequence_results _); reflexivity.
    + intros [key x] Hx. unfold bind. simpl. rewrite IH.
      * destruct (interpolate env x); reflexivity.
      * rewrite forallb_forall in Hc. apply (Hc (key, x)). exact Hx.
      * pose proof (depth_dict_bound (key, x) d Hx). simpl in *. lia.
Qed.

(** C3 (as stated, refuted): [%x% and %y%], in which [%x%] is embedded in a
    longer string, is not left untouched but looked up under the name
    [x and y]; and [%a%b%] is looked up under [ab], every [%] having been
    removed, not under [a%b]. *)
Lemma resolve_value_embedded_not_untouched :
  fst (ContextWrapper_get cfg_world 20 "q" cfg_started)
  = Raise (ContainerException "x and y not in container") /\
  fst (ContextWrapper_get cfg_world 20 "q" cfg_started) <> Ok (VStr "%x% and %y%") /\
  fst (ContextWrapper_get cfg_world 20 "r" cfg_started) = Ok (VInt 7) /\
  replace_percent "%a%b%" <> "a%b".
Proof.
  split; [vm_compute; reflexivity|].
  split; [vm_compute; discriminate|].
  split; [vm_compute; reflexivity|].
  vm_compute. discriminate.
Qed.

(** C3 (amended): a string is a placeholder exactly when it starts with [%]
    and ends with [%] (the one-character string [%] included); the name
    looked up is the string with every [%] removed, which for [%name%] with
    no [%] inside [name] is [name]; the value found is interpolated in turn.
    Any other string is returned untouched, as is every value that is not a
    string, a list or a dict.  Lists are interpolated element by element and
    dicts value by value, to any depth: values without placeholders come back
    unchanged, and over a registry of plain values the result is
    [interpolate].  With [x] bound to 5, the parameter
    [{a: %x%, b: [1, %x%]}] resolves to [{a: 5, b: [1, 5]}]. *)
Theorem Parameter_resolve_value_spec :
  (forall get fuel s st,
      is_placeholder s = false ->
      Parameter_resolve_value get (S fuel) (VStr s) st = (Ok (VStr s), st)) /\
  (forall get fuel s st,
      is_placeholder s = true ->
      Parameter_resolve_value get (S fuel) (VStr s) st
      = (v <- get (replace_percent s) ;; Parameter_resolve_value get fuel v) st) /\
  (forall n,
      is_placeholder ("%" ++ n ++ "%") = true /\
      replace_percent ("%" ++ n ++ "%") = replace_percent n /\
      (no_percent n = true -> replace_percent ("%" ++ n ++ "%") = n)) /\
  is_placeholder "%" = true /\
  (forall get fuel v st,
      plain v = true -> depth v < fuel ->
      Parameter_resolve_value get fuel v st = (Ok v, st)) /\
  (forall env k fuel v st,
      (forall n x, env n = Some x -> plain x = true /\ depth x < k) ->
      closed_value v = true -> depth v + k < fuel ->
      Parameter_resolve_value (env_get env) fuel v st = (interpolate env v, st)) /\
  fst (ContextWrapper_get cfg_world 20 "p" cfg_started)
  = Ok (VDict [("a", VInt 5); ("b", VList [VInt 1; VInt 5])]).
Proof.
  split; [|split; [|split; [|split; [|split; [|split]]]]].
  - intros get fuel s st H. rewrite Parameter_resolve_value_S.
    unfold is_placeholder in H. rewrite H. reflexivity.
  - intros get fuel s st H. rewrite Parameter_resolve_value_S.
    unfold is_placeholder in H. rewrite H. reflexivity.
  - intros n. split; [apply is_placeholder_wrap|].
    split; [apply replace_percent_wrap|].
    intros H. rewrite replace_percent_wrap. apply replace_percent_no_percent. exact H.
  - reflexivity.
  - intros get fuel v st. apply Parameter_resolve_value_plain.
  - intros env k fuel v st H. apply Parameter_resolve_value_interpolate. exact H.
  - vm_compute. reflexivity.
Qed.

Lemma Parameter_resolve_value_spec_witness :
  Parameter_resolve_value
    (env_get (fun n => if String.eqb n "x" then Some (VInt 5) else None)) 4
    (VDict [("a", VStr "%x%"); ("b", VList [VInt 1; VStr "%x%"]); ("c", VStr "50%")])
    empty_state
  = (Ok (VDict [("a", VInt 5); ("b", VList [VInt 1; VInt 5]); ("c", VStr "50%")]),
     empty_state).
Proof.
  destruct Parameter_resolve_value_spec as (_ & _ & _ & _ & _ & H & _).
  apply (H (fun n => if String.eqb n "x" then Some (VInt 5) else None) 1 4
           (VDict [("a", VStr "%x%"); ("b", VList [VInt 1; VStr "%x%"]); ("c", VStr "50%")])
           empty_state).
  - intros n x Hx. destruct (String.eqb n "x"); [|discriminate].
    injection Hx as <-. split; [reflexivity | simpl; lia].
  - reflexivity.
  - simpl. lia.
Defined.


(** ** Scopes only ever grow

    Every operation of the engine takes the process to an extension of it:
    no scope disappears, no dict object disappears, and every entry that a
    dict holds when the operation starts is still in it, with the same
    value, when the operation ends.  An entry written while the operation
    runs is not protected in this way. *)

Lemma ext_refl : forall s, ext s s.
Proof. intros s. constructor; auto. Qed.

Lemma ext_trans : forall s1 s2 s3, ext s1 s2 -> ext s2 s3 -> ext s1 s3.
Proof.
  intros s1 s2 s3 [A1 B1 C1] [A2 B2 C2]. constructor; eauto. lia.
Qed.

Lemma ext_same :
  forall s s', ctxs s' = ctxs s -> dicts s' = dicts s -> ext s s'.
Proof.
  intros s s' Hc Hd. constructor; unfold dict_at; rewrite ?Hc, ?Hd; auto.
Qed.

Lemma nth_error_app_some :
  forall (A : Type) (l l' : list A) i x,
    nth_error l i = Some x -> nth_error (l ++ l') i = Some x.
Proof.
  intros A l l' i x H. rewrite nth_error_app1; auto.
  apply nth_error_Some. congruence.
Qed.

Lemma mono_ret : forall (A : Type) (a : A), mono (ret a).
Proof. intros A a s r s' H. injection H as _ <-. apply ext_refl. Qed.

Lemma mono_raise : forall (A : Type) e, mono (@raise A e).
Proof. intros A e s r s' H. injection H as _ <-. apply ext_refl. Qed.

Lemma mono_stuck : forall (A : Type), mono (@stuck A).
Proof. intros A s r s' H. injection H as _ <-. apply ext_refl. Qed.

Lemma mono_gets : forall (A : Type) (f : state -> A), mono (gets f).
Proof. intros A f s r s' H. injection H as _ <-. apply ext_refl. Qed.

Lemma mono_of_option : forall (A : Type) (o : option A), mono (of_option o).
Proof. intros A [a|]; [apply mono_ret | apply mono_stuck]. Qed.

Lemma mono_bind :
  forall (A B : Type) (m : M A) (k : A -> M B),
    mono m -> (forall a, mono (k a)) -> mono (bind m k).
Proof.
  intros A B m k Hm Hk s r s' H. unfold bind in H.
  destruct (m s) as [[a|e|] s1] eqn:E.
  - eapply ext_trans; [eapply Hm; eauto | eapply Hk; eauto].
  - injection H as _ <-. eapply Hm; eauto.
  - injection H as _ <-. eapply Hm; eauto.
Qed.

Lemma mono_modify :
  forall f, (forall s, ext s (f s)) -> mono (modify f).
Proof. intros f Hf s r s' H. injection H as _ <-. apply Hf. Qed.

Lemma mono_mapM :
  forall (A B : Type) (f : A -> M B) l, (forall x, mono (f x)) -> mono (mapM f l).
Proof.
  induction l as [|x l IH]; intros Hf; simpl.
  - apply mono_ret.
  - apply mono_bind; [apply Hf|]. intros y.
    apply mono_bind; [apply IH; exact Hf|]. intros ys. apply mono_ret.
Qed.

Lemma mono_foldM :
  forall (A B : Type) (f : B -> A -> M B) l b,
    (forall b x, mono (f b x)) -> mono (foldM f l b).
Proof.
  induction l as [|x l IH]; intros b Hf; simpl.
  - apply mono_ret.
  - apply mono_bind; [apply Hf|]. intros b'. apply IH. exact Hf.
Qed.

Lemma mono_forM_ :
  forall (A : Type) (f : A -> M unit) l, (forall x, mono (f x)) -> mono (forM_ l f).
Proof.
  induction l as [|x l IH]; intros Hf; simpl.
  - apply mono_ret.
  - apply mono_bind; [apply Hf|]. intros _. apply IH. exact Hf.
Qed.

Lemma mono_filterM :
  forall (A : Type) (f : A -> M bool) l, (forall x, mono (f x)) -> mono (filterM f l).
Proof.
  induction l as [|x l IH]; intros Hf; simpl.
  - apply mono_ret.
  - apply mono_bind; [apply Hf|]. intros b.
    apply mono_bind; [apply IH; exact Hf|]. intros rest. apply mono_ret.
Qed.

Lemma mono_of_result : forall (A : Type) (r : result A), mono (of_result r).
Proof. intros A r s r' s' H. injection H as _ <-. apply ext_refl. Qed.

Lemma mono_read_list : forall r, mono (read_list r).
Proof.
  intros r. apply mono_bind; [apply mono_gets | intros; apply mono_of_option].
Qed.

Lemma mono_read_dict : forall r, mono (read_dict r).
Proof.
  intros r. apply mono_bind; [apply mono_gets | intros; apply mono_of_option].
Qed.

Lemma mono_read_obj : forall r, mono (read_obj r).
Proof.
  intros r. apply mono_bind; [apply mono_gets | intros; apply mono_of_option].
Qed.

Lemma mono_read_ctx : forall r, mono (read_ctx r).
Proof.
  intros r. apply mono_bind; [apply mono_gets | intros; apply mono_of_option].
Qed.

Lemma mono_read_app : mono read_app.
Proof.
  apply mono_bind; [apply mono_gets | intros; apply mono_of_option].
Qed.

Lemma mono_list_append : forall r x, mono (list_append r x).
Proof.
  intros r x. apply mono_bind; [apply mono_read_list|]. intros l.
  apply mono_modify. intros s. apply ext_same; reflexivity.
Qed.

Lemma mono_emit : forall e, mono (emit e).
Proof.
  intros e. apply mono_modify. intros s. apply ext_same; reflexivity.
Qed.

Lemma mono_alloc_obj : forall o, mono (alloc_obj o).
Proof.
  intros o s r s' H. unfold alloc_obj in H. munfold. injection H as _ <-.
  apply ext_same; reflexivity.
Qed.

Lemma mono_alloc_dict : forall d, mono (alloc_dict d).
Proof.
  intros d s r s' H. unfold alloc_dict in H. munfold. injection H as _ <-.
  constructor; simpl.
  - auto.
  - rewrite length_app. lia.
  - unfold dict_at. simpl. intros r0 k v Hk.
    destruct (nth_error (dicts s) r0) as [d0|] eqn:E; [|discriminate].
    rewrite (nth_error_app_some _ _ _ _ _ E). exact Hk.
Qed.

Lemma mono_alloc_ctx : forall mk, mono (alloc_ctx mk).
Proof.
  intros mk s r s' H. unfold alloc_ctx in H. munfold. injection H as _ <-.
  constructor; simpl; auto.
  intros id c Hc. apply nth_error_app_some. exact Hc.
Qed.

Lemma mono_dict_or_new : forall x, mono (dict_or_new x).
Proof.
  intros [r|]; simpl; [|apply mono_alloc_dict].
  apply mono_bind; [apply mono_read_dict|].
  intros [|kv d]; [apply mono_alloc_dict | apply mono_ret].
Qed.

Lemma dict_get_set_neq :
  forall k k' v d, k <> k' -> dict_get k (dict_set k' v d) = dict_get k d.
Proof.
  induction d as [|[k0 v0] d IH]; intros Hk; simpl.
  - destruct (String.eqb_spec k k'); [contradiction | reflexivity].
  - destruct (String.eqb_spec k' k0) as [->|Hn]; simpl.
    + destruct (String.eqb_spec k k0); [contradiction | reflexivity].
    + destruct (String.eqb_spec k k0); [reflexivity | apply IH; exact Hk].
Qed.

Lemma dict_get_set_eq :
  forall k v d, dict_get k (dict_set k v d) = Some v.
Proof.
  induction d as [|[k0 v0] d IH]; simpl.
  - rewrite String.eqb_refl. reflexivity.
  - destruct (String.eqb_spec k k0) as [->|Hn]; simpl.
    + rewrite String.eqb_refl. reflexivity.
    + destruct (String.eqb_spec k k0); [contradiction | exact IH].
Qed.

(** Setting a key that the dict does not hold yet extends the process. *)
Lemma dict_setitem_fresh :
  forall r name v s res s',
    dict_at s r name = None ->
    dict_setitem r name v s = (res, s') ->
    ext s s'.
Proof.
  intros r name v s res s' Hfresh H.
  unfold dict_setitem, read_dict in H. munfold.
  destruct (nth_error (dicts s) r) as [d|] eqn:E.
  - injection H as _ <-. constructor; simpl.
    + auto.
    + rewrite length_list_update. lia.
    + unfold dict_at in *. simpl. intros r' k v' Hk.
      destruct (Nat.eq_dec r r') as [<-|Hr].
      * rewrite E in Hk, Hfresh.
        rewrite (nth_error_list_update_eq _ _ _ _ _ E).
        rewrite dict_get_set_neq; [exact Hk|]. congruence.
      * rewrite nth_error_list_update_neq by exact Hr. exact Hk.
  - injection H as _ <-. apply ext_refl.
Qed.

(** The shape of every write of the engine: test that the key is absent,
    compute, then set it. *)
Lemma guarded_set_ext :
  forall (m : M value) r name s res s',
    mono m ->
    dict_at s r name = None ->
    (v <- m ;; dict_setitem r name v) s = (res, s') ->
    ext s s'.
Proof.
  intros m r name s res s' Hm Hfresh H. unfold bind in H.
  destruct (m s) as [[v|e|] s1] eqn:E.
  - pose proof (Hm _ _ _ E) as H1.
    unfold dict_setitem, read_dict in H. munfold.
    destruct (nth_error (dicts s1) r) as [d|] eqn:E1.
    + injection H as _ <-. destruct H1 as [A B C]. constructor; simpl.
      * auto.
      * rewrite length_list_update. lia.
      * intros r' k v' Hk. unfold dict_at. simpl.
        pose proof (C _ _ _ Hk) as Hk1. unfold dict_at in Hk1.
        destruct (Nat.eq_dec r r') as [<-|Hr].
        -- rewrite E1 in Hk1. rewrite (nth_error_list_update_eq _ _ _ _ _ E1).
           rewrite dict_get_set_neq; [exact Hk1|]. congruence.
        -- rewrite nth_error_list_update_neq by exact Hr. exact Hk1.
    + injection H as _ <-. exact H1.
  - injection H as _ <-. eapply Hm; eauto.
  - injection H as _ <-. eapply Hm; eauto.
Qed.

Lemma dict_mem_false_at :
  forall s r d name,
    nth_error (dicts s) r = Some d -> dict_mem name d = false -> dict_at s r name = None.
Proof.
  intros s r d name E H. unfold dict_at, dict_mem in *. rewrite E.
  destruct (dict_get name d); [discriminate | reflexivity].
Qed.

Lemma read_dict_ok :
  forall r s res s', read_dict r s = (res, s') ->
    s' = s /\ (forall d, res = Ok d -> nth_error (dicts s) r = Some d).
Proof.
  intros r s res s' H. unfold read_dict in H. munfold.
  destruct (nth_error (dicts s) r); injection H as <- <-; split; auto;
    intros d' Hd; congruence.
Qed.

Create HintDb mono.
#[local] Hint Resolve mono_ret mono_raise mono_stuck mono_gets mono_of_option
  mono_of_result mono_read_list mono_read_dict mono_read_obj mono_read_ctx mono_read_app
  mono_list_append mono_emit mono_alloc_obj mono_alloc_dict mono_alloc_ctx
  mono_dict_or_new : mono.

Ltac mono_step :=
  match goal with
  | |- mono (bind _ _) => apply mono_bind; [|intro]
  | |- mono (mapM _ _) => apply mono_mapM; intro
  | |- mono (foldM _ _ _) => apply mono_foldM; intros
  | |- mono (forM_ _ _) => apply mono_forM_; intro
  | |- mono (filterM _ _) => apply mono_filterM; intro
  | |- mono _ => solve [auto with mono]
  | |- mono (modify _) => apply mono_modify; intro; apply ext_same; reflexivity
  | |- mono ?m =>
      match m with
      | context [match ?x with _ => _ end] => destruct x
      end
  end.

Ltac mono_auto := repeat mono_step.

Lemma mono_Parameter_resolve_value :
  forall get, (forall n, mono (get n)) ->
  forall fuel v, mono (Parameter_resolve_value get fuel v).
Proof.
  intros get Hget. induction fuel as [|f IH]; intros v.
  - apply mono_stuck.
  - rewrite Parameter_resolve_value_S. destruct v; mono_auto.
Qed.

Lemma mono_StackContainer_walk :
  forall (C : Type) (has : C -> string -> M bool) (get : C -> string -> M value),
    (forall c n, mono (has c n)) -> (forall c n, mono (get c n)) ->
    forall layers name fallback,
      mono fallback -> mono (StackContainer_walk has get layers name fallback).
Proof.
  intros C has get Hh Hg. induction layers as [|c rest IH]; intros name fb Hfb; simpl.
  - exact Hfb.
  - mono_auto.
Qed.

Lemma mono_StackContainer_get :
  forall (C : Type) (has : C -> string -> M bool) (get : C -> string -> M value),
    (forall c n, mono (has c n)) -> (forall c n, mono (get c n)) ->
    forall cs name, mono (StackContainer_get has get cs name).
Proof.
  intros C has get Hh Hg cs name. unfold StackContainer_get.
  apply mono_StackContainer_walk; auto. destruct cs; mono_auto.
Qed.

Lemma mono_StackContainer_has :
  forall (C : Type) (has : C -> string -> M bool),
    (forall c n, mono (has c n)) ->
    forall cs name, mono (StackContainer_has has cs name).
Proof.
  intros C has Hh. induction cs as [|c rest IH]; intros name; simpl; mono_auto.
Qed.

Section EngineGrows.
Context {RE : re_module}.
Variable W : world.

Lemma mono_import_module : forall name, mono (import_module W name).
Proof. intros name. unfold import_module. mono_auto. Qed.

Lemma mono_load_class : forall path, mono (load_class W path).
Proof.
  intros path. unfold load_class.
  destruct (split_colon path) as [|a [|b [|c l]]]; mono_auto.
  apply mono_import_module.
Qed.

Lemma mono_construct : forall path kwargs, mono (construct W path kwargs).
Proof.
  intros path kwargs. unfold construct.
  apply mono_bind; [apply mono_load_class|]. intros [ci|c]; mono_auto.
Qed.

Lemma mono_create : forall fac kwargs, mono (create W fac kwargs).
Proof.
  intros fac kwargs. unfold create. destruct fac; mono_auto.
Qed.

Lemma mono_hasattr_clone : forall v, mono (hasattr_clone W v).
Proof. intros v. unfold hasattr_clone. destruct v; mono_auto. Qed.

Lemma mono_clone : forall v, mono (clone v).
Proof. intros v. unfold clone. destruct v; mono_auto. Qed.

Lemma mono_Service_resolve :
  forall get, (forall n, mono (get n)) ->
  forall fuel s, mono (Service_resolve W get fuel s).
Proof.
  intros get Hget fuel s. unfold Service_resolve.
  apply mono_bind; [apply mono_Parameter_resolve_value; exact Hget|]. intros kw.
  apply mono_bind; [destruct kw; mono_auto|]. intros kwargs.
  destruct (factory s).
  - apply mono_bind; [apply Hget|]. intros fac. apply mono_create.
  - destruct (klz s); [apply mono_construct | apply mono_raise].
Qed.

Lemma mono_resource_resolve :
  forall get find,
    (forall n, mono (get n)) -> (forall p, mono (find p)) ->
    forall fuel r, mono (resource_resolve W get find fuel r).
Proof.
  intros get find Hget Hfind fuel r. destruct r; simpl.
  - apply mono_Parameter_resolve_value. exact Hget.
  - apply mono_Service_resolve. exact Hget.
  - unfold Class_resolve. apply mono_bind; [apply mono_load_class|]. intros a. mono_auto.
  - unfold ResourceGroup_resolve. apply mono_bind; [apply Hfind|]. intros names. mono_auto.
Qed.

Lemma mono_ApplicationContainer_container : mono (ApplicationContainer_container W).
Proof.
  unfold ApplicationContainer_container.
  apply mono_bind; [apply mono_read_app|]. intros a.
  destruct (app__container a); [apply mono_ret|].
  apply mono_bind; [destruct (app_modules a); mono_auto|]. intros m.
  apply mono_bind; [destruct (app_configuration a); mono_auto|]. intros c.
  apply mono_bind; [apply mono_read_list|]. intros ms.
  apply mono_bind.
  - apply mono_foldM. intros stack module.
    apply mono_bind; [apply mono_import_module|]. intros mi.
    destruct (mod_container mi); apply mono_ret.
  - intros stack. mono_auto.
Qed.

Lemma mono_ContextWrapper_container : mono (ContextWrapper_container).
Proof.
  unfold ContextWrapper_container.
  apply mono_bind; [apply mono_gets|]. intros st.
  apply mono_bind.
  - destruct st; [apply mono_ret|]. mono_auto.
  - intros stk. apply mono_bind; [apply mono_gets|]. intros i.
    destruct (rev match i with Some l => l | None => [] end); mono_auto.
Qed.

Lemma mono_has :
  forall fuel,
    (forall self name, mono (Context_has W fuel self name)) /\
    (forall c name, mono (container_has W fuel c name)).
Proof.
  induction fuel as [|f [IHc IHk]]; split; intros; try apply mono_stuck.
  - change (mono (c <- read_ctx self ;;
                  d <- read_dict (ctx_runtime c) ;;
                  if dict_mem name d then ret true
                  else container_has W f (ctx_container c) name)).
    mono_auto.
  - destruct c.
    + apply mono_ret.
    + rewrite container_has_stack. apply mono_StackContainer_has. exact IHk.
    + change (mono (c' <- ApplicationContainer_container W ;; container_has W f c' name)).
      apply mono_bind; [apply mono_ApplicationContainer_container|]. intros c'. apply IHk.
    + apply mono_raise.
    + apply IHc.
Qed.

Lemma mono_ContextWrapper_has :
  forall fuel name, mono (ContextWrapper_has W fuel name).
Proof.
  intros fuel name. unfold ContextWrapper_has.
  apply mono_bind; [apply mono_ContextWrapper_container|]. intros id.
  apply mono_has.
Qed.

Lemma mono_resources_names :
  forall fuel cs, mono (resources_names W fuel cs).
Proof.
  induction fuel as [|f IH]; intros cs; [apply mono_stuck|].
  change (mono (foldM (fun acc c =>
                 c1 <- match c with
                       | AppRef => ApplicationContainer_container W
                       | _ => ret c
                       end ;;
                 let acc1 := match c1 with
                             | Container rs => names_union acc (map fst rs)
                             | _ => acc
                             end in
                 match c1 with
                 | StackContainer cs' =>
                     ns <- resources_names W f cs' ;;
                     ret (names_union acc1 ns)
                 | _ => ret acc1
                 end)
              cs [])).
  apply mono_foldM. intros acc c.
  apply mono_bind.
  - destruct c; try apply mono_ret. apply mono_ApplicationContainer_container.
  - intros c1. destruct c1; try apply mono_ret.
    apply mono_bind; [apply IH|]. intros ns. apply mono_ret.
Qed.

Lemma mono_ContextWrapper_find :
  forall fuel pattern, mono (ContextWrapper_find W fuel pattern).
Proof.
  intros fuel pattern. unfold ContextWrapper_find.
  apply mono_bind; [apply mono_ContextWrapper_container|]. intros id.
  apply mono_bind; [apply mono_read_ctx|]. intros c.
  apply mono_bind.
  - destruct (ctx_container c); try apply mono_raise. apply mono_resources_names.
  - intros names. mono_auto.
Qed.
End EngineGrows.

Lemma ContextWrapper_get_S {RE : re_module} :
  forall W f name,
    ContextWrapper_get W (S f) name
    = (id <- ContextWrapper_container ;; Context_get W f id name).
Proof. reflexivity. Qed.

Lemma Context_get_S {RE : re_module} :
  forall W f self name,
    Context_get W (S f) self name
    = (c <- read_ctx self ;;
       d <- read_dict (ctx_runtime c) ;;
       (if dict_mem name d then ret tt
        else v <- container_get W f (ctx_container c) name ;;
             dict_setitem (ctx_runtime c) name v) ;;;
       d' <- read_dict (ctx_runtime c) ;;
       ret (match dict_get name d' with Some v => v | None => VNone end)).
Proof. reflexivity. Qed.

Lemma container_get_app {RE : re_module} :
  forall W f name,
    container_get W (S f) AppRef name
    = (c' <- ApplicationContainer_container W ;; container_get W f c' name).
Proof. reflexivity. Qed.

Lemma container_get_ctx {RE : re_module} :
  forall W f id name,
    container_get W (S f) (CtxRef id) name = Context_get W f id name.
Proof. reflexivity. Qed.

Lemma container_get_none {RE : re_module} :
  forall W f name,
    container_get W (S f) NoneRef name = raise (AttributeError "get").
Proof. reflexivity. Qed.

(** The body of [Context.get]: the write is guarded by the test. *)
Lemma mono_cache_fill :
  forall (B : Type) (m : M value) (rt : nat) (name : string) (k : M B),
    mono m -> mono k ->
    mono (d <- read_dict rt ;;
          (if dict_mem name d then ret tt
           else v <- m ;; dict_setitem rt name v) ;;;
          k).
Proof.
  intros B m rt name k Hm Hk s r s' H.
  unfold bind at 1 in H.
  destruct (read_dict rt s) as [[d|e|] s0] eqn:E;
    destruct (read_dict_ok _ _ _ _ E) as [-> Hd].
  - specialize (Hd d eq_refl).
    destruct (dict_mem name d) eqn:Em.
    + unfold bind, ret in H. eapply Hk; eauto.
    + unfold bind at 1 in H.
      destruct ((v <- m;; dict_setitem rt name v) s) as [[u|e|] s1] eqn:E1;
        pose proof (guarded_set_ext m rt name s _ _ Hm
                      (dict_mem_false_at s rt d name Hd Em) E1) as Hext.
      * eapply ext_trans; [exact Hext | eapply Hk; eauto].
      * injection H as _ <-. exact Hext.
      * injection H as _ <-. exact Hext.
  - injection H as _ <-. apply ext_refl.
  - injection H as _ <-. apply ext_refl.
Qed.

Lemma mono_get {RE : re_module} :
  forall W fuel,
    (forall name, mono (ContextWrapper_get W fuel name)) /\
    (forall self name, mono (Context_get W fuel self name)) /\
    (forall c name, mono (container_get W fuel c name)).
Proof.
  intros W. induction fuel as [|f (IHw & IHc & IHk)].
  - split; [|split]; intros; apply mono_stuck.
  - split; [|split].
    + intros name. rewrite ContextWrapper_get_S.
      apply mono_bind; [apply mono_ContextWrapper_container|]. intros id. apply IHc.
    + intros self name. rewrite Context_get_S.
      apply mono_bind; [apply mono_read_ctx|]. intros c.
      apply mono_cache_fill; [apply IHk|]. mono_auto.
    + intros c name. destruct c.
      * rewrite container_get_flat. destruct (dict_get name resources).
        -- apply mono_resource_resolve; [exact IHw|].
           intros p. apply mono_ContextWrapper_find.
        -- apply mono_raise.
      * rewrite container_get_stack. apply mono_StackContainer_get; [|exact IHk].
        intros c n. apply mono_has.
      * rewrite container_get_app.
        apply mono_bind; [apply mono_ApplicationContainer_container|]. intros c'. apply IHk.
      * rewrite container_get_none. apply mono_raise.
      * rewrite container_get_ctx. apply IHc.
Qed.

Lemma mono_ContextWrapper_get {RE : re_module} :
  forall W fuel name, mono (ContextWrapper_get W fuel name).
Proof. intros W fuel. apply (mono_get W fuel). Qed.

Lemma mono_Context_get {RE : re_module} :
  forall W fuel self name, mono (Context_get W fuel self name).
Proof. intros W fuel. apply (mono_get W fuel). Qed.

Lemma mono_container_get {RE : re_module} :
  forall W fuel c name, mono (container_get W fuel c name).
Proof. intros W fuel. apply (mono_get W fuel). Qed.

Lemma mono_Context_has :
  forall W fuel self name, mono (Context_has W fuel self name).
Proof. intros W fuel. apply (mono_has W fuel). Qed.

Lemma mono_Context_init : forall c runtime, mono (Context_init c runtime).
Proof. intros c runtime. unfold Context_init. mono_auto. Qed.

Lemma mono_Context_enter : forall self, mono (Context_enter self).
Proof. intros self. unfold Context_enter. mono_auto. Qed.

Lemma mono_Context_exit : forall self, mono (Context_exit self).
Proof. intros self. unfold Context_exit. mono_auto. Qed.

Lemma mono_ApplicationContainer_call :
  forall m c, mono (ApplicationContainer_call m c).
Proof.
  intros m c.
  unfold ApplicationContainer_call, ApplicationContainer_new, ApplicationContainer_init.
  mono_auto.
Qed.

(** One turn of the loop of [Context.new_from]. *)
Lemma mono_new_from_item :
  forall W rt (item : string * value), mono (new_from_item W rt item).
Proof.
  intros W rt item s r s' H. unfold new_from_item in H.
  unfold bind at 1 in H.
  destruct (read_dict rt s) as [[d|e|] s0] eqn:E;
    destruct (read_dict_ok _ _ _ _ E) as [-> Hd].
  - specialize (Hd d eq_refl).
    destruct (dict_mem (fst item) d) eqn:Em; simpl in H.
    + injection H as _ <-. apply ext_refl.
    + unfold bind at 1 in H.
      destruct (hasattr_clone W (snd item) s) as [[b|e|] s1] eqn:Eh.
      * assert (s1 = s) as ->.
        { unfold hasattr_clone in Eh. destruct (snd item); munfold;
            try (injection Eh as _ <-; reflexivity).
          unfold read_obj in Eh. munfold.
          destruct (nth_error (objs s) id); injection Eh as _ <-; reflexivity. }
        destruct b.
        -- eapply (guarded_set_ext (clone (snd item))); eauto.
           ++ apply mono_clone.
           ++ eapply dict_mem_false_at; eauto.
        -- injection H as _ <-. apply ext_refl.
      * injection H as _ <-. eapply mono_hasattr_clone; eauto.
      * injection H as _ <-. eapply mono_hasattr_clone; eauto.
  - injection H as _ <-. apply ext_refl.
  - injection H as _ <-. apply ext_refl.
Qed.

Lemma mono_Context_new_from :
  forall W context runtime container,
    mono (Context_new_from W context runtime container).
Proof.
  intros W context runtime container. unfold Context_new_from.
  apply mono_bind; [apply mono_read_ctx|]. intros parent.
  apply mono_bind; [apply mono_dict_or_new|]. intros rt.
  apply mono_bind; [apply mono_read_dict|]. intros items.
  apply mono_bind.
  - apply mono_forM_. intros item. apply mono_new_from_item.
  - intros _. apply mono_Context_init.
Qed.

Lemma ext_exec_op {RE : re_module} : forall W o s, ext s (exec_op W o s).
Proof.
  intros W o s. destruct o; simpl.
  - destruct (Context_get W fuel self name s) as [r s0] eqn:E.
    exact (mono_Context_get W fuel self name s r s0 E).
  - destruct (Context_has W fuel self name s) as [r s0] eqn:E.
    exact (mono_Context_has W fuel self name s r s0 E).
  - destruct (ContextWrapper_get W fuel name s) as [r s0] eqn:E.
    exact (mono_ContextWrapper_get W fuel name s r s0 E).
  - destruct (ContextWrapper_has W fuel name s) as [r s0] eqn:E.
    exact (mono_ContextWrapper_has W fuel name s r s0 E).
  - destruct (ContextWrapper_find W fuel pattern s) as [r s0] eqn:E.
    exact (mono_ContextWrapper_find W fuel pattern s r s0 E).
  - destruct (Context_enter self s) as [r s0] eqn:E.
    exact (mono_Context_enter self s r s0 E).
  - destruct (Context_exit self s) as [r s0] eqn:E.
    exact (mono_Context_exit self s r s0 E).
  - destruct (Context_init c runtime s) as [r s0] eqn:E.
    exact (mono_Context_init c runtime s r s0 E).
  - destruct (Context_new_from W context runtime container0 s) as [r s0] eqn:E.
    exact (mono_Context_new_from W context runtime container0 s r s0 E).
  - destruct (ApplicationContainer_call modules configuration s) as [r s0] eqn:E.
    exact (mono_ApplicationContainer_call modules configuration s r s0 E).
  - apply (mono_alloc_dict d s (Ok (List.length (dicts s)))). reflexivity.
Qed.

Lemma ext_exec_ops {RE : re_module} : forall W ops s, ext s (exec_ops W ops s).
Proof.
  intros W. induction ops as [|o ops IH]; intros s; simpl.
  - apply ext_refl.
  - eapply ext_trans; [apply ext_exec_op | apply IH].
Qed.

(** ** The cache of a scope *)

Lemma dict_mem_get :
  forall (A : Type) k (d : list (string * A)) v, dict_get k d = Some v -> dict_mem k d = true.
Proof. intros A k d v H. unfold dict_mem. rewrite H. reflexivity. Qed.

(** A name that is in the cache is answered from it, and nothing moves. *)
Lemma Context_get_hit {RE : re_module} :
  forall W f self name s c v,
    nth_error (ctxs s) self = Some c ->
    dict_at s (ctx_runtime c) name = Some v ->
    Context_get W (S f) self name s = (Ok v, s).
Proof.
  intros W f self name s c v Hc Hv. rewrite Context_get_S.
  unfold dict_at in Hv.
  destruct (nth_error (dicts s) (ctx_runtime c)) as [d|] eqn:Ed; [|discriminate].
  unfold read_ctx, read_dict. munfold. rewrite Hc. simpl. rewrite Ed. simpl.
  rewrite (dict_mem_get _ _ _ _ Hv). simpl. rewrite Ed. simpl. rewrite Hv. reflexivity.
Qed.

(** After a successful [get] the name is in the cache with the value
    returned. *)
Lemma Context_get_caches {RE : re_module} :
  forall W fuel self name s v s1,
    Context_get W fuel self name s = (Ok v, s1) ->
    exists c, nth_error (ctxs s1) self = Some c /\
              dict_at s1 (ctx_runtime c) name = Some v.
Proof.
  intros W [|f] self name s v s1 H; [discriminate|].
  rewrite Context_get_S in H.
  unfold bind at 1 in H. unfold read_ctx in H. munfold.
  destruct (nth_error (ctxs s) self) as [c|] eqn:Hc; [|discriminate].
  exists c. unfold read_dict in H. munfold.
  destruct (nth_error (dicts s) (ctx_runtime c)) as [d|] eqn:Ed; [|discriminate].
  munfold. simpl in H.
  destruct (dict_mem name d) eqn:Em.
  - rewrite Ed in H. simpl in H. unfold dict_mem in Em.
    destruct (dict_get name d) as [v0|] eqn:Eg; [|discriminate].
    injection H as <- <-. split; [exact Hc|].
    unfold dict_at. rewrite Ed. exact Eg.
  - destruct (container_get W f (ctx_container c) name s) as [[v0|e|] s0] eqn:Eg;
      try discriminate.
    pose proof (mono_container_get W f _ _ _ _ _ Eg) as Hext.
    unfold dict_setitem, read_dict in H. munfold. simpl in H.
    destruct (nth_error (dicts s0) (ctx_runtime c)) as [d0|] eqn:Ed0; [|discriminate].
    simpl in H. rewrite (nth_error_list_update_eq _ _ _ _ _ Ed0) in H. simpl in H.
    rewrite dict_get_set_eq in H. injection H as <- <-. simpl. split.
    + apply (ext_ctxs _ _ Hext). exact Hc.
    + unfold dict_at. simpl. rewrite (nth_error_list_update_eq _ _ _ _ _ Ed0).
      apply dict_get_set_eq.
Qed.

(** What one [get] does: on a name that the cache holds, nothing; on a name
    that it does not hold, one lookup in the registry of the scope, whose
    result it stores under the name. *)
Lemma Context_get_once {RE : re_module} :
  forall W fuel self name s v s1,
    Context_get W fuel self name s = (Ok v, s1) ->
    exists f c,
      fuel = S f /\ nth_error (ctxs s) self = Some c /\
      match dict_at s (ctx_runtime c) name with
      | Some w => v = w /\ s1 = s
      | None =>
          exists s0 d0,
            container_get W f (ctx_container c) name s = (Ok v, s0) /\
            nth_error (dicts s0) (ctx_runtime c) = Some d0 /\
            s1 = set_dicts (list_update (ctx_runtime c) (dict_set name v d0) (dicts s0)) s0
      end.
Proof.
  intros W [|f] self name s v s1 H; [discriminate|].
  rewrite Context_get_S in H.
  unfold bind at 1 in H. unfold read_ctx in H. munfold.
  destruct (nth_error (ctxs s) self) as [c|] eqn:Hc; [|discriminate].
  exists f, c. split; [reflexivity|]. split; [reflexivity|].
  unfold read_dict in H. munfold. unfold dict_at.
  destruct (nth_error (dicts s) (ctx_runtime c)) as [d|] eqn:Ed; [|discriminate].
  munfold. simpl in H. unfold dict_mem in H.
  destruct (dict_get name d) as [w|] eqn:Eg.
  - rewrite Ed in H. simpl in H. rewrite Eg in H. injection H as <- <-. auto.
  - destruct (container_get W f (ctx_container c) name s) as [[v0|e|] s0] eqn:Ek;
      try discriminate.
    unfold dict_setitem, read_dict in H. munfold. simpl in H.
    destruct (nth_error (dicts s0) (ctx_runtime c)) as [d0|] eqn:Ed0; [|discriminate].
    simpl in H. rewrite (nth_error_list_update_eq _ _ _ _ _ Ed0) in H. simpl in H.
    rewrite dict_get_set_eq in H. injection H as <- <-.
    exists s0, d0. auto.
Qed.




(** Two successive [get]s of a service on one scope: one construction. *)
Example Context_get_twice_constructs_once :
  let s1 := snd (Context_get myapp_world 20 0 "app.command.build" myapp_scoped) in
  let s2 := snd (Context_get myapp_world 20 0 "app.command.build" s1) in
  trace s2 = [EvConstruct "myapp:Build" []] /\ objs s2 = [mkObj "myapp:Build" []].
Proof. vm_compute. split; reflexivity. Qed.

(** ** Deriving a scope *)

Lemma hasattr_clone_state :
  forall W v t r t', hasattr_clone W v t = (r, t') -> t' = t.
Proof.
  intros W v t r t' H. unfold hasattr_clone in H.
  destruct v; munfold; try (injection H as _ <-; reflexivity).
  unfold read_obj in H. munfold.
  destruct (nth_error (objs t) id); injection H as _ <-; reflexivity.
Qed.

(** Whether a value can be cloned does not change when instances are added. *)
Lemma hasattr_clone_stable :
  forall W v t b t' extra,
    hasattr_clone W v t = (Ok b, t) ->
    objs t' = objs t ++ extra ->
    hasattr_clone W v t' = (Ok b, t').
Proof.
  intros W v t b t' extra H Hobjs. unfold hasattr_clone in *.
  destruct v; munfold; try (injection H as <-; reflexivity).
  unfold read_obj in *. munfold. rewrite Hobjs.
  destruct (nth_error (objs t) id) as [o|] eqn:E; [|discriminate].
  rewrite (nth_error_app_some _ _ _ _ _ E). injection H as <-. reflexivity.
Qed.

Lemma clone_spec :
  forall v t v' tc,
    clone v t = (Ok v', tc) ->
    exists i o,
      v = VObj i /\ nth_error (objs t) i = Some o /\
      v' = VObj (List.length (objs t)) /\
      tc = set_objs (objs t ++ [o]) (set_trace (trace t ++ [EvClone v]) t).
Proof.
  intros v t v' tc H. unfold clone in H.
  destruct v; try discriminate.
  unfold read_obj, emit, alloc_obj in H. munfold.
  destruct (nth_error (objs t) id) as [o|] eqn:E; [|discriminate].
  simpl in H. injection H as <- <-. exists id, o. auto.
Qed.

Lemma new_from_item_spec :
  forall W rt item t d0 t1,
    nth_error (dicts t) rt = Some d0 ->
    new_from_item W rt item t = (Ok tt, t1) ->
    (t1 = t /\
     (dict_mem (fst item) d0 = true \/ hasattr_clone W (snd item) t = (Ok false, t)))
    \/
    (dict_mem (fst item) d0 = false /\
     exists i o,
       snd item = VObj i /\ nth_error (objs t) i = Some o /\
       hasattr_clone W (snd item) t = (Ok true, t) /\
       t1 = set_dicts
              (list_update rt (dict_set (fst item) (VObj (List.length (objs t))) d0)
                           (dicts t))
              (set_objs (objs t ++ [o])
                        (set_trace (trace t ++ [EvClone (snd item)]) t))).
Proof.
  intros W rt item t d0 t1 Hd H. unfold new_from_item in H.
  unfold bind at 1 in H. unfold read_dict at 1 in H. munfold.
  rewrite Hd in H. simpl in H.
  destruct (dict_mem (fst item) d0) eqn:Em; simpl in H.
  - injection H as <-. left. auto.
  - destruct (hasattr_clone W (snd item) t) as [[b|e|] t0] eqn:Eh; try discriminate.
    pose proof (hasattr_clone_state _ _ _ _ _ Eh) as ->.
    destruct b.
    + right. split; [reflexivity|].
      destruct (clone (snd item) t) as [[v'|e|] tc] eqn:Ec; try discriminate.
      destruct (clone_spec _ _ _ _ Ec) as (i & o & Hv & Ho & -> & ->).
      exists i, o. repeat split; auto.
      unfold dict_setitem, read_dict in H. munfold. simpl in H.
      rewrite Hd in H. simpl in H. injection H as <-. reflexivity.
    + injection H as <-. left. auto.
Qed.

Lemma dict_get_notin :
  forall (A : Type) k (l : list (string * A)), ~ In k (map fst l) -> dict_get k l = None.
Proof.
  induction l as [|[k0 v0] l IH]; simpl; intros H.
  - reflexivity.
  - destruct (String.eqb_spec k k0) as [->|Hn].
    + exfalso. apply H. left. reflexivity.
    + apply IH. intros Hin. apply H. right. exact Hin.
Qed.

Lemma dict_get_in :
  forall (A : Type) k (v : A) (l : list (string * A)),
    In (k, v) l -> dict_mem k l = true.
Proof.
  induction l as [|[k0 v0] l IH]; simpl; intros H.
  - contradiction.
  - unfold dict_mem in *. simpl.
    destruct (String.eqb_spec k k0); [reflexivity|].
    destruct H as [H|H]; [congruence | apply IH; exact H].
Qed.

Lemma dict_mem_false_get :
  forall (A : Type) k (d : list (string * A)), dict_mem k d = false -> dict_get k d = None.
Proof.
  intros A k d H. unfold dict_mem in H. destruct (dict_get k d); [discriminate|reflexivity].
Qed.

Lemma hasattr_obj_valid :
  forall W i t b, hasattr_clone W (VObj i) t = (Ok b, t) ->
                  exists o, nth_error (objs t) i = Some o.
Proof.
  intros W i t b H. unfold hasattr_clone, read_obj in H. munfold.
  destruct (nth_error (objs t) i) as [o|]; [eauto | discriminate].
Qed.

(** What the loop of [Context.new_from] has done when it ends: [d0] is the
    dict [rt] before the loop, [d1] after it, [extra] the clones made. *)
Lemma new_from_loop :
  forall W rt l t t' d0,
    NoDup (map fst l) ->
    nth_error (dicts t) rt = Some d0 ->
    forM_ l (new_from_item W rt) t = (Ok tt, t') ->
    exists d1 extra,
      nth_error (dicts t') rt = Some d1 /\
      (forall r, r <> rt -> nth_error (dicts t') r = nth_error (dicts t) r) /\
      List.length (dicts t') = List.length (dicts t) /\
      ctxs t' = ctxs t /\
      objs t' = objs t ++ extra /\
      (forall name v, dict_get name d0 = Some v -> dict_get name d1 = Some v) /\
      (forall name v,
          dict_get name d0 = None -> dict_get name l = Some v ->
          hasattr_clone W v t = (Ok true, t) ->
          exists i j,
            v = VObj i /\ dict_get name d1 = Some (VObj j) /\
            List.length (objs t) <= j /\ i < List.length (objs t) /\
            nth_error (objs t') j = nth_error (objs t) i) /\
      (forall name v,
          dict_get name d0 = None -> dict_get name l = Some v ->
          hasattr_clone W v t = (Ok false, t) ->
          dict_get name d1 = None) /\
      (forall name,
          dict_get name d0 = None -> dict_get name l = None ->
          dict_get name d1 = None).
Proof.
  intros W rt. induction l as [|[k0 v0] l IH]; intros t t' d0 Hnd Hd H.
  - simpl in H. injection H as <-. exists d0, [].
    rewrite app_nil_r. repeat split; auto; intros; simpl in *; discriminate.
  - simpl in H. unfold bind in H.
    destruct (new_from_item W rt (k0, v0) t) as [[[]|e|] t1] eqn:E1; try discriminate.
    inversion Hnd as [|? ? Hk0 Hnd']; subst.
    pose proof (dict_get_notin _ _ _ Hk0) as Hk0l.
    destruct (new_from_item_spec _ _ _ _ _ _ Hd E1)
      as [[-> Hskip] | [Hm (i0 & o & Hv0 & Ho & Hh & ->)]]; simpl in *.
    + (* nothing written for this entry *)
      destruct (IH _ _ _ Hnd' Hd H)
        as (d1 & extra & A1 & A2 & A3 & A4 & A5 & A6 & A7 & A8 & A9).
      exists d1, extra. repeat split; auto.
      * intros name v Hn Hl Hc.
        destruct (String.eqb_spec name k0) as [->|Hne].
        -- injection Hl as <-. exfalso. destruct Hskip as [Hs|Hs].
           ++ unfold dict_mem in Hs. rewrite Hn in Hs. discriminate.
           ++ rewrite Hs in Hc. discriminate.
        -- eapply A7; eauto.
      * intros name v Hn Hl Hc.
        destruct (String.eqb_spec name k0) as [->|Hne].
        -- apply A9; auto.
        -- eapply A8; eauto.
      * intros name Hn Hl.
        destruct (String.eqb_spec name k0) as [->|Hne]; [discriminate|].
        apply A9; auto.
    + (* a clone was stored under [k0] *)
      subst v0.
      set (j0 := List.length (objs t)) in *.
      set (t1 := set_dicts (list_update rt (dict_set k0 (VObj j0) d0) (dicts t))
                   (set_objs (objs t ++ [o])
                      (set_trace (trace t ++ [EvClone (VObj i0)]) t))) in *.
      assert (Hd1 : nth_error (dicts t1) rt = Some (dict_set k0 (VObj j0) d0)).
      { simpl. eapply nth_error_list_update_eq; eauto. }
      destruct (IH _ _ _ Hnd' Hd1 H)
        as (d1 & extra & A1 & A2 & A3 & A4 & A5 & A6 & A7 & A8 & A9).
      simpl in A2, A3, A4, A5.
      pose proof (dict_mem_false_get _ _ _ Hm) as Hk0d.
      exists d1, (o :: extra).
      split; [exact A1|]. split; [|split; [|split; [|split; [|split; [|split; [|split]]]]]].
      * intros r Hr. rewrite A2 by exact Hr.
        apply nth_error_list_update_neq. congruence.
      * rewrite A3. apply length_list_update.
      * exact A4.
      * rewrite A5. rewrite <- app_assoc. reflexivity.
      * intros name v Hn. apply A6. rewrite dict_get_set_neq; [exact Hn|].
        congruence.
      * intros name v Hn Hl Hc.
        destruct (String.eqb_spec name k0) as [->|Hne].
        -- injection Hl as <-. exists i0, j0.
           split; [reflexivity|]. split; [apply A6; apply dict_get_set_eq|].
           split; [lia|]. split; [apply nth_error_Some; congruence|].
           rewrite A5. rewrite nth_error_app1 by (rewrite length_app; simpl; lia).
           rewrite nth_error_app2 by lia. unfold j0. rewrite Nat.sub_diag. simpl.
           symmetry. exact Ho.
        -- assert (Hc1 : hasattr_clone W v t1 = (Ok true, t1)).
           { eapply hasattr_clone_stable; [exact Hc | reflexivity]. }
           assert (Hn1 : dict_get name (dict_set k0 (VObj j0) d0) = None).
           { rewrite dict_get_set_neq; auto. }
           destruct (A7 name v Hn1 Hl Hc1) as (i & j & -> & B1 & B2 & B3 & B4).
           destruct (hasattr_obj_valid _ _ _ _ Hc) as [oi Hoi].
           exists i, j. split; [reflexivity|]. split; [exact B1|].
           simpl in B2, B4. rewrite length_app in B2. simpl in B2.
           split; [lia|]. split; [apply nth_error_Some; congruence|].
           rewrite B4. apply nth_error_app1. apply nth_error_Some. congruence.
      * intros name v Hn Hl Hc.
        destruct (String.eqb_spec name k0) as [->|Hne].
        -- injection Hl as <-. rewrite Hh in Hc. discriminate.
        -- apply (A8 name v).
           ++ rewrite dict_get_set_neq; auto.
           ++ exact Hl.
           ++ eapply hasattr_clone_stable; [exact Hc | reflexivity].
      * intros name Hn Hl.
        destruct (String.eqb_spec name k0) as [->|Hne]; [discriminate|].
        apply A9; [|exact Hl]. rewrite dict_get_set_neq; auto.
Qed.

(** When every entry is already in the target dict the loop does nothing. *)
Lemma new_from_loop_all_present :
  forall W rt l t t' d0,
    nth_error (dicts t) rt = Some d0 ->
    (forall kv, In kv l -> dict_mem (fst kv) d0 = true) ->
    forM_ l (new_from_item W rt) t = (Ok tt, t') ->
    t' = t.
Proof.
  intros W rt. induction l as [|kv l IH]; intros t t' d0 Hd Hall H; simpl in H.
  - injection H as <-. reflexivity.
  - unfold bind in H.
    destruct (new_from_item W rt kv t) as [[[]|e|] t1] eqn:E1; try discriminate.
    destruct (new_from_item_spec _ _ _ _ _ _ Hd E1) as [[-> _] | [Hm _]].
    + eapply IH; eauto. intros kv' Hin. apply Hall. right. exact Hin.
    + rewrite Hall in Hm by (left; reflexivity). discriminate.
Qed.

Lemma dict_or_new_spec :
  forall x s rt sA,
    dict_or_new x s = (Ok rt, sA) ->
    ctxs sA = ctxs s /\ objs sA = objs s /\
    nth_error (dicts sA) rt = Some (dict_arg x s) /\
    (forall r d, nth_error (dicts s) r = Some d -> nth_error (dicts sA) r = Some d).
Proof.
  intros x s rt sA H. unfold dict_or_new, dict_arg in *.
  assert (Halloc : forall rt' s1,
             alloc_dict [] s = (Ok rt', s1) ->
             ctxs s1 = ctxs s /\ objs s1 = objs s /\
             nth_error (dicts s1) rt' = Some [] /\
             (forall r d, nth_error (dicts s) r = Some d -> nth_error (dicts s1) r = Some d)).
  { intros rt' s1 Ha. unfold alloc_dict in Ha. munfold. injection Ha as <- <-. simpl.
    repeat split; auto.
    - rewrite nth_error_app2 by lia. rewrite Nat.sub_diag. reflexivity.
    - intros r d Hr. apply nth_error_app_some. exact Hr. }
  destruct x as [r|]; [|apply Halloc; exact H].
  unfold bind, read_dict in H. munfold.
  destruct (nth_error (dicts s) r) as [d|] eqn:E; [|discriminate].
  simpl in H. destruct d as [|kv d].
  - apply Halloc. exact H.
  - injection H as <- <-. rewrite E. auto.
Qed.

(** On a layered registry [Context.__init__] takes the first overload. *)
Lemma Context_init_stack :
  forall cs runtime,
    Context_init (StackContainer cs) runtime
    = (rt <- dict_or_new runtime ;;
       alloc_ctx (fun _ => mkContext (StackContainer cs) rt)).
Proof. reflexivity. Qed.

(** C6: the scope derived from [context], whose cache [items] is a dict and
    so holds each name once, is a new scope over the parent's registry (and
    the extra registry, if any).  Its cache holds every entry of
    the overrides; for an entry of the parent's cache whose name is not in the
    overrides it holds a clone when the value has [clone] (a new instance,
    stored apart from the parent's, so that writing to it leaves the parent's
    instance as it was) and nothing when it has not; and it holds nothing
    else.  The parent scope, the parent's cache and every instance that
    existed are left as they were. *)
Theorem Context_new_from_spec :
  forall W context runtime container s child s' parent items,
    Context_new_from W context runtime container s = (Ok child, s') ->
    nth_error (ctxs s) context = Some parent ->
    nth_error (dicts s) (ctx_runtime parent) = Some items ->
    NoDup (map fst items) ->
    exists c,
      child = List.length (ctxs s) /\
      nth_error (ctxs s') child = Some c /\
      ctx_container c
      = StackContainer (ctx_container parent
                          :: match container with Some x => [x] | None => [] end) /\
      (forall name v,
          dict_get name (dict_arg runtime s) = Some v ->
          dict_at s' (ctx_runtime c) name = Some v) /\
      (forall name v,
          dict_get name (dict_arg runtime s) = None ->
          dict_get name items = Some v ->
          hasattr_clone W v s = (Ok true, s) ->
          exists i j,
            v = VObj i /\ dict_at s' (ctx_runtime c) name = Some (VObj j) /\
            i < j /\ List.length (objs s) <= j /\
            nth_error (objs s') j = nth_error (objs s) i /\
            forall o', nth_error (list_update j o' (objs s')) i = nth_error (objs s) i) /\
      (forall name v,
          dict_get name (dict_arg runtime s) = None ->
          dict_get name items = Some v ->
          hasattr_clone W v s = (Ok false, s) ->
          dict_at s' (ctx_runtime c) name = None) /\
      (forall name,
          dict_get name (dict_arg runtime s) = None ->
          dict_get name items = None ->
          dict_at s' (ctx_runtime c) name = None) /\
      nth_error (ctxs s') context = Some parent /\
      nth_error (dicts s') (ctx_runtime parent) = Some items /\
      (forall i o, nth_error (objs s) i = Some o -> nth_error (objs s') i = Some o).
Proof.
  intros W context runtime container s child s' parent items H Hp Hi Hnd.
  unfold Context_new_from in H.
  unfold bind at 1 in H. unfold read_ctx in H. munfold. rewrite Hp in H. simpl in H.
  destruct (dict_or_new runtime s) as [[rt|e|] sA] eqn:EA; try discriminate.
  destruct (dict_or_new_spec _ _ _ _ EA) as (A1 & A2 & A3 & A4).
  pose proof (A4 _ _ Hi) as HiA.
  unfold read_dict in H. munfold. rewrite HiA in H. simpl in H.
  destruct (forM_ items (new_from_item W rt) sA) as [[[]|e|] sB] eqn:EB; try discriminate.
  destruct (new_from_loop _ _ _ _ _ _ Hnd A3 EB)
    as (d1 & extra & B1 & B2 & B3 & B4 & B5 & B6 & B7 & B8 & B9).
  set (C := match container with
            | Some c => StackContainer [ctx_container parent; c]
            | None => StackContainer [ctx_container parent]
            end) in *.
  assert (HC : C = StackContainer (ctx_container parent
                                     :: match container with Some x => [x] | None => [] end)).
  { unfold C. destruct container; reflexivity. }
  rewrite HC in H. rewrite Context_init_stack in H. unfold bind in H.
  destruct (dict_or_new (Some rt) sB) as [[crt|e|] sC] eqn:EC; try discriminate.
  destruct (dict_or_new_spec _ _ _ _ EC) as (C1 & C2 & C3 & C4).
  unfold dict_arg in C3. rewrite B1 in C3.
  unfold alloc_ctx in H. munfold. simpl in H.
  injection H as <- <-.
  assert (Hat : forall name, dict_at (set_ctxs (ctxs sC ++ [mkContext
                   (StackContainer (ctx_container parent
                      :: match container with Some x => [x] | None => [] end)) crt]) sC)
                   crt name = dict_get name d1).
  { intros name. unfold dict_at. simpl. rewrite C3. reflexivity. }
  assert (Hobjs : objs sC = objs s ++ extra).
  { rewrite C2, B5, A2. reflexivity. }
  assert (Hctxs : ctxs sC = ctxs s).
  { rewrite C1, B4, A1. reflexivity. }
  assert (Hstable : forall v b, hasattr_clone W v s = (Ok b, s) ->
                                hasattr_clone W v sA = (Ok b, sA)).
  { intros v b Hv. eapply hasattr_clone_stable; [exact Hv|].
    rewrite A2. symmetry. apply app_nil_r. }
  eexists. split; [rewrite Hctxs; reflexivity|].
  split; [simpl; rewrite nth_error_app2 by lia; rewrite Nat.sub_diag; reflexivity|].
  split; [reflexivity|]. simpl ctx_runtime.
  split; [|split; [|split; [|split; [|split; [|split]]]]].
  - intros name v Hn. rewrite Hat. apply B6. exact Hn.
  - intros name v Hn Hl Hc.
    destruct (B7 name v Hn Hl (Hstable _ _ Hc)) as (i & j & -> & D1 & D2 & D3 & D4).
    rewrite A2 in D2, D3, D4.
    exists i, j. split; [reflexivity|]. split; [rewrite Hat; exact D1|].
    split; [lia|]. split; [exact D2|]. simpl objs. rewrite C2.
    split; [exact D4|].
    intros o'. rewrite nth_error_list_update_neq by lia.
    rewrite B5, A2. apply nth_error_app1. exact D3.
  - intros name v Hn Hl Hc. rewrite Hat. eapply B8; eauto.
  - intros name Hn Hl. rewrite Hat. apply B9; auto.
  - simpl. rewrite Hctxs. apply nth_error_app_some. exact Hp.
  - simpl. apply C4.
    destruct (Nat.eq_dec (ctx_runtime parent) rt) as [Heq|Hne].
    + assert (sB = sA) as ->.
      { eapply new_from_loop_all_present; [exact A3 | | exact EB].
        intros [k v] Hin. simpl. rewrite Heq in HiA. rewrite A3 in HiA.
        injection HiA as ->. eapply dict_get_in; eauto. }
      exact HiA.
    + rewrite B2 by exact Hne. exact HiA.
  - intros i o Ho. simpl. rewrite Hobjs. apply nth_error_app_some. exact Ho.
Qed.

Lemma Context_new_from_spec_witness :
  exists c,
    nth_error (ctxs (snd (Context_new_from myapp_world 0 (Some 2) None derive_ready))) 1
    = Some c /\
    dict_at (snd (Context_new_from myapp_world 0 (Some 2) None derive_ready))
            (ctx_runtime c) "request.id" = Some (VInt 7) /\
    (exists i j,
        VObj 0 = VObj i /\
        dict_at (snd (Context_new_from myapp_world 0 (Some 2) None derive_ready))
                (ctx_runtime c) "app.command.build" = Some (VObj j) /\
        i < j) /\
    dict_at (snd (Context_new_from myapp_world 0 (Some 2) None derive_ready))
            (ctx_runtime c) "app.command.test" = None /\
    nth_error (dicts (snd (Context_new_from myapp_world 0 (Some 2) None derive_ready))) 1
    = Some [("app.command.build", VObj 0); ("app.command.test", VObj 1)].
Proof.
  destruct (Context_new_from_spec myapp_world 0 (Some 2) None derive_ready 1
              (snd (Context_new_from myapp_world 0 (Some 2) None derive_ready))
              (mkContext (StackContainer [AppRef]) 1)
              [("app.command.build", VObj 0); ("app.command.test", VObj 1)])
    as (c & _ & Hc & _ & Hov & Hcl & Hno & _ & _ & Hpar & _).
  - vm_compute. reflexivity.
  - reflexivity.
  - reflexivity.
  - repeat constructor; simpl; intuition discriminate.
  - exists c. split; [exact Hc|]. split; [|split; [|split]].
    + apply Hov. reflexivity.
    + destruct (Hcl "app.command.build" (VObj 0)) as (i & j & E & D & L & _);
        [reflexivity | reflexivity | reflexivity |].
      exists i, j. auto.
    + apply (Hno "app.command.test" (VObj 1)); reflexivity.
    + exact Hpar.
Defined.

(** ** The ambient accessor *)

Lemma nth_error_snoc :
  forall (A : Type) (l : list A) x, nth_error (l ++ [x]) (List.length l) = Some x.
Proof.
  intros A l x. rewrite nth_error_app2 by lia. rewrite Nat.sub_diag. reflexivity.
Qed.

(** With no scope active, an access builds a new scope with an empty cache
    over the registry held in [_stack], which is built on the first access
    and kept. *)
Lemma ContextWrapper_container_root :
  forall s,
    active_stack s = [] ->
    ContextWrapper_container s =
    (let stk := match wrapper_stack s with
                | Some k => k
                | None => StackContainer
                            [match app_instance s with Some _ => AppRef | None => NoneRef end]
                end in
     (Ok (List.length (ctxs s)),
      set_ctxs (ctxs s ++
                [mkContext (StackContainer
                              [stk; Container [("context",
                                                RParameter (VCtx (List.length (ctxs s))))]])
                           (List.length (dicts s))])
        (set_dicts (dicts s ++ [[]])
           (set_wrapper_stack (Some stk) s)))).
Proof.
  intros s H. unfold active_stack in H.
  unfold ContextWrapper_container, alloc_dict, alloc_ctx. munfold.
  destruct s as [ls ds os cs ai ws ins tr]. simpl in *.
  destruct ws as [k|]; simpl; rewrite H; reflexivity.
Qed.

(** C1 (as stated, refuted): two successive [context.get] of the same
    service with no scope active go through two different root scopes; the
    second does not find the first one's cache and builds the service again. *)
Lemma ContextWrapper_root_not_reused :
  active_stack myapp_started = [] /\
  active_stack (snd (ContextWrapper_get myapp_world 20 "app.command.build" myapp_started))
  = [] /\
  fst (ContextWrapper_get myapp_world 20 "app.command.build" myapp_started)
  = Ok (VObj 0) /\
  fst (ContextWrapper_get myapp_world 20 "app.command.build"
         (snd (ContextWrapper_get myapp_world 20 "app.command.build" myapp_started)))
  = Ok (VObj 1) /\
  trace (snd (ContextWrapper_get myapp_world 20 "app.command.build"
                (snd (ContextWrapper_get myapp_world 20 "app.command.build"
                        myapp_started))))
  = [EvConstruct "myapp:Build" []; EvConstruct "myapp:Build" []] /\
  fst (ContextWrapper_container
         (snd (ContextWrapper_get myapp_world 20 "app.command.build" myapp_started)))
  <> fst (ContextWrapper_container myapp_started).
Proof.
  repeat split; try (vm_compute; reflexivity).
  vm_compute. discriminate.
Qed.

(** C1 (amended): with no scope active, [get] and [has] delegate to a root
    scope over the layered registry [_stack] that wraps the application
    container (or [None] when it has not been built); [_stack] is built on
    the first access and reused by every later one, while the root scope is
    built anew, with an empty cache of its own, at each access: two
    successive accesses go through two different scopes over the same
    [_stack]. *)
Theorem ContextWrapper_container_spec {RE : re_module} :
  forall (W : world) (f : nat) (name : string) (s : state),
    active_stack s = [] ->
    exists stk s1 s2,
      stk = match wrapper_stack s with
            | Some k => k
            | None => StackContainer
                        [match app_instance s with Some _ => AppRef | None => NoneRef end]
            end /\
      ContextWrapper_container s = (Ok (List.length (ctxs s)), s1) /\
      wrapper_stack s1 = Some stk /\
      nth_error (ctxs s) (List.length (ctxs s)) = None /\
      nth_error (ctxs s1) (List.length (ctxs s))
      = Some (mkContext
                (StackContainer
                   [stk; Container [("context", RParameter (VCtx (List.length (ctxs s))))]])
                (List.length (dicts s))) /\
      nth_error (dicts s) (List.length (dicts s)) = None /\
      nth_error (dicts s1) (List.length (dicts s)) = Some [] /\
      ContextWrapper_get W (S f) name s = Context_get W f (List.length (ctxs s)) name s1 /\
      ContextWrapper_has W f name s = Context_has W f (List.length (ctxs s)) name s1 /\
      active_stack s1 = [] /\
      ContextWrapper_container s1 = (Ok (S (List.length (ctxs s))), s2) /\
      wrapper_stack s2 = Some stk /\
      nth_error (ctxs s2) (S (List.length (ctxs s)))
      = Some (mkContext
                (StackContainer
                   [stk; Container [("context",
                                     RParameter (VCtx (S (List.length (ctxs s)))))]])
                (S (List.length (dicts s)))) /\
      nth_error (dicts s2) (S (List.length (dicts s))) = Some [].
Proof.
  intros W f name s H.
  pose proof (ContextWrapper_container_root s H) as H1. cbv zeta in H1.
  set (stk := match wrapper_stack s with
              | Some k => k
              | None => StackContainer
                          [match app_instance s with Some _ => AppRef | None => NoneRef end]
              end) in *.
  match type of H1 with _ = (_, ?x) => set (s1 := x) in * end.
  assert (Ha1 : active_stack s1 = []) by exact H.
  pose proof (ContextWrapper_container_root s1 Ha1) as H2. cbv zeta in H2.
  match type of H2 with _ = (_, ?x) => set (s2 := x) in * end.
  exists stk, s1, s2.
  split; [reflexivity|]. split; [exact H1|]. split; [reflexivity|].
  split; [apply nth_error_None; lia|].
  split; [simpl; rewrite nth_error_app2 by lia; rewrite Nat.sub_diag; reflexivity|].
  split; [apply nth_error_None; lia|].
  split; [simpl; rewrite nth_error_app2 by lia; rewrite Nat.sub_diag; reflexivity|].
  split; [rewrite ContextWrapper_get_S; unfold bind; rewrite H1; reflexivity|].
  split; [unfold ContextWrapper_has, bind; rewrite H1; reflexivity|].
  split; [exact Ha1|].
  assert (L1 : List.length (ctxs s1) = S (List.length (ctxs s))).
  { simpl. rewrite length_app. simpl. lia. }
  assert (LD1 : List.length (dicts s1) = S (List.length (dicts s))).
  { simpl. rewrite length_app. simpl. lia. }
  assert (E2 : ctxs s2 = ctxs s1 ++
                 [mkContext
                    (StackContainer
                       [stk; Container [("context",
                                         RParameter (VCtx (List.length (ctxs s1))))]])
                    (List.length (dicts s1))]) by reflexivity.
  assert (D2 : dicts s2 = dicts s1 ++ [[]]) by reflexivity.
  split; [rewrite H2, L1; reflexivity|].
  split; [reflexivity|].
  split.
  - rewrite E2, L1, LD1. rewrite <- L1. apply nth_error_snoc.
  - rewrite D2. rewrite <- LD1. apply nth_error_snoc.
Qed.

Lemma ContextWrapper_container_spec_witness :
  exists stk s1 s2,
    stk = match wrapper_stack myapp_started with
          | Some k => k
          | None => StackContainer
                      [match app_instance myapp_started with
                       | Some _ => AppRef
                       | None => NoneRef
                       end]
          end /\
    ContextWrapper_container myapp_started = (Ok (List.length (ctxs myapp_started)), s1) /\
    wrapper_stack s1 = Some stk /\
    ContextWrapper_container s1 = (Ok (S (List.length (ctxs myapp_started))), s2) /\
    wrapper_stack s2 = Some stk.
Proof.
  destruct (ContextWrapper_container_spec myapp_world 5 "app.command" myapp_started)
    as (stk & s1 & s2 & A & B & C & _ & _ & _ & _ & _ & _ & _ & D & E & _).
  - reflexivity.
  - exists stk, s1, s2. auto.
Defined.

(** ** Groups *)

Section GroupDict.
Variable key : string -> string.

Let group (names : list string) (d0 : dict) : dict :=
  fold_left (fun d v => dict_set (key v) (VStr v) d) names d0.

Lemma group_sound :
  forall names d0 k v,
    dict_get k (group names d0) = Some v ->
    dict_get k d0 = Some v \/ exists n, In n names /\ v = VStr n /\ k = key n.
Proof.
  induction names as [|a names IH]; intros d0 k v H; simpl in *.
  - left. exact H.
  - destruct (IH _ _ _ H) as [H1 | (n & Hin & Hv & Hk)].
    + destruct (String.eqb_spec k (key a)) as [->|Hne].
      * rewrite dict_get_set_eq in H1. injection H1 as <-.
        right. exists a. auto.
      * rewrite dict_get_set_neq in H1 by exact Hne. left. exact H1.
    + right. exists n. auto.
Qed.

Lemma group_keeps_key :
  forall names d0 k v,
    dict_get k d0 = Some v ->
    exists v', dict_get k (group names d0) = Some v' /\
               (v' = v \/ exists n, In n names /\ v' = VStr n /\ key n = k).
Proof.
  induction names as [|a names IH]; intros d0 k v H; simpl.
  - exists v. auto.
  - destruct (String.eqb_spec k (key a)) as [->|Hne].
    + destruct (IH (dict_set (key a) (VStr a) d0) (key a) (VStr a)
                   (dict_get_set_eq _ _ _)) as (v' & Hv' & Hor).
      exists v'. split; [exact Hv'|]. right.
      destruct Hor as [->|(n & Hin & -> & Hk)]; [exists a | exists n]; auto.
    + destruct (IH (dict_set (key a) (VStr a) d0) k v) as (v' & Hv' & Hor).
      * rewrite dict_get_set_neq by exact Hne. exact H.
      * exists v'. split; [exact Hv'|].
        destruct Hor as [->|(n & Hin & -> & Hk)]; [left; reflexivity|].
        right. exists n. auto.
Qed.

Lemma group_complete :
  forall names d0 n,
    In n names ->
    exists n', dict_get (key n) (group names d0) = Some (VStr n') /\
               In n' names /\ key n' = key n.
Proof.
  induction names as [|a names IH]; intros d0 n Hin; simpl in *.
  - contradiction.
  - destruct Hin as [->|Hin].
    + destruct (group_keeps_key names (dict_set (key n) (VStr n) d0) (key n) (VStr n)
                  (dict_get_set_eq _ _ _)) as (v' & Hv' & Hor).
      destruct Hor as [->|(n' & Hin' & -> & Hk)].
      * exists n. auto.
      * exists n'. auto.
    + destruct (IH (dict_set (key a) (VStr a) d0) n Hin) as (n' & H1 & H2 & H3).
      exists n'. auto.
Qed.
End GroupDict.

(** A match at the start of a string splits it into the matched prefix, as
    long as the pattern, and the rest. *)
Lemma match_prefix_split :
  forall ats s rest,
    match_prefix ats s = Some rest ->
    exists pre, s = (pre ++ rest)%string /\ String.length pre = List.length ats.
Proof.
  induction ats as [|a ats IH]; intros s rest H; simpl in H.
  - injection H as <-. exists EmptyString. auto.
  - destruct s as [|c s]; [discriminate|].
    destruct (atom_matches a c); [|discriminate].
    destruct (IH _ _ H) as (pre & -> & Hl).
    exists (String c pre). simpl. auto.
Qed.

(** After the start of the string an anchored pattern matches no more:
    the scan drops what is left of the current match and keeps the rest. *)
Lemma sub_scan_copy :
  forall r, anchored r = true -> forall s, sub_scan r false 0 s = s.
Proof.
  intros r Ha. induction s as [|c s IH]; [reflexivity|].
  cbn [sub_scan]. rewrite Ha. cbn [orb negb andb]. rewrite IH. reflexivity.
Qed.

Lemma sub_scan_skip :
  forall r, anchored r = true ->
  forall pre rest, sub_scan r false (String.length pre) (pre ++ rest)%string = rest.
Proof.
  intros r Ha. induction pre as [|c pre IH]; intros rest.
  - apply sub_scan_copy. exact Ha.
  - cbn [String.length String.append sub_scan]. apply IH.
Qed.

Lemma re_sub_anchored :
  forall r n,
    anchored r = true -> re_match r n = true ->
    match_prefix (atoms r) n = Some (re_sub r n).
Proof.
  intros r n Ha Hm. unfold re_sub.
  destruct (match_prefix (atoms r) n) as [rest|] eqn:E;
    [|unfold re_match in Hm; rewrite E in Hm; discriminate].
  destruct (atoms r) as [|a ats] eqn:Eat.
  - simpl in E. injection E as <-. reflexivity.
  - destruct (match_prefix_split _ _ _ E) as (pre & -> & Hl).
    destruct pre as [|c pre]; [discriminate|]. simpl in Hl. injection Hl as Hl.
    change (String c pre ++ rest)%string with (String c (pre ++ rest)) in *.
    cbn [sub_scan]. rewrite Hm, Eat. cbn [orb andb List.length].
    replace (S (List.length ats) - 1) with (String.length pre) by lia.
    rewrite (sub_scan_skip r Ha pre rest). reflexivity.
Qed.

(** Filtering and grouping with the functions of [re], which do not touch
    the store. *)
Lemma filterM_of_result :
  forall (A : Type) (g : A -> result bool) l s found s1,
    filterM (fun x => of_result (g x)) l s = (Ok found, s1) ->
    s1 = s /\
    (forall x, In x found <-> In x l /\ g x = Ok true) /\
    (NoDup l -> NoDup found).
Proof.
  intros A g. induction l as [|a l IH]; intros s found s1 H; simpl in H.
  - injection H as <- <-. split; [reflexivity|]. split; [|auto].
    intros x. simpl. tauto.
  - unfold bind at 1 in H. unfold of_result at 1 in H.
    destruct (g a) as [b|e|] eqn:Ea; try discriminate.
    unfold bind at 1 in H.
    destruct (filterM (fun x => of_result (g x)) l s) as [[rest|e|] s2] eqn:El;
      try discriminate.
    injection H as <- <-.
    destruct (IH _ _ _ El) as (-> & Hin & Hnd).
    split; [reflexivity|]. split.
    + intros x. destruct b; simpl; rewrite ?Hin.
      * split.
        -- intros [<-|[H1 H2]]; auto.
        -- intros [[<-|H1] H2]; auto.
      * split.
        -- intros [H1 H2]; auto.
        -- intros [[<-|H1] H2]; [congruence | auto].
    + intros Hn. inversion Hn as [|? ? Hnot Hl]; subst.
      destruct b; [|auto]. constructor; [|auto].
      intros Hx. apply Hin in Hx. tauto.
Qed.

Lemma filterM_of_result_ok :
  forall (A : Type) (g : A -> result bool) (h : A -> bool) l s,
    (forall x, In x l -> g x = Ok (h x)) ->
    filterM (fun x => of_result (g x)) l s = (Ok (filter h l), s).
Proof.
  intros A g h. induction l as [|a l IH]; intros s H; simpl.
  - reflexivity.
  - unfold bind at 1. unfold of_result at 1. rewrite (H a) by (left; reflexivity).
    unfold bind at 1. rewrite IH by (intros x Hx; apply H; right; exact Hx).
    reflexivity.
Qed.

Lemma group_foldM :
  forall (g : string -> result string) names d0 s d s1,
    foldM (fun d v => k <- of_result (g v) ;; ret (dict_set k (VStr v) d)) names d0 s
    = (Ok d, s1) ->
    s1 = s /\
    (forall n, In n names -> exists k, g n = Ok k) /\
    d = fold_left (fun d v => dict_set (match g v with Ok k => k | _ => EmptyString end)
                                       (VStr v) d) names d0.
Proof.
  intros g. induction names as [|a names IH]; intros d0 s d s1 H; simpl in H.
  - injection H as <- <-. split; [reflexivity|]. split; [|reflexivity].
    intros n [].
  - unfold bind at 1 in H. unfold bind at 1 in H. unfold of_result at 1 in H.
    destruct (g a) as [k|e|] eqn:Ea; try discriminate.
    unfold ret at 1 in H.
    destruct (IH _ _ _ _ H) as (-> & Hk & ->).
    split; [reflexivity|]. split.
    + intros n [<-|Hn]; [eauto | auto].
    + simpl. rewrite Ea. reflexivity.
Qed.

(** What [find] answers: the names of the registry of the current scope that
    match the pattern. *)
Lemma ContextWrapper_find_spec {RE : re_module} :
  forall W fuel pattern s names s1,
    ContextWrapper_find W fuel pattern s = (Ok names, s1) ->
    exists id s0 c cs all,
      ContextWrapper_container s = (Ok id, s0) /\
      nth_error (ctxs s0) id = Some c /\
      ctx_container c = StackContainer cs /\
      resources_names W fuel cs s0 = (Ok all, s1) /\
      (forall n, In n names <-> In n all /\ re_module_match pattern n = Ok true) /\
      (NoDup all -> NoDup names).
Proof.
  intros W fuel pattern s names s1 H. unfold ContextWrapper_find in H.
  unfold bind at 1 in H.
  destruct (ContextWrapper_container s) as [[id|e|] s0] eqn:E0; try discriminate.
  unfold bind at 1 in H. unfold read_ctx in H. unfold bind at 1 in H.
  unfold gets at 1 in H. unfold of_option in H.
  destruct (nth_error (ctxs s0) id) as [c|] eqn:Ec; try discriminate.
  unfold ret at 1 in H. unfold bind at 1 in H.
  destruct (ctx_container c) as [rs|cs| | |i] eqn:Ecc; try discriminate.
  destruct (resources_names W fuel cs s0) as [[all|e|] s2] eqn:En; try discriminate.
  destruct (filterM_of_result _ _ _ _ _ _ H) as (-> & Hin & Hnd).
  exists id, s0, c, cs, all. auto 10.
Qed.

(** C8 (as stated, refuted): with the pattern [ab], which has no [^], the
    name [abab] gets the key made by removing every occurrence of the
    pattern, the empty string, not the name with the matched prefix stripped. *)
Lemma ResourceGroup_unanchored_key :
  fst (ContextWrapper_get ab_world 20 "g" ab_started) = Ok (VDict [("", VStr "abab")]) /\
  fst (ContextWrapper_get ab_world 20 "g" ab_started) <> Ok (VDict [("ab", VStr "abab")]).
Proof.
  split; [vm_compute; reflexivity | vm_compute; discriminate].
Qed.

(** C8 (amended): resolving a group returns a dict whose values are the
    names of the registry of the current scope that match the pattern at
    their start ([re.match]), each under the key obtained by removing from
    the name every match of the pattern ([re.sub]); when the pattern is [^]
    followed by literal characters, escaped punctuation and [.], as
    [^app.command.] is, that key is the name with the matched prefix
    stripped.  With [app.command.build] and [app.command.test] registered,
    [groups.commands] resolves to
    [{build: app.command.build, test: app.command.test}]. *)
Theorem ResourceGroup_resolve_spec {RE : re_module} :
  forall W fuel pattern s v s1,
    ResourceGroup_resolve (ContextWrapper_find W fuel) pattern s = (Ok v, s1) ->
    exists d names id s0 c cs all,
      v = VDict d /\
      ContextWrapper_find W fuel pattern s = (Ok names, s1) /\
      ContextWrapper_container s = (Ok id, s0) /\
      nth_error (ctxs s0) id = Some c /\
      ctx_container c = StackContainer cs /\
      resources_names W fuel cs s0 = (Ok all, s1) /\
      (forall n, In n names <-> In n all /\ re_module_match pattern n = Ok true) /\
      (forall k x, dict_get k d = Some x ->
                   exists n, x = VStr n /\ In n names /\ re_module_sub pattern n = Ok k) /\
      (forall n, In n names ->
                 exists k n', re_module_sub pattern n = Ok k /\
                              dict_get k d = Some (VStr n') /\
                              In n' names /\ re_module_sub pattern n' = Ok k) /\
      (forall r,
          parse_regex pattern = Some r -> anchored r = true ->
          (forall n, re_module_match pattern n = Ok (re_match r n)) ->
          (forall n, re_module_sub pattern n = Ok (re_sub r n)) ->
          forall n, In n names ->
                    exists pre k, re_module_sub pattern n = Ok k /\
                                  n = (pre ++ k)%string /\
                                  String.length pre = List.length (atoms r)) /\
      fst (@ContextWrapper_get fragment_re myapp_world 20 "groups.commands" myapp_started)
      = Ok (VDict [("build", VStr "app.command.build");
                   ("test", VStr "app.command.test")]).
Proof.
  intros W fuel pattern s v s1 H.
  unfold ResourceGroup_resolve in H. unfold bind at 1 in H.
  destruct (ContextWrapper_find W fuel pattern s) as [[names|e|] s'] eqn:Ef;
    try discriminate.
  unfold bind at 1 in H.
  match type of H with
  | context [foldM ?f names [] s'] => destruct (foldM f names [] s') as [[d|e|] s2] eqn:Eg
  end; try discriminate.
  injection H as <- <-.
  destruct (group_foldM _ _ _ _ _ _ Eg) as (-> & Hk & Hd).
  set (key := fun n => match re_module_sub pattern n with
                       | Ok k => k
                       | _ => EmptyString
                       end) in *.
  assert (Hkey : forall n, In n names -> re_module_sub pattern n = Ok (key n)).
  { intros n Hn. destruct (Hk n Hn) as [k Ek]. unfold key. rewrite Ek. reflexivity. }
  destruct (ContextWrapper_find_spec _ _ _ _ _ _ Ef)
    as (id & s0 & c & cs & all & E0 & Ec & Ecc & En & Hin & _).
  exists d, names, id, s0, c, cs, all.
  split; [reflexivity|]. split; [reflexivity|].
  split; [exact E0|]. split; [exact Ec|]. split; [exact Ecc|]. split; [exact En|].
  split; [exact Hin|].
  split; [|split; [|split]].
  - intros k x Hx. rewrite Hd in Hx.
    destruct (group_sound key names [] k x Hx) as [Hd0|(n & A & B & C)].
    + discriminate.
    + exists n. split; [exact B|]. split; [exact A|]. rewrite C. apply Hkey. exact A.
  - intros n Hn. destruct (group_complete key names [] n Hn) as (n' & A & B & C).
    exists (key n), n'. split; [apply Hkey; exact Hn|].
    split; [rewrite Hd; exact A|]. split; [exact B|].
    rewrite <- C. apply Hkey. exact B.
  - intros r Hr Ha Hm Hs n Hn. apply Hin in Hn. destruct Hn as [_ Hn].
    rewrite Hm in Hn. injection Hn as Hn.
    destruct (match_prefix_split _ _ _ (re_sub_anchored r n Ha Hn)) as (pre & Hpre & Hl).
    exists pre, (re_sub r n). split; [apply Hs|]. split; [exact Hpre | exact Hl].
  - vm_compute. reflexivity.
Qed.

Lemma ResourceGroup_resolve_spec_witness :
  exists d,
    ResourceGroup_resolve (ContextWrapper_find myapp_world 20) "^app.command." myapp_started
    = (Ok (VDict d),
       snd (ContextWrapper_find myapp_world 20 "^app.command." myapp_started)) /\
    dict_get "build" d = Some (VStr "app.command.build") /\
    dict_get "test" d = Some (VStr "app.command.test") /\
    forall n, In n ["app.command.build"; "app.command.test"] ->
              exists pre k, re_module_sub "^app.command." n = Ok k /\
                            n = (pre ++ k)%string /\ String.length pre = 12.
Proof.
  destruct (ResourceGroup_resolve_spec myapp_world 20 "^app.command."
              myapp_started
              (VDict [("build", VStr "app.command.build"); ("test", VStr "app.command.test")])
              (snd (ContextWrapper_find myapp_world 20 "^app.command." myapp_started)))
    as (d & names & id & s0 & c & cs & all & Ev & Ef & _ & _ & _ & _ & _ & _ & _ & Hanch & _).
  - vm_compute. reflexivity.
  - injection Ev as <-.
    exists [("build", VStr "app.command.build"); ("test", VStr "app.command.test")].
    split; [vm_compute; reflexivity|]. split; [reflexivity|]. split; [reflexivity|].
    assert (Hn : names = ["app.command.build"; "app.command.test"]).
    { vm_compute in Ef. injection Ef as <-. reflexivity. }
    rewrite <- Hn.
    apply (Hanch (mkRegex true
                    [ALit "a"; ALit "p"; ALit "p"; AAny; ALit "c"; ALit "o"; ALit "m";
                     ALit "m"; ALit "a"; ALit "n"; ALit "d"; AAny]%char)).
    + reflexivity.
    + reflexivity.
    + intros n. reflexivity.
    + intros n. reflexivity.
Defined.

(** A backslash makes a literal of the dot: [^app\.command\.] takes the
    names that [^app.command.] takes, but not [app-command-build]; a
    pattern with a class escape or an alternative is outside the fragment. *)
Example escaped_dot_is_literal :
  parse_regex "^app\.command\."
  = Some (mkRegex true
            [ALit "a"; ALit "p"; ALit "p"; ALit "."; ALit "c"; ALit "o"; ALit "m";
             ALit "m"; ALit "a"; ALit "n"; ALit "d"; ALit "."]%char) /\
  (forall r, parse_regex "^app\.command\." = Some r ->
             re_match r "app.command.build" = true /\
             re_sub r "app.command.build" = "build" /\
             re_match r "app-command-build" = false) /\
  (forall r, parse_regex "^app.command." = Some r ->
             re_match r "app-command-build" = true) /\
  parse_regex "^app\d" = None /\ parse_regex "^app|x" = None.
Proof.
  split; [reflexivity|]. split; [|split; [|split; reflexivity]].
  - intros r Hr. vm_compute in Hr. injection Hr as <-. repeat split; reflexivity.
  - intros r Hr. vm_compute in Hr. injection Hr as <-. reflexivity.
Qed.

(** ** What [has] leaves alone *)

Lemma same_store_refl : forall s, same_store s s.
Proof. intros s. constructor; reflexivity. Qed.

Lemma same_store_trans :
  forall s1 s2 s3, same_store s1 s2 -> same_store s2 s3 -> same_store s1 s3.
Proof.
  intros s1 s2 s3 [A1 A2 A3 A4 A5 A6 A7] [B1 B2 B3 B4 B5 B6 B7].
  constructor; congruence.
Qed.

Lemma frame_ret : forall (A : Type) (a : A), frame (ret a).
Proof. intros A a s r s' H. injection H as _ <-. apply same_store_refl. Qed.

Lemma frame_raise : forall (A : Type) e, frame (@raise A e).
Proof. intros A e s r s' H. injection H as _ <-. apply same_store_refl. Qed.

Lemma frame_stuck : forall (A : Type), frame (@stuck A).
Proof. intros A s r s' H. injection H as _ <-. apply same_store_refl. Qed.

Lemma frame_gets : forall (A : Type) (f : state -> A), frame (gets f).
Proof. intros A f s r s' H. injection H as _ <-. apply same_store_refl. Qed.

Lemma frame_of_option : forall (A : Type) (o : option A), frame (of_option o).
Proof. intros A [a|]; [apply frame_ret | apply frame_stuck]. Qed.

Lemma frame_bind :
  forall (A B : Type) (m : M A) (k : A -> M B),
    frame m -> (forall a, frame (k a)) -> frame (bind m k).
Proof.
  intros A B m k Hm Hk s r s' H. unfold bind in H.
  destruct (m s) as [[a|e|] s1] eqn:E.
  - eapply same_store_trans; [eapply Hm; eauto | eapply Hk; eauto].
  - injection H as _ <-. eapply Hm; eauto.
  - injection H as _ <-. eapply Hm; eauto.
Qed.

Lemma frame_foldM :
  forall (A B : Type) (f : B -> A -> M B) l b,
    (forall b x, frame (f b x)) -> frame (foldM f l b).
Proof.
  induction l as [|x l IH]; intros b Hf; simpl.
  - apply frame_ret.
  - apply frame_bind; [apply Hf|]. intros b'. apply IH. exact Hf.
Qed.

Lemma frame_set_app_instance :
  forall a, frame (modify (set_app_instance a)).
Proof.
  intros a s r s' H. injection H as _ <-. constructor; reflexivity.
Qed.

Lemma frame_ApplicationContainer_container :
  forall W, frame (ApplicationContainer_container W).
Proof.
  intros W. unfold ApplicationContainer_container, read_app, read_list.
  apply frame_bind; [apply frame_bind; [apply frame_gets | intro; apply frame_of_option]|].
  intros a. destruct (app__container a); [apply frame_ret|].
  apply frame_bind; [destruct (app_modules a); [apply frame_ret | apply frame_raise]|].
  intros m.
  apply frame_bind; [destruct (app_configuration a); [apply frame_ret | apply frame_raise]|].
  intros c.
  apply frame_bind; [apply frame_bind; [apply frame_gets | intro; apply frame_of_option]|].
  intros ms. apply frame_bind.
  - apply frame_foldM. intros stack module. apply frame_bind.
    + unfold import_module. destruct (lookup_module W module); [apply frame_ret | apply frame_raise].
    + intros mi. destruct (mod_container mi); apply frame_ret.
  - intros stack. apply frame_bind; [apply frame_set_app_instance|]. intros _. apply frame_ret.
Qed.

Lemma frame_StackContainer_has :
  forall (C : Type) (has : C -> string -> M bool),
    (forall c n, frame (has c n)) ->
    forall cs name, frame (StackContainer_has has cs name).
Proof.
  intros C has Hh. induction cs as [|c rest IH]; intros name; simpl.
  - apply frame_ret.
  - apply frame_bind; [apply Hh|]. intros [|]; [apply frame_ret | apply IH].
Qed.

Lemma Context_has_S :
  forall W f self name,
    Context_has W (S f) self name
    = (c <- read_ctx self ;;
       d <- read_dict (ctx_runtime c) ;;
       if dict_mem name d then ret true
       else container_has W f (ctx_container c) name).
Proof. reflexivity. Qed.

Lemma container_has_app :
  forall W f name,
    container_has W (S f) AppRef name
    = (c' <- ApplicationContainer_container W ;; container_has W f c' name).
Proof. reflexivity. Qed.

Lemma container_has_ctx :
  forall W f id name, container_has W (S f) (CtxRef id) name = Context_has W f id name.
Proof. reflexivity. Qed.

Lemma container_has_none :
  forall W f name, container_has W (S f) NoneRef name = raise (AttributeError "has").
Proof. reflexivity. Qed.

Lemma frame_has :
  forall W fuel,
    (forall self name, frame (Context_has W fuel self name)) /\
    (forall c name, frame (container_has W fuel c name)).
Proof.
  intros W. induction fuel as [|f [IHc IHk]]; split; intros; try apply frame_stuck.
  - rewrite Context_has_S. unfold read_ctx, read_dict.
    apply frame_bind; [apply frame_bind; [apply frame_gets | intro; apply frame_of_option]|].
    intros c.
    apply frame_bind; [apply frame_bind; [apply frame_gets | intro; apply frame_of_option]|].
    intros d. destruct (dict_mem name d); [apply frame_ret | apply IHk].
  - destruct c.
    + apply (frame_ret bool (dict_mem name resources)).
    + rewrite container_has_stack. apply frame_StackContainer_has. exact IHk.
    + rewrite container_has_app.
      apply frame_bind; [apply frame_ApplicationContainer_container|]. intros c'. apply IHk.
    + rewrite container_has_none. apply frame_raise.
    + rewrite container_has_ctx. apply IHc.
Qed.

(** ** Registries as trees *)

Lemma container_ind' :
  forall P : container -> Prop,
    (forall rs, P (Container rs)) ->
    (forall cs, Forall P cs -> P (StackContainer cs)) ->
    P AppRef -> P NoneRef -> (forall id, P (CtxRef id)) ->
    forall c, P c.
Proof.
  intros P Hc Hs Ha Hn Hx.
  refine (fix IH (c : container) : P c :=
            match c with
            | Container rs => Hc rs
            | StackContainer cs =>
                Hs cs ((fix go (l : list container) : Forall P l :=
                          match l with
                          | [] => Forall_nil P
                          | x :: l' => Forall_cons x (IH x) (go l')
                          end) cs)
            | AppRef => Ha
            | NoneRef => Hn
            | CtxRef id => Hx id
            end).
Qed.

Lemma pure_tree_no_app : forall c, pure_tree c = true -> no_app c = true.
Proof.
  induction c as [rs|cs IH| | |id] using container_ind'; simpl; intros H;
    try discriminate; try reflexivity.
  rewrite forallb_forall in *. rewrite Forall_forall in IH. auto.
Qed.

Lemma tree_depth_child :
  forall c cs, In c cs -> tree_depth c < tree_depth (StackContainer cs).
Proof.
  intros c cs H. simpl. apply Nat.lt_succ_r.
  induction cs as [|y cs IH]; simpl in *; [contradiction|].
  destruct H as [->|H]; [lia|]. specialize (IH H). lia.
Qed.

Lemma dict_mem_in_keys :
  forall (A : Type) k (d : list (string * A)), dict_mem k d = true <-> In k (map fst d).
Proof.
  intros A k d. unfold dict_mem. induction d as [|[k0 v0] d IH]; simpl.
  - split; [discriminate | contradiction].
  - destruct (String.eqb_spec k k0) as [->|Hn].
    + split; auto.
    + rewrite IH. split; [auto | intros [H|H]; [congruence | exact H]].
Qed.

Lemma tree_has_names :
  forall name c, tree_has name c = true <-> In name (tree_names c).
Proof.
  intros name. induction c as [rs|cs IH| | |id] using container_ind'; simpl;
    try (split; [discriminate | contradiction]).
  - apply dict_mem_in_keys.
  - rewrite existsb_exists, in_flat_map. rewrite Forall_forall in IH.
    split; intros (x & Hx & H); exists x; (split; [exact Hx | apply IH; assumption]).
Qed.

(** Pure [has]: layers that answer without touching the process. *)
Lemma StackContainer_has_pure :
  forall (C : Type) (has : C -> string -> M bool) (p : C -> bool) cs name s,
    (forall c, In c cs -> has c name s = (Ok (p c), s)) ->
    StackContainer_has has cs name s = (Ok (existsb p cs), s).
Proof.
  induction cs as [|c cs IH]; intros name s H; simpl.
  - reflexivity.
  - unfold bind. rewrite (H c (or_introl eq_refl)).
    destruct (p c); [reflexivity|]. apply IH. intros c' Hc'. apply H. right. exact Hc'.
Qed.

Lemma all_miss_pure :
  forall (C : Type) (has : C -> string -> M bool) cs name s,
    (forall c, In c cs -> has c name s = (Ok false, s)) ->
    all_miss has name cs s s.
Proof.
  induction cs as [|c cs IH]; intros name s H.
  - constructor.
  - econstructor; [apply H; left; reflexivity|].
    apply IH. intros c' Hc'. apply H. right. exact Hc'.
Qed.

Lemma container_has_tree :
  forall W fuel c name s,
    pure_tree c = true -> tree_depth c < fuel ->
    container_has W fuel c name s = (Ok (tree_has name c), s).
Proof.
  intros W. induction fuel as [|f IH]; intros c name s Hp Hd; [lia|].
  destruct c; simpl in Hp; try discriminate.
  - reflexivity.
  - rewrite container_has_stack. simpl tree_has.
    apply StackContainer_has_pure. intros c Hc. apply IH.
    + rewrite forallb_forall in Hp. apply Hp. exact Hc.
    + pose proof (tree_depth_child c containers Hc). lia.
Qed.

(** *** Sets of names *)

Lemma name_in_iff : forall x s, name_in x s = true <-> In x s.
Proof.
  intros x s. unfold name_in. rewrite existsb_exists. split.
  - intros (y & Hy & E). apply String.eqb_eq in E. subst. exact Hy.
  - intros H. exists x. split; [exact H | apply String.eqb_refl].
Qed.

Lemma names_add_in :
  forall s x n, In n (names_add s x) <-> In n s \/ n = x.
Proof.
  intros s x n. unfold names_add. destruct (name_in x s) eqn:E.
  - apply name_in_iff in E. split; [auto | intros [H| ->]; assumption].
  - rewrite in_app_iff. simpl. intuition.
Qed.

Lemma names_add_nodup : forall s x, NoDup s -> NoDup (names_add s x).
Proof.
  intros s x H. unfold names_add. destruct (name_in x s) eqn:E; [exact H|].
  apply NoDup_app; [exact H | repeat constructor; intros [] |].
  intros a Ha [<-|[]]. apply name_in_iff in Ha. congruence.
Qed.

Lemma names_union_in :
  forall b a n, In n (names_union a b) <-> In n a \/ In n b.
Proof.
  unfold names_union. induction b as [|x b IH]; intros a n; simpl.
  - intuition.
  - rewrite IH, names_add_in. intuition.
Qed.

Lemma names_union_nodup : forall b a, NoDup a -> NoDup (names_union a b).
Proof.
  unfold names_union. induction b as [|x b IH]; intros a H; simpl.
  - exact H.
  - apply IH. apply names_add_nodup. exact H.
Qed.

Lemma resources_names_S :
  forall W f cs,
    resources_names W (S f) cs
    = foldM (fun acc c =>
               c1 <- match c with
                     | AppRef => ApplicationContainer_container W
                     | _ => ret c
                     end ;;
               let acc1 := match c1 with
                           | Container rs => names_union acc (map fst rs)
                           | _ => acc
                           end in
               match c1 with
               | StackContainer cs' =>
                   ns <- resources_names W f cs' ;;
                   ret (names_union acc1 ns)
               | _ => ret acc1
               end)
            cs [].
Proof. reflexivity. Qed.

Lemma resources_names_tree :
  forall W fuel cs s,
    forallb no_app cs = true ->
    tree_depth (StackContainer cs) <= fuel ->
    exists l,
      resources_names W fuel cs s = (Ok l, s) /\
      NoDup l /\
      forall n, In n l <-> In n (flat_map tree_names cs).
Proof.
  intros W. induction fuel as [|f IH]; intros cs s Hp Hd; [simpl in Hd; lia|].
  rewrite resources_names_S.
  match goal with |- context [foldM ?g cs []] => set (step := g) end.
  assert (Hgen : forall l acc,
             (forall c, In c l -> In c cs) ->
             NoDup acc ->
             exists r,
               foldM step l acc s = (Ok r, s) /\
               NoDup r /\
               forall n, In n r <-> In n acc \/ In n (flat_map tree_names l)).
  { induction l as [|c l IHl]; intros acc Hsub Hnd.
    - exists acc. simpl. repeat split; auto. intros [H|[]]. exact H.
    - assert (Hc : In c cs) by (apply Hsub; left; reflexivity).
      assert (Hl : forall c', In c' l -> In c' cs) by (intros c' H'; apply Hsub; right; exact H').
      assert (Hna : no_app c = true) by (rewrite forallb_forall in Hp; apply Hp; exact Hc).
      assert (Hstep : exists acc',
                 step acc c s = (Ok acc', s) /\
                 NoDup acc' /\
                 forall n, In n acc' <-> In n acc \/ In n (tree_names c)).
      { unfold step. destruct c as [rs|cs'| | |id]; simpl in Hna; try discriminate.
        - exists (names_union acc (map fst rs)). split; [reflexivity|].
          split; [apply names_union_nodup; exact Hnd|].
          intros n. apply names_union_in.
        - pose proof (tree_depth_child _ _ Hc) as Hlt.
          destruct (IH cs' s Hna) as (ns & Hns & _ & Hin); [lia|].
          exists (names_union acc ns). unfold bind, ret. rewrite Hns.
          split; [reflexivity|]. split; [apply names_union_nodup; exact Hnd|].
          intros n. rewrite names_union_in. rewrite Hin. reflexivity.
        - exists acc. split; [reflexivity|]. split; [exact Hnd|]. simpl. intuition.
        - exists acc. split; [reflexivity|]. split; [exact Hnd|]. simpl. intuition. }
      destruct Hstep as (acc' & Hs & Hnd' & Hin').
      destruct (IHl acc' Hl Hnd') as (r & Hr & Hndr & Hinr).
      exists r. split; [|split; [exact Hndr|]].
      + cbn [foldM]. unfold bind at 1. rewrite Hs. exact Hr.
      + intros n. rewrite Hinr, Hin'. simpl. rewrite in_app_iff. intuition. }
  destruct (Hgen cs [] (fun c H => H) (NoDup_nil _)) as (r & Hr & Hnd & Hin).
  exists r. split; [exact Hr|]. split; [exact Hnd|].
  intros n. rewrite Hin. simpl. intuition.
Qed.

Lemma last_hit_none :
  forall (A : Type) (has : container -> bool) (find : container -> option A) l,
    (forall c, In c l -> has c = true -> find c <> None) ->
    last_hit has find l = None -> existsb has l = false.
Proof.
  induction l as [|c l IH]; intros Hf H; simpl in *.
  - reflexivity.
  - destruct (last_hit has find l) eqn:E; [discriminate|].
    rewrite IH; auto. rewrite orb_false_r.
    destruct (has c) eqn:Ec; [|reflexivity].
    exfalso. apply (Hf c); auto.
Qed.

Lemma last_hit_some :
  forall (A : Type) (has : container -> bool) (find : container -> option A) l x,
    (forall c, In c l -> has c = true -> find c <> None) ->
    last_hit has find l = Some x ->
    exists lo L hi,
      l = lo ++ L :: hi /\ existsb has hi = false /\ has L = true /\ find L = Some x.
Proof.
  induction l as [|c l IH]; intros x Hf H; simpl in *.
  - discriminate.
  - destruct (last_hit has find l) as [y|] eqn:E.
    + injection H as <-.
      destruct (IH y) as (lo & L & hi & -> & H1 & H2 & H3); auto.
      exists (c :: lo), L, hi. auto.
    + destruct (has c) eqn:Ec; [|discriminate].
      exists [], c, l. repeat split; auto.
      apply (last_hit_none A has find); auto.
Qed.

Lemma last_hit_exists :
  forall (A : Type) (has : container -> bool) (find : container -> option A) l,
    (forall c, In c l -> has c = true -> find c <> None) ->
    existsb has l = true -> last_hit has find l <> None.
Proof.
  induction l as [|c l IH]; intros Hf H; simpl in *.
  - discriminate.
  - destruct (last_hit has find l) eqn:E; [discriminate|].
    destruct (has c) eqn:Ec.
    + apply Hf; auto.
    + simpl in H. exfalso. apply IH; auto.
Qed.

Lemma tree_find_total :
  forall name c,
    pure_tree c = true -> tree_has name c = true -> tree_find name c <> None.
Proof.
  intros name. induction c as [rs|cs IH| | |id] using container_ind'; simpl;
    intros Hp Hh; try discriminate.
  - unfold dict_mem in Hh. destruct (dict_get name rs); [discriminate|discriminate].
  - rewrite Forall_forall in IH. rewrite forallb_forall in Hp.
    destruct (last_hit (tree_has name) (tree_find name) cs) eqn:E; [discriminate|].
    exfalso. revert E. apply last_hit_exists; auto.
Qed.

Lemma container_get_tree_find {RE : re_module} :
  forall W fuel c name k r s,
    pure_tree c = true -> tree_depth c < fuel ->
    tree_find name c = Some (k, r) ->
    container_get W fuel c name s
    = resource_resolve W (ContextWrapper_get W (fuel - S k))
                       (ContextWrapper_find W (fuel - S k)) (fuel - S k) r s.
Proof.
  intros W. induction fuel as [|f IH]; intros c name k r s Hp Hd Hf; [lia|].
  destruct c as [rs|cs| | |id]; simpl in Hp; try discriminate.
  - simpl in Hf. rewrite container_get_flat.
    destruct (dict_get name rs) as [r0|]; [|discriminate].
    injection Hf as <- <-. replace (S f - 1) with f by lia. reflexivity.
  - simpl in Hf. rewrite forallb_forall in Hp.
    destruct (last_hit (tree_has name) (tree_find name) cs) as [[k0 r0]|] eqn:E;
      [|discriminate].
    simpl in Hf. injection Hf as <- <-.
    destruct (last_hit_some _ (tree_has name) (tree_find name) cs (k0, r0))
      as (lo & L & hi & -> & H1 & H2 & H3).
    { intros c Hc. apply tree_find_total. apply Hp. exact Hc. }
    { exact E. }
    assert (HL : In L (lo ++ L :: hi)) by (apply in_or_app; right; left; reflexivity).
    rewrite container_get_stack.
    rewrite (StackContainer_get_first_hit _ _ _ _ lo L hi s s s).
    + change (S f - S (S k0)) with (f - S k0). apply IH; auto.
      pose proof (tree_depth_child _ _ HL). lia.
    + apply all_miss_pure. intros c Hc. apply in_rev in Hc.
      assert (Hin : In c (lo ++ L :: hi)) by (apply in_or_app; right; right; exact Hc).
      rewrite container_has_tree.
      * destruct (tree_has name c) eqn:Ec; [|reflexivity].
        exfalso. assert (existsb (tree_has name) hi = true).
        { apply existsb_exists. exists c. auto. }
        congruence.
      * apply Hp. exact Hin.
      * pose proof (tree_depth_child _ _ Hin). lia.
    + rewrite container_has_tree; [rewrite H2; reflexivity | apply Hp; exact HL |].
      pose proof (tree_depth_child _ _ HL). lia.
Qed.

Lemma container_get_tree_miss {RE : re_module} :
  forall W fuel c name s,
    pure_tree c = true -> tree_depth c < fuel ->
    tree_has name c = false ->
    container_get W fuel c name s = (Raise (tree_miss name c), s).
Proof.
  intros W. induction fuel as [|f IH]; intros c name s Hp Hd Hh; [lia|].
  destruct c as [rs|cs| | |id]; simpl in Hp; try discriminate.
  - simpl in Hh. rewrite container_get_flat. unfold dict_mem in Hh.
    destruct (dict_get name rs); [discriminate | reflexivity].
  - rewrite container_get_stack. rewrite forallb_forall in Hp. simpl in Hh.
    assert (Hmiss : all_miss (container_has W f) name (rev cs) s s).
    { apply all_miss_pure. intros c Hc. apply in_rev in Hc.
      rewrite container_has_tree.
      - destruct (tree_has name c) eqn:Ec; [|reflexivity].
        exfalso. assert (existsb (tree_has name) cs = true).
        { apply existsb_exists. exists c. auto. }
        congruence.
      - apply Hp. exact Hc.
      - pose proof (tree_depth_child _ _ Hc). lia. }
    destruct cs as [|c0 rest].
    + reflexivity.
    + rewrite (StackContainer_get_fallback _ _ _ _ _ _ s s Hmiss).
      simpl in Hh. apply orb_false_iff in Hh. destruct Hh as [Hh0 _].
      change (tree_miss name (StackContainer (c0 :: rest))) with (tree_miss name c0).
      apply IH; auto.
      * apply Hp. left. reflexivity.
      * pose proof (tree_depth_child c0 (c0 :: rest) (or_introl eq_refl)). lia.
Qed.

(** X1: [has] only looks: whatever object it is asked on, and however it ends,
    no list, dict, instance, scope or activation is touched and nothing is
    resolved or constructed; at most the application container builds its
    registry. *)
Theorem container_has_only_looks :
  forall W fuel c name s r s',
    container_has W fuel c name s = (r, s') ->
    lists s' = lists s /\ dicts s' = dicts s /\ objs s' = objs s /\
    ctxs s' = ctxs s /\ instances s' = instances s /\ trace s' = trace s.
Proof.
  intros W fuel c name s r s' H.
  destruct (proj2 (frame_has W fuel) c name s r s' H). auto 10.
Qed.

Lemma container_has_only_looks_witness :
  lists (snd (container_has myapp_world 9 (CtxRef 0) "app.command" myapp_scoped))
  = lists myapp_scoped /\
  dicts (snd (container_has myapp_world 9 (CtxRef 0) "app.command" myapp_scoped))
  = dicts myapp_scoped /\
  objs (snd (container_has myapp_world 9 (CtxRef 0) "app.command" myapp_scoped))
  = objs myapp_scoped /\
  ctxs (snd (container_has myapp_world 9 (CtxRef 0) "app.command" myapp_scoped))
  = ctxs myapp_scoped /\
  instances (snd (container_has myapp_world 9 (CtxRef 0) "app.command" myapp_scoped))
  = instances myapp_scoped /\
  trace (snd (container_has myapp_world 9 (CtxRef 0) "app.command" myapp_scoped))
  = trace myapp_scoped.
Proof.
  apply (container_has_only_looks myapp_world 9 (CtxRef 0) "app.command" myapp_scoped
           (Ok true)).
  vm_compute. reflexivity.
Defined.

(** X2: The names a layered registry lists are, without duplicates, exactly the
    names of the flat registries found in it through any depth of layered
    registries; layers that are scopes or [None] add nothing, and the
    process is left as it was. *)
Theorem resources_names_flattens :
  forall W fuel cs s,
    forallb no_app cs = true ->
    tree_depth (StackContainer cs) <= fuel ->
    exists l,
      resources_names W fuel cs s = (Ok l, s) /\
      NoDup l /\
      forall n, In n l <-> In n (flat_map tree_names cs).
Proof. exact resources_names_tree. Qed.

Lemma resources_names_flattens_witness :
  exists l,
    resources_names [] 2 [L1; StackContainer [L2; Container [("j", RParameter VNone)]];
                          CtxRef 0; NoneRef] empty_state
    = (Ok l, empty_state) /\
    NoDup l /\
    forall n, In n l <->
              In n (flat_map tree_names
                      [L1; StackContainer [L2; Container [("j", RParameter VNone)]];
                       CtxRef 0; NoneRef]).
Proof.
  apply (resources_names_flattens [] 2).
  - reflexivity.
  - simpl. lia.
Defined.

(** X3: For a registry built from flat and layered registries alone, the names
    it lists are exactly the names [has] accepts. *)
Theorem resources_names_agree_with_has :
  forall W fuel cs s,
    forallb pure_tree cs = true ->
    tree_depth (StackContainer cs) < fuel ->
    exists l,
      resources_names W fuel cs s = (Ok l, s) /\
      forall n, In n l <-> container_has W fuel (StackContainer cs) n s = (Ok true, s).
Proof.
  intros W fuel cs s Hp Hd.
  destruct (resources_names_tree W fuel cs s) as (l & Hl & _ & Hin).
  - rewrite forallb_forall in *. intros c Hc. apply pure_tree_no_app. apply Hp. exact Hc.
  - lia.
  - exists l. split; [exact Hl|]. intros n.
    rewrite container_has_tree by assumption.
    rewrite Hin.
    pose proof (tree_has_names n (StackContainer cs)) as Ht.
    change (tree_names (StackContainer cs)) with (flat_map tree_names cs) in Ht.
    split.
    + intros H. apply Ht in H.
      replace (tree_has n (StackContainer cs)) with true by (symmetry; exact H).
      reflexivity.
    + intros H. apply Ht. injection H as H. exact H.
Qed.

Lemma resources_names_agree_with_has_witness :
  exists l,
    resources_names [] 3 [L1; StackContainer [L2; Container [("j", RParameter VNone)]]]
                    empty_state
    = (Ok l, empty_state) /\
    forall n, In n l <->
              container_has [] 3
                (StackContainer [L1; StackContainer [L2; Container [("j", RParameter VNone)]]])
                n empty_state
              = (Ok true, empty_state).
Proof.
  apply (resources_names_agree_with_has [] 3).
  - reflexivity.
  - simpl. lia.
Defined.

(** X4: In a registry built from flat and layered registries alone, a name that
    [has] accepts is resolved from the most recently appended layer that has
    it, at every level of nesting; the layers below it are not consulted,
    and the lookup itself leaves the process as it was. *)
Theorem container_get_most_recent_layer {RE : re_module} :
  forall W fuel c name s,
    pure_tree c = true -> tree_depth c < fuel ->
    tree_has name c = true ->
    exists k r,
      tree_find name c = Some (k, r) /\
      container_get W fuel c name s
      = resource_resolve W (ContextWrapper_get W (fuel - S k))
                         (ContextWrapper_find W (fuel - S k)) (fuel - S k) r s.
Proof.
  intros W fuel c name s Hp Hd Hh.
  destruct (tree_find name c) as [[k r]|] eqn:E.
  - exists k, r. split; [reflexivity|]. apply container_get_tree_find; assumption.
  - exfalso. revert E. apply tree_find_total; assumption.
Qed.

Lemma container_get_most_recent_layer_witness :
  exists k r,
    tree_find "k" (StackContainer [StackContainer [L2]; StackContainer [L1; Container []]])
    = Some (k, r) /\
    container_get [] 4 (StackContainer [StackContainer [L2]; StackContainer [L1; Container []]])
                  "k" empty_state
    = resource_resolve [] (ContextWrapper_get [] (4 - S k)) (ContextWrapper_find [] (4 - S k))
                       (4 - S k) r empty_state.
Proof.
  apply (container_get_most_recent_layer [] 4).
  - reflexivity.
  - simpl. lia.
  - reflexivity.
Defined.

(** X5: In such a registry a name that no layer has is answered with the error
    of the first layer, all the way down: "name not in container" from a
    flat registry, [IndexError] from a layered registry without layers; the
    process is left as it was. *)
Theorem container_get_missing_name {RE : re_module} :
  forall W fuel c name s,
    pure_tree c = true -> tree_depth c < fuel ->
    tree_has name c = false ->
    container_get W fuel c name s = (Raise (tree_miss name c), s).
Proof. exact container_get_tree_miss. Qed.

Lemma container_get_missing_name_witness :
  container_get [] 3 (StackContainer [StackContainer [L1; L2]; StackContainer []])
                "absent" empty_state
  = (Raise (ContainerException "absent not in container"), empty_state).
Proof.
  apply (container_get_missing_name [] 3).
  - reflexivity.
  - simpl. lia.
  - reflexivity.
Defined.

(** ** The registry of the application container *)

Lemma import_all :
  forall W ms stack s,
    first_missing W ms = None ->
    foldM (fun stack module =>
             mi <- import_module W module ;;
             match mod_container mi with
             | Some mc => ret (stack ++ [mc])
             | None => ret stack
             end) ms stack s
    = (Ok (stack ++ module_containers W ms), s).
Proof.
  intros W. induction ms as [|m ms IH]; intros stack s H; simpl in *.
  - rewrite app_nil_r. reflexivity.
  - unfold bind at 1. unfold import_module at 1.
    destruct (lookup_module W m) as [mi|]; [|discriminate].
    unfold bind, ret. destruct (mod_container mi) as [mc|].
    + rewrite IH by exact H. rewrite <- app_assoc. reflexivity.
    + apply IH. exact H.
Qed.

Lemma import_first_missing :
  forall W ms bad stack s,
    first_missing W ms = Some bad ->
    foldM (fun stack module =>
             mi <- import_module W module ;;
             match mod_container mi with
             | Some mc => ret (stack ++ [mc])
             | None => ret stack
             end) ms stack s
    = (Raise (import_error bad), s).
Proof.
  intros W. induction ms as [|m ms IH]; intros bad stack s H; simpl in *.
  - discriminate.
  - unfold bind at 1. unfold import_module at 1.
    destruct (lookup_module W m) as [mi|].
    + unfold bind, ret. destruct (mod_container mi) as [mc|]; apply IH; exact H.
    + injection H as <-. reflexivity.
Qed.

Lemma ApplicationContainer_container_build :
  forall W s m c ms,
    app_instance s = Some (mkApp None (Some m) (Some c)) ->
    nth_error (lists s) m = Some ms ->
    first_missing W ms = None ->
    ApplicationContainer_container W s
    = (Ok (StackContainer (app_base m c :: module_containers W ms)),
       set_app_instance
         (Some (mkApp (Some (StackContainer (app_base m c :: module_containers W ms)))
                      (Some m) (Some c))) s).
Proof.
  intros W s m c ms Ha Hl Hm.
  unfold ApplicationContainer_container, read_app, read_list.
  unfold bind at 1. unfold bind at 1. unfold gets at 1. rewrite Ha. simpl.
  unfold bind at 1. unfold ret at 1.
  unfold bind at 1. unfold ret at 1.
  unfold bind at 1. unfold bind at 1. unfold gets at 1. rewrite Hl. simpl.
  unfold bind at 1. rewrite import_all by exact Hm. reflexivity.
Qed.

Lemma ApplicationContainer_container_built :
  forall W s reg m c,
    app_instance s = Some (mkApp (Some reg) m c) ->
    ApplicationContainer_container W s = (Ok reg, s).
Proof.
  intros W s reg m c Ha. unfold ApplicationContainer_container, read_app. munfold.
  rewrite Ha. reflexivity.
Qed.

(** X6: The application container builds its registry at the first access, when
    every module of its list can be imported: first the registry of
    [app.modules] and [app.configuration], then the registries of the modules
    that have one, in the order of the list.  From then on every access
    answers that registry and changes nothing, whatever happens to the module
    list. *)
Theorem ApplicationContainer_container_builds_once :
  forall W s m c ms,
    app_instance s = Some (mkApp None (Some m) (Some c)) ->
    nth_error (lists s) m = Some ms ->
    first_missing W ms = None ->
    exists reg s1,
      reg = StackContainer (app_base m c :: module_containers W ms) /\
      ApplicationContainer_container W s = (Ok reg, s1) /\
      lists s1 = lists s /\ dicts s1 = dicts s /\ objs s1 = objs s /\ trace s1 = trace s /\
      ApplicationContainer_container W s1 = (Ok reg, s1) /\
      forall l', ApplicationContainer_container W (set_lists l' s1)
                 = (Ok reg, set_lists l' s1).
Proof.
  intros W s m c ms Ha Hl Hm.
  eexists. eexists. split; [reflexivity|].
  split; [apply ApplicationContainer_container_build; eassumption|].
  split; [reflexivity|]. split; [reflexivity|].
  split; [reflexivity|]. split; [reflexivity|].
  split; [eapply ApplicationContainer_container_built; reflexivity|].
  intros l'. eapply ApplicationContainer_container_built. reflexivity.
Qed.

Lemma ApplicationContainer_container_builds_once_witness :
  exists reg s1,
    reg = StackContainer (app_base 0 0 :: module_containers myapp_world ["myapp"; "logos"]) /\
    ApplicationContainer_container myapp_world myapp_started = (Ok reg, s1) /\
    lists s1 = lists myapp_started /\ dicts s1 = dicts myapp_started /\
    objs s1 = objs myapp_started /\ trace s1 = trace myapp_started /\
    ApplicationContainer_container myapp_world s1 = (Ok reg, s1) /\
    forall l', ApplicationContainer_container myapp_world (set_lists l' s1)
               = (Ok reg, set_lists l' s1).
Proof.
  apply (ApplicationContainer_container_builds_once myapp_world myapp_started 0 0
           ["myapp"; "logos"]).
  - reflexivity.
  - reflexivity.
  - reflexivity.
Defined.

(** X7: When [import_module] finds no module for a name of the list, the
    access fails with the error of the first such name
    ([ModuleNotFoundError] naming it; [ValueError] for the empty name and
    [TypeError] for a relative one), and the registry stays unbuilt: the
    process is exactly as before, so a later access tries again. *)
Theorem ApplicationContainer_container_import_error :
  forall W s m c ms bad,
    app_instance s = Some (mkApp None (Some m) (Some c)) ->
    nth_error (lists s) m = Some ms ->
    first_missing W ms = Some bad ->
    ApplicationContainer_container W s = (Raise (import_error bad), s) /\
    (bad = EmptyString -> import_error bad = ValueError "Empty module name") /\
    (forall rest, bad = String "."%char rest -> exists msg, import_error bad = TypeError msg) /\
    (forall c0 rest, bad = String c0 rest -> c0 <> "."%char ->
                     import_error bad = ModuleNotFoundError bad).
Proof.
  intros W s m c ms bad Ha Hl Hm.
  unfold ApplicationContainer_container, read_app, read_list.
  unfold bind at 1. unfold bind at 1. unfold gets at 1. rewrite Ha. simpl.
  unfold bind at 1. unfold ret at 1.
  unfold bind at 1. unfold ret at 1.
  unfold bind at 1. unfold bind at 1. unfold gets at 1. rewrite Hl. simpl.
  unfold bind at 1. rewrite (import_first_missing _ _ bad) by exact Hm.
  split; [reflexivity|]. split; [intros ->; reflexivity|].
  split; [intros rest ->; eexists; reflexivity|].
  intros c0 rest -> Hc. unfold import_error.
  destruct (Ascii.eqb_spec c0 "."%char) as [->|_]; [contradiction|].
  destruct c0 as [[] [] [] [] [] [] [] []]; try reflexivity. contradiction.
Qed.

Lemma ApplicationContainer_container_import_error_witness :
  ApplicationContainer_container logos_modules myapp_started
  = (Raise (ModuleNotFoundError "myapp"), myapp_started).
Proof.
  apply (ApplicationContainer_container_import_error logos_modules myapp_started 0 0
           ["myapp"; "logos"] "myapp").
  - reflexivity.
  - reflexivity.
  - reflexivity.
Defined.

Lemma module_containers_app :
  forall W a b, module_containers W (a ++ b) = module_containers W a ++ module_containers W b.
Proof.
  intros W. induction a as [|m a IH]; intros b; simpl.
  - reflexivity.
  - destruct (lookup_module W m) as [mi|]; [|apply IH].
    destruct (mod_container mi); [simpl; rewrite IH; reflexivity | apply IH].
Qed.

(** X8: The framework's resources win: after [ApplicationContainer(modules)],
    whatever registries the modules of the caller contribute, a name that
    the registry of the module [logos] holds is resolved, through the
    application container, from that registry. *)
Theorem framework_resources_win {RE : re_module} :
  forall W f s m c ms mi rs name r s0,
    app_instance s = None ->
    nth_error (lists s) m = Some ms ->
    match c with Some x => x < List.length (dicts s) | None => True end ->
    first_missing W (ms ++ ["logos"]) = None ->
    dict_get "logos" W = Some mi ->
    mod_container mi = Some (Container rs) ->
    dict_get name rs = Some r ->
    ApplicationContainer_call m c s = (Ok tt, s0) ->
    exists cfg s1,
      ApplicationContainer_container W s0
      = (Ok (StackContainer (app_base m cfg :: module_containers W ms ++ [Container rs])),
         s1) /\
      container_get W (S (S (S f))) AppRef name s0
      = resource_resolve W (ContextWrapper_get W f) (ContextWrapper_find W f) f r s1.
Proof.
  intros W f s m c ms mi rs name r s0 Hn Hl Hc Hm Hw Hmc Hr Hcall.
  destruct (call_first s m c ms Hn Hl Hc) as (s0' & cfg & Hcall' & Hinst & Hlists).
  rewrite Hcall in Hcall'. injection Hcall' as <-.
  assert (Hl0 : nth_error (lists s0) m = Some (ms ++ ["logos"])).
  { rewrite Hlists. eapply nth_error_list_update_eq; eauto. }
  pose proof (ApplicationContainer_container_build W s0 m cfg _ Hinst Hl0 Hm) as Hb.
  rewrite module_containers_app in Hb. simpl module_containers in Hb.
  change (lookup_module W "logos") with (dict_get "logos" W) in Hb.
  rewrite Hw, Hmc in Hb.
  exists cfg. eexists. split; [exact Hb|].
  rewrite container_get_app. unfold bind. rewrite Hb.
  rewrite container_get_stack.
  change (app_base m cfg :: module_containers W ms ++ [Container rs])
    with ((app_base m cfg :: module_containers W ms) ++ [Container rs]).
  erewrite StackContainer_get_first_hit.
  - rewrite container_get_flat. rewrite Hr. reflexivity.
  - simpl. constructor.
  - rewrite container_has_flat. rewrite (dict_mem_get _ _ _ _ Hr). reflexivity.
Qed.

Lemma framework_resources_win_witness :
  exists cfg s1,
    ApplicationContainer_container myapp_world myapp_started
    = (Ok (StackContainer
             (app_base 0 cfg :: module_containers myapp_world ["myapp"]
                ++ [Container
                      [("groups.commands", RResourceGroup "^app.command.");
                       ("app.command",
                        RService (mkService (Some "logos.command:DelegateCommand") None
                                            [("commands", VStr "%groups.commands%")]))]])),
       s1) /\
    container_get myapp_world 9 AppRef "groups.commands" myapp_started
    = resource_resolve myapp_world (ContextWrapper_get myapp_world 6)
                       (ContextWrapper_find myapp_world 6) 6
                       (RResourceGroup "^app.command.") s1.
Proof.
  apply (framework_resources_win myapp_world 6 (set_lists [["myapp"]] empty_state) 0 None
           ["myapp"] (mkModule (Some logos_container) [])).
  - reflexivity.
  - reflexivity.
  - exact I.
  - reflexivity.
  - reflexivity.
  - reflexivity.
  - reflexivity.
  - reflexivity.
Defined.

(** ** Scopes and the ambient accessor *)

Lemma Context_has_hit :
  forall W f self name s c v,
    nth_error (ctxs s) self = Some c ->
    dict_at s (ctx_runtime c) name = Some v ->
    Context_has W (S f) self name s = (Ok true, s).
Proof.
  intros W f self name s c v Hc Hv. rewrite Context_has_S.
  unfold dict_at in Hv.
  destruct (nth_error (dicts s) (ctx_runtime c)) as [d|] eqn:Ed; [|discriminate].
  unfold read_ctx, read_dict. munfold. rewrite Hc. simpl. rewrite Ed. simpl.
  rewrite (dict_mem_get _ _ _ _ Hv). reflexivity.
Qed.

Lemma Context_init_shape :
  forall c runtime s id s1,
    Context_init c runtime s = (Ok id, s1) ->
    exists rt,
      id = List.length (ctxs s) /\
      nth_error (ctxs s1) id
      = Some (mkContext (match c with StackContainer _ => c | _ => StackContainer [c] end) rt) /\
      nth_error (dicts s1) rt = Some (dict_arg runtime s) /\
      (forall r d, nth_error (dicts s) r = Some d -> nth_error (dicts s1) r = Some d) /\
      objs s1 = objs s /\ trace s1 = trace s /\
      match runtime with
      | Some r => match dict_arg runtime s with
                  | [] => rt = List.length (dicts s)
                  | _ :: _ => rt = r /\ dicts s1 = dicts s
                  end
      | None => rt = List.length (dicts s)
      end.
Proof.
  intros c runtime s id s1 H. unfold Context_init in H. unfold bind at 1 in H.
  set (c' := match c with StackContainer _ => c | _ => StackContainer [c] end).
  assert (H' : (rt <- dict_or_new runtime ;; alloc_ctx (fun _ => mkContext c' rt)) s
               = (Ok id, s1)).
  { destruct c; unfold ret, raise in H; try discriminate; exact H. }
  clear H. rename H' into H. unfold bind in H.
  destruct (dict_or_new runtime s) as [[rt|e|] sA] eqn:EA; try discriminate.
  destruct (dict_or_new_spec _ _ _ _ EA) as (A1 & A2 & A3 & A4).
  unfold alloc_ctx in H. munfold. simpl in H. injection H as <- <-.
  exists rt. rewrite A1. split; [reflexivity|]. simpl.
  split; [apply nth_error_snoc|].
  split; [exact A3|]. split; [exact A4|]. split; [exact A2|].
  split.
  { unfold dict_or_new, alloc_dict, read_dict in EA. munfold.
    destruct runtime as [r|].
    - destruct (nth_error (dicts s) r) as [[|kv d]|]; simpl in EA;
        try discriminate; injection EA as _ <-; reflexivity.
    - simpl in EA. injection EA as _ <-. reflexivity. }
  unfold dict_or_new, alloc_dict, read_dict, dict_arg in *. munfold.
  destruct runtime as [r|].
  - destruct (nth_error (dicts s) r) as [[|kv d]|]; simpl in EA; try discriminate.
    + injection EA as <- _. reflexivity.
    + injection EA as <- <-. auto.
  - simpl in EA. injection EA as <- _. reflexivity.
Qed.

(** X10: A runtime override wins over every registry: a scope built over a
    container object (not [None], which [Context] refuses) on a dict that
    holds a name answers [get] with the value of the dict and [has] with
    yes, whatever the registry holds, and neither touches the process. *)
Theorem Context_runtime_overrides {RE : re_module} :
  forall W f c r d name v s,
    c <> NoneRef ->
    nth_error (dicts s) r = Some d ->
    dict_get name d = Some v ->
    exists s1,
      Context_init c (Some r) s = (Ok (List.length (ctxs s)), s1) /\
      dicts s1 = dicts s /\
      Context_get W (S f) (List.length (ctxs s)) name s1 = (Ok v, s1) /\
      Context_has W (S f) (List.length (ctxs s)) name s1 = (Ok true, s1).
Proof.
  intros W f c r d name v s Hnone Hd Hv.
  destruct (Context_init c (Some r) s) as [[id|e|] s1] eqn:E.
  - destruct (Context_init_shape _ _ _ _ _ E) as (rt & -> & Hc & _ & _ & _ & _ & Hrt).
    simpl in Hrt. rewrite Hd in Hrt.
    destruct d as [|kv d]; [discriminate|]. destruct Hrt as [-> Hdicts].
    exists s1. split; [reflexivity|]. split; [exact Hdicts|].
    assert (Hat : dict_at s1 r name = Some v).
    { unfold dict_at. rewrite Hdicts, Hd. exact Hv. }
    split.
    + eapply Context_get_hit; [exact Hc | exact Hat].
    + eapply Context_has_hit; [exact Hc | exact Hat].
  - exfalso. unfold Context_init, dict_or_new, read_dict, alloc_ctx in E. munfold.
    destruct c; try contradiction; simpl in E;
      rewrite Hd in E; (destruct d; [discriminate|]); simpl in E; discriminate.
  - exfalso. unfold Context_init, dict_or_new, read_dict, alloc_ctx in E. munfold.
    destruct c; try contradiction; simpl in E;
      rewrite Hd in E; (destruct d; [discriminate|]); simpl in E; discriminate.
Qed.

Lemma Context_runtime_overrides_witness :
  exists s1,
    Context_init (Container [("request.id", RParameter (VInt 0))]) (Some 2) derive_ready
    = (Ok (List.length (ctxs derive_ready)), s1) /\
    dicts s1 = dicts derive_ready /\
    Context_get [] 1 (List.length (ctxs derive_ready)) "request.id" s1 = (Ok (VInt 7), s1) /\
    Context_has [] 1 (List.length (ctxs derive_ready)) "request.id" s1 = (Ok true, s1).
Proof.
  apply (Context_runtime_overrides [] 0 (Container [("request.id", RParameter (VInt 0))])
           2 [("request.id", VInt 7)]).
  - discriminate.
  - reflexivity.
  - reflexivity.
Defined.

(** X11: A scope built on a non-empty dict keeps that very dict as its cache:
    what the scope resolves is written into the caller's dict. *)
Theorem Context_caches_into_given_dict {RE : re_module} :
  forall W fuel c r kv d id name v s s1 s2,
    nth_error (dicts s) r = Some (kv :: d) ->
    Context_init c (Some r) s = (Ok id, s1) ->
    Context_get W fuel id name s1 = (Ok v, s2) ->
    dict_at s2 r name = Some v.
Proof.
  intros W fuel c r kv d id name v s s1 s2 Hd Hi Hg.
  destruct (Context_init_shape _ _ _ _ _ Hi) as (rt & _ & Hc & _ & _ & _ & _ & Hrt).
  simpl in Hrt. rewrite Hd in Hrt. destruct Hrt as [-> _].
  destruct (Context_get_caches _ _ _ _ _ _ _ Hg) as (c' & Hc' & Hv).
  pose proof (mono_Context_get W fuel id name s1 _ _ Hg) as Hext.
  rewrite (ext_ctxs _ _ Hext _ _ Hc) in Hc'. injection Hc' as <-. exact Hv.
Qed.

Lemma Context_caches_into_given_dict_witness :
  dict_at (snd (Context_get myapp_world 20 1 "app.command.test"
                  (snd (Context_init AppRef (Some 2) derive_ready))))
          2 "app.command.test"
  = Some (VObj 2).
Proof.
  apply (Context_caches_into_given_dict myapp_world 20 AppRef 2 ("request.id", VInt 7) []
           1 "app.command.test" (VObj 2) derive_ready
           (snd (Context_init AppRef (Some 2) derive_ready))).
  - reflexivity.
  - reflexivity.
  - vm_compute. reflexivity.
Defined.

Lemma list_index_none :
  forall x l, ~ In x l -> list_index x l = None.
Proof.
  induction l as [|y l IH]; intros H; simpl.
  - reflexivity.
  - destruct (Nat.eqb_spec x y) as [->|Hn].
    + exfalso. apply H. left. reflexivity.
    + rewrite IH; [reflexivity|]. intros Hin. apply H. right. exact Hin.
Qed.

(** X12: Leaving a scope that is not active fails with [ValueError] and leaves
    the active stack, and the whole process, as it was. *)
Theorem Context_exit_not_active :
  forall self s,
    ~ In self (active_stack s) ->
    Context_exit self s = (Raise (ValueError "is not in list"), s).
Proof.
  intros self s H. unfold Context_exit, active_stack in *. munfold.
  destruct (instances s) as [l|]; [|reflexivity].
  rewrite (list_index_none _ _ H). reflexivity.
Qed.

Lemma Context_exit_not_active_witness :
  Context_exit 5 two_scopes_active = (Raise (ValueError "is not in list"), two_scopes_active).
Proof.
  apply Context_exit_not_active. vm_compute. intuition discriminate.
Defined.

Lemma rev_snoc : forall (A : Type) (l : list A) x, rev (l ++ [x]) = x :: rev l.
Proof. intros A l x. rewrite rev_app_distr. reflexivity. Qed.

Lemma ContextWrapper_container_top :
  forall s rest top,
    active_stack s = rest ++ [top] ->
    ContextWrapper_container s
    = (Ok top,
       match wrapper_stack s with
       | Some _ => s
       | None =>
           set_wrapper_stack
             (Some (StackContainer
                      [match app_instance s with Some _ => AppRef | None => NoneRef end])) s
       end).
Proof.
  intros s rest top H. unfold active_stack in H.
  unfold ContextWrapper_container. munfold.
  destruct (wrapper_stack s) as [k|]; simpl; rewrite H, rev_snoc; reflexivity.
Qed.

(** X13: Inside [with scope:] the ambient accessor is that scope: once a scope is
    entered, [context.get] and [context.has] are its [get] and [has], and the
    accessor builds no scope of its own. *)
Theorem ContextWrapper_delegates_to_entered_scope {RE : re_module} :
  forall W f name self s s1,
    Context_enter self s = (Ok tt, s1) ->
    exists s2,
      ContextWrapper_container s1 = (Ok self, s2) /\
      ctxs s2 = ctxs s /\ dicts s2 = dicts s /\ objs s2 = objs s /\
      instances s2 = Some (active_stack s ++ [self]) /\
      ContextWrapper_get W (S f) name s1 = Context_get W f self name s2 /\
      ContextWrapper_has W f name s1 = Context_has W f self name s2.
Proof.
  intros W f name self s s1 He.
  destruct (Context_enter_spec self s) as (s1' & He' & Hi).
  rewrite He in He'. injection He' as <-.
  assert (Ha : active_stack s1 = active_stack s ++ [self]).
  { unfold active_stack at 1. rewrite Hi. reflexivity. }
  pose proof (ContextWrapper_container_top s1 _ _ Ha) as Hc.
  assert (Hs : ctxs s1 = ctxs s /\ dicts s1 = dicts s /\ objs s1 = objs s).
  { unfold Context_enter in He. munfold.
    destruct (instances s); simpl in He; injection He as <-; auto. }
  destruct Hs as (H1 & H2 & H3).
  eexists. split; [exact Hc|].
  split; [destruct (wrapper_stack s1); simpl; exact H1|].
  split; [destruct (wrapper_stack s1); simpl; exact H2|].
  split; [destruct (wrapper_stack s1); simpl; exact H3|].
  split; [destruct (wrapper_stack s1); simpl; exact Hi|].
  split.
  - rewrite ContextWrapper_get_S. unfold bind. rewrite Hc. reflexivity.
  - unfold ContextWrapper_has, bind. rewrite Hc. reflexivity.
Qed.

Lemma ContextWrapper_delegates_to_entered_scope_witness :
  exists s2,
    ContextWrapper_container (snd (Context_enter 0 myapp_scoped)) = (Ok 0, s2) /\
    ctxs s2 = ctxs myapp_scoped /\ dicts s2 = dicts myapp_scoped /\
    objs s2 = objs myapp_scoped /\
    instances s2 = Some (active_stack myapp_scoped ++ [0]) /\
    ContextWrapper_get myapp_world 9 "app.command" (snd (Context_enter 0 myapp_scoped))
    = Context_get myapp_world 8 0 "app.command" s2 /\
    ContextWrapper_has myapp_world 8 "app.command" (snd (Context_enter 0 myapp_scoped))
    = Context_has myapp_world 8 0 "app.command" s2.
Proof.
  apply (ContextWrapper_delegates_to_entered_scope myapp_world 8 "app.command" 0
           myapp_scoped).
  reflexivity.
Defined.

(** X14: Placeholders are resolved in the innermost active scope, whichever
    registry holds the parameter: a runtime override of that scope is what
    [%name%] stands for, and the resolution leaves caches, instances and
    scopes as they were. *)
Theorem placeholders_see_active_scope {RE : re_module} :
  forall W f rs name x v self c rest s,
    dict_get name rs = Some (RParameter (VStr ("%" ++ x ++ "%"))) ->
    no_percent x = true ->
    active_stack s = rest ++ [self] ->
    nth_error (ctxs s) self = Some c ->
    dict_at s (ctx_runtime c) x = Some v ->
    plain v = true -> depth v < S f ->
    exists s',
      container_get W (S (S (S f))) (Container rs) name s = (Ok v, s') /\
      dicts s' = dicts s /\ objs s' = objs s /\ ctxs s' = ctxs s /\ trace s' = trace s.
Proof.
  intros W f rs name x v self c rest s Hr Hx Ha Hc Hv Hp Hd.
  pose proof (ContextWrapper_container_top s rest self Ha) as Ht.
  match type of Ht with _ = (_, ?t) => set (s' := t) in * end.
  assert (Hs' : dicts s' = dicts s /\ objs s' = objs s /\ ctxs s' = ctxs s /\
                trace s' = trace s).
  { unfold s'. destruct (wrapper_stack s); simpl; auto. }
  destruct Hs' as (E1 & E2 & E3 & E4).
  exists s'. split; [|auto].
  rewrite container_get_flat, Hr. unfold resource_resolve.
  rewrite Parameter_resolve_value_S.
  pose proof (is_placeholder_wrap x) as Hph. unfold is_placeholder in Hph. rewrite Hph.
  rewrite replace_percent_wrap, (replace_percent_no_percent _ Hx).
  unfold bind. rewrite ContextWrapper_get_S. unfold bind. rewrite Ht.
  rewrite (Context_get_hit W f self x s' c v).
  - apply Parameter_resolve_value_plain; assumption.
  - rewrite E3. exact Hc.
  - unfold dict_at in *. rewrite E1. exact Hv.
Qed.

Lemma placeholders_see_active_scope_witness :
  exists s',
    container_get [] 3 (Container [("rid", RParameter (VStr ("%" ++ "request.id" ++ "%")))])
                  "rid"
                  (exec_ops [] [OpNewContext (StackContainer [NoneRef]) (Some 2); OpEnter 1] derive_ready)
    = (Ok (VInt 7), s') /\
    dicts s' = dicts (exec_ops [] [OpNewContext (StackContainer [NoneRef]) (Some 2); OpEnter 1] derive_ready) /\
    objs s' = objs (exec_ops [] [OpNewContext (StackContainer [NoneRef]) (Some 2); OpEnter 1] derive_ready) /\
    ctxs s' = ctxs (exec_ops [] [OpNewContext (StackContainer [NoneRef]) (Some 2); OpEnter 1] derive_ready) /\
    trace s' = trace (exec_ops [] [OpNewContext (StackContainer [NoneRef]) (Some 2); OpEnter 1] derive_ready).
Proof.
  apply (placeholders_see_active_scope [] 0
           [("rid", RParameter (VStr ("%" ++ "request.id" ++ "%")))] "rid" "request.id"
           (VInt 7) 1 (mkContext (StackContainer [NoneRef]) 2) []).
  - reflexivity.
  - reflexivity.
  - reflexivity.
  - reflexivity.
  - reflexivity.
  - reflexivity.
  - simpl. lia.
Defined.

Lemma Context_new_from_shape :
  forall W context runtime container s child s1 p,
    Context_new_from W context runtime container s = (Ok child, s1) ->
    nth_error (ctxs s) context = Some p ->
    exists rt d,
      nth_error (ctxs s1) child
      = Some (mkContext (StackContainer
                           (ctx_container p
                              :: match container with Some x => [x] | None => [] end)) rt) /\
      nth_error (dicts s1) rt = Some d.
Proof.
  intros W context runtime container s child s1 p H Hp.
  unfold Context_new_from in H.
  unfold bind at 1 in H. unfold read_ctx in H. munfold. rewrite Hp in H. simpl in H.
  destruct (dict_or_new runtime s) as [[rt|e|] sA]; try discriminate.
  destruct (read_dict (ctx_runtime p) sA) as [[items|e|] sA']; try discriminate.
  destruct (forM_ items (new_from_item W rt) sA') as [[[]|e|] sB]; try discriminate.
  destruct (Context_init_shape _ _ _ _ _ H) as (crt & _ & Hc & Hd & _).
  exists crt. eexists. split; [|exact Hd].
  rewrite Hc. destruct container; reflexivity.
Qed.

(** X15: The extra registry given to [new_from] shadows the parent's registry: a
    name it binds, when the derived scope has not been seeded with it, is
    resolved from the extra registry and cached in the derived scope,
    whatever the parent's registry says about the name. *)
Theorem new_from_extra_registry_shadows {RE : re_module} :
  forall W f context runtime rs s child s1 p name v,
    Context_new_from W context runtime (Some (Container rs)) s = (Ok child, s1) ->
    nth_error (ctxs s) context = Some p ->
    (forall c', nth_error (ctxs s1) child = Some c' ->
                dict_at s1 (ctx_runtime c') name = None) ->
    dict_get name rs = Some (RParameter v) ->
    plain v = true -> depth v < f ->
    exists c' s2,
      nth_error (ctxs s1) child = Some c' /\
      ctx_container c' = StackContainer [ctx_container p; Container rs] /\
      Context_get W (S (S (S f))) child name s1 = (Ok v, s2) /\
      dict_at s2 (ctx_runtime c') name = Some v /\
      objs s2 = objs s1 /\ trace s2 = trace s1 /\ ctxs s2 = ctxs s1.
Proof.
  intros W f context runtime rs s child s1 p name v H Hp Hfresh Hr Hpl Hd.
  destruct (Context_new_from_shape _ _ _ _ _ _ _ _ H Hp) as (rt & d & Hc & Hdict).
  specialize (Hfresh _ Hc). simpl in Hfresh.
  eexists. exists (set_dicts (list_update rt (dict_set name v d) (dicts s1)) s1).
  split; [exact Hc|]. split; [reflexivity|]. simpl ctx_runtime.
  assert (Hget : container_get W (S (S f)) (StackContainer [ctx_container p; Container rs])
                               name s1 = (Ok v, s1)).
  { rewrite container_get_stack.
    rewrite (StackContainer_get_first_hit _ _ _ _ [ctx_container p] (Container rs) []
               s1 s1 s1).
    - rewrite container_get_flat, Hr. unfold resource_resolve.
      apply Parameter_resolve_value_plain; assumption.
    - simpl. constructor.
    - rewrite container_has_flat. rewrite (dict_mem_get _ _ _ _ Hr). reflexivity. }
  assert (Hmem : dict_mem name d = false).
  { unfold dict_at in Hfresh. rewrite Hdict in Hfresh. unfold dict_mem.
    rewrite Hfresh. reflexivity. }
  split; [|split; [|split; [reflexivity | split; reflexivity]]].
  - rewrite Context_get_S. unfold dict_setitem, read_ctx, read_dict. munfold.
    rewrite Hc. simpl. rewrite Hdict. simpl. rewrite Hmem. rewrite Hget. simpl.
    rewrite Hdict. simpl. rewrite (nth_error_list_update_eq _ _ _ _ _ Hdict). simpl.
    rewrite dict_get_set_eq. reflexivity.
  - unfold dict_at. simpl. rewrite (nth_error_list_update_eq _ _ _ _ _ Hdict).
    apply dict_get_set_eq.
Qed.

Lemma new_from_extra_registry_shadows_witness :
  exists c' s2,
    nth_error (ctxs (snd (Context_new_from myapp_world 0 None
                            (Some (Container [("app.command.test",
                                               RParameter (VStr "stub"))]))
                            derive_ready))) 1 = Some c' /\
    ctx_container c'
    = StackContainer [ctx_container (mkContext (StackContainer [AppRef]) 1);
                      Container [("app.command.test", RParameter (VStr "stub"))]] /\
    Context_get myapp_world 4 1 "app.command.test"
      (snd (Context_new_from myapp_world 0 None
              (Some (Container [("app.command.test", RParameter (VStr "stub"))]))
              derive_ready))
    = (Ok (VStr "stub"), s2) /\
    dict_at s2 (ctx_runtime c') "app.command.test" = Some (VStr "stub") /\
    objs s2 = objs (snd (Context_new_from myapp_world 0 None
                           (Some (Container [("app.command.test",
                                              RParameter (VStr "stub"))]))
                           derive_ready)) /\
    trace s2 = trace (snd (Context_new_from myapp_world 0 None
                             (Some (Container [("app.command.test",
                                                RParameter (VStr "stub"))]))
                             derive_ready)) /\
    ctxs s2 = ctxs (snd (Context_new_from myapp_world 0 None
                           (Some (Container [("app.command.test",
                                              RParameter (VStr "stub"))]))
                           derive_ready)).
Proof.
  apply (new_from_extra_registry_shadows myapp_world 1 0 None
           [("app.command.test", RParameter (VStr "stub"))] derive_ready 1
           (snd (Context_new_from myapp_world 0 None
                   (Some (Container [("app.command.test", RParameter (VStr "stub"))]))
                   derive_ready))
           (mkContext (StackContainer [AppRef]) 1) "app.command.test" (VStr "stub")).
  - vm_compute. reflexivity.
  - reflexivity.
  - intros c' Hc'. vm_compute in Hc'. injection Hc' as <-. vm_compute. reflexivity.
  - reflexivity.
  - reflexivity.
  - simpl. lia.
Defined.



(** ** Services and classes *)

Lemma split_colon_aux_length :
  forall s cur, List.length (split_colon_aux cur s) = S (count_colons s).
Proof.
  induction s as [|c s IH]; intros cur; simpl.
  - reflexivity.
  - destruct (Ascii.eqb c ":"%char); simpl; rewrite IH; reflexivity.
Qed.

Lemma load_class_state :
  forall W p s r s', load_class W p s = (r, s') -> s' = s.
Proof.
  intros W p s r s' H. unfold load_class, import_module in H. munfold.
  destruct (split_colon p) as [|a [|b [|c l]]]; try (injection H as _ <-; reflexivity).
  destruct (lookup_module W a) as [m|]; [|injection H as _ <-; reflexivity].
  destruct (module_getattr m b); injection H as _ <-; reflexivity.
Qed.

Lemma load_class_ok :
  forall W p ci s, class_info_of W p = Some ci -> load_class W p s = (Ok (AttrClass ci), s).
Proof.
  intros W p ci s H. unfold load_class, class_info_of, import_module in *. munfold.
  destruct (split_colon p) as [|a [|b [|c l]]]; try discriminate.
  destruct (lookup_module W a) as [m|]; [|discriminate].
  destruct (module_getattr m b) as [[ci'|c']|]; try discriminate.
  injection H as ->. reflexivity.
Qed.

(** A path that names no class names the registry of a module or fails to
    load. *)
Lemma load_class_no_class :
  forall W p s,
    class_info_of W p = None ->
    (exists c, load_class W p s = (Ok (AttrContainer c), s)) \/
    (exists e, load_class W p s = (Raise e, s)).
Proof.
  intros W p s H. unfold load_class, class_info_of, import_module in *. munfold.
  destruct (split_colon p) as [|a [|b [|c l]]]; eauto.
  destruct (lookup_module W a) as [m|]; eauto.
  destruct (module_getattr m b) as [[ci'|c']|]; eauto. discriminate.
Qed.

Lemma load_class_colons :
  forall W p s,
    count_colons p <> 1 -> exists msg, load_class W p s = (Raise (ValueError msg), s).
Proof.
  intros W p s H. unfold load_class. munfold.
  pose proof (split_colon_aux_length p EmptyString) as Hl. fold (split_colon p) in Hl.
  destruct (split_colon p) as [|a [|b [|c l]]]; eauto.
  simpl in Hl. exfalso. apply H. lia.
Qed.

Lemma load_class_parts :
  forall W p m name s,
    split_colon p = [m; name] ->
    load_class W p s
    = (match lookup_module W m with
       | None => Raise (import_error m)
       | Some mi =>
           match module_getattr mi name with
           | Some a => Ok a
           | None => Raise (AttributeError name)
           end
       end, s).
Proof.
  intros W p m name s H. unfold load_class, import_module. rewrite H. munfold.
  destruct (lookup_module W m) as [mi|]; [|reflexivity].
  destruct (module_getattr mi name); reflexivity.
Qed.

(** Calling what a path names, when it names no class, fails and changes
    nothing. *)
Lemma construct_no_class :
  forall W p kwargs s,
    class_info_of W p = None ->
    exists e, construct W p kwargs s = (Raise e, s) /\
              (count_colons p <> 1 -> exists msg, e = ValueError msg).
Proof.
  intros W p kwargs s H. unfold construct. unfold bind at 1.
  destruct (load_class_no_class W p s H) as [[c Hc]|[e He]].
  - rewrite Hc. eexists. split; [reflexivity|].
    intros Hn. destruct (load_class_colons W p s Hn) as [m Hm]. congruence.
  - rewrite He. exists e. split; [reflexivity|].
    intros Hn. destruct (load_class_colons W p s Hn) as [m Hm].
    rewrite Hm in He. injection He as <-. eauto.
Qed.

(** Interpolating a dict gives a dict. *)
Lemma Parameter_resolve_value_dict :
  forall get fuel d s v s1,
    Parameter_resolve_value get fuel (VDict d) s = (Ok v, s1) -> exists d', v = VDict d'.
Proof.
  intros get [|f] d s v s1 H; [discriminate|].
  rewrite Parameter_resolve_value_S in H. unfold bind in H.
  match type of H with
  | context [mapM ?g d s] => destruct (mapM g d s) as [[d'|e|] s'']
  end; try discriminate.
  injection H as <- _. eauto.
Qed.

(** The call that a service makes once its parameters are interpolated. *)
Lemma Service_resolve_after_parameters :
  forall W get fuel svc st kw st1,
    Parameter_resolve_value get fuel (VDict (parameters svc)) st = (Ok (VDict kw), st1) ->
    Service_resolve W get fuel svc st
    = match factory svc with
      | Some fname => (fac <- get fname ;; create W fac kw) st1
      | None =>
          match klz svc with
          | Some path => construct W path kw st1
          | None => (Raise (TypeError "'NoneType' object is not callable"), st1)
          end
      end.
Proof.
  intros W get fuel svc st kw st1 H. unfold Service_resolve. unfold bind at 1.
  rewrite H. unfold bind at 1. unfold ret at 1.
  destruct (factory svc); [reflexivity|]. destruct (klz svc); reflexivity.
Qed.

(** X18: [Class.resolve] answers the attribute that the path names in its
    module, itself: for a class the class object, not an instance of it.  It
    builds nothing and leaves the process as it was.  A path that is not
    made of two parts around one colon fails with [ValueError], a module
    that is not found with the error of the import, a name that the module
    has not with [AttributeError]. *)
Theorem Class_resolve_spec :
  forall W p s,
    exists r,
      Class_resolve W p s = (r, s) /\
      (class_info_of W p <> None -> r = Ok (VClass p)) /\
      (forall v, r = Ok v -> v = VClass p \/ v = VAttr p) /\
      (count_colons p <> 1 -> exists msg, r = Raise (ValueError msg)) /\
      (forall m name,
          split_colon p = [m; name] ->
          match lookup_module W m with
          | None => r = Raise (import_error m)
          | Some mi =>
              match module_getattr mi name with
              | Some (AttrClass _) => r = Ok (VClass p)
              | Some (AttrContainer _) => r = Ok (VAttr p)
              | None => r = Raise (AttributeError name)
              end
          end).
Proof.
  intros W p s. unfold Class_resolve, bind.
  destruct (load_class W p s) as [[a|e|] s'] eqn:E;
    pose proof (load_class_state _ _ _ _ _ E) as ->.
  - eexists. split; [reflexivity|]. split; [|split; [|split]].
    + intros Hn. destruct (class_info_of W p) as [ci|] eqn:Ec; [|congruence].
      rewrite (load_class_ok _ _ _ s Ec) in E. injection E as <-. reflexivity.
    + intros v Hv. injection Hv as <-. destruct a; auto.
    + intros Hc. destruct (load_class_colons W p s Hc) as [m Hm]. congruence.
    + intros m name Hs. rewrite (load_class_parts _ _ _ _ s Hs) in E.
      destruct (lookup_module W m) as [mi|]; [|discriminate].
      destruct (module_getattr mi name) as [a'|]; [|discriminate].
      injection E as ->. destruct a; reflexivity.
  - exists (Raise e). split; [reflexivity|]. split; [|split; [|split]].
    + intros Hn. destruct (class_info_of W p) as [ci|] eqn:Ec; [|congruence].
      rewrite (load_class_ok _ _ _ s Ec) in E. discriminate.
    + intros v Hv. discriminate.
    + intros Hc. destruct (load_class_colons W p s Hc) as [m Hm].
      rewrite Hm in E. injection E as <-. eauto.
    + intros m name Hs. rewrite (load_class_parts _ _ _ _ s Hs) in E.
      destruct (lookup_module W m) as [mi|]; [|injection E as <-; reflexivity].
      destruct (module_getattr mi name) as [a'|]; [discriminate|].
      injection E as <-. reflexivity.
  - exfalso. unfold load_class, import_module in E. munfold.
    destruct (split_colon p) as [|a [|b [|c l]]]; try discriminate.
    destruct (lookup_module W a) as [m|]; [|discriminate].
    destruct (module_getattr m b); discriminate.
Qed.

Lemma Class_resolve_spec_witness :
  exists r,
    Class_resolve myapp_world "myapp:Build" myapp_started = (r, myapp_started) /\
    r = Ok (VClass "myapp:Build").
Proof.
  destruct (Class_resolve_spec myapp_world "myapp:Build" myapp_started)
    as (r & Hr & Hok & _).
  exists r. split; [exact Hr|]. apply Hok. discriminate.
Defined.

(** The registry that the module [logos] holds under [container] is an
    attribute like another: [Class('logos:container')] answers it. *)
Example Class_resolve_registry_attribute :
  Class_resolve logos_modules "logos:container" empty_state
  = (Ok (VAttr "logos:container"), empty_state).
Proof. reflexivity. Qed.

(** X19: A service declared by class is resolved, once its parameters are
    interpolated, by one call of the class on exactly the interpolated
    parameters: when the constructor takes them, one new instance, one
    construction, and nothing else changes; when the constructor raises,
    that error, and nothing is built. *)
Theorem Service_resolve_constructs :
  forall W get fuel svc path ci st kw st1,
    klz svc = Some path -> factory svc = None ->
    class_info_of W path = Some ci ->
    Parameter_resolve_value get fuel (VDict (parameters svc)) st = (Ok (VDict kw), st1) ->
    Service_resolve W get fuel svc st
    = match cls_init ci kw with
      | None =>
          (Ok (VObj (List.length (objs st1))),
           set_objs (objs st1 ++ [mkObj path kw])
                    (set_trace (trace st1 ++ [EvConstruct path kw]) st1))
      | Some e => (Raise e, st1)
      end.
Proof.
  intros W get fuel svc path ci st kw st1 Hk Hf Hci Hp.
  rewrite (Service_resolve_after_parameters _ _ _ _ _ _ _ Hp). rewrite Hf, Hk.
  unfold construct. unfold bind at 1. rewrite (load_class_ok _ _ _ st1 Hci).
  destruct (cls_init ci kw); reflexivity.
Qed.

Lemma Service_resolve_constructs_witness :
  Service_resolve myapp_world (ContextWrapper_get myapp_world 5) 2
                  (mkService (Some "myapp:Build") None [("level", VInt 3)]) myapp_started
  = (Ok (VObj (List.length (objs myapp_started))),
     set_objs (objs myapp_started ++ [mkObj "myapp:Build" [("level", VInt 3)]])
              (set_trace (trace myapp_started
                            ++ [EvConstruct "myapp:Build" [("level", VInt 3)]])
                         myapp_started)).
Proof.
  apply (Service_resolve_constructs myapp_world (ContextWrapper_get myapp_world 5) 2
           (mkService (Some "myapp:Build") None [("level", VInt 3)]) "myapp:Build"
           (mkClass true None) myapp_started [("level", VInt 3)] myapp_started).
  - reflexivity.
  - reflexivity.
  - reflexivity.
  - reflexivity.
Defined.

(** The command of the framework takes the keyword [commands] and no
    other: declared without parameters it cannot be built. *)
Example DelegateCommand_requires_commands :
  exists msg,
    Service_resolve logos_modules (ContextWrapper_get logos_modules 5) 2
                    (mkService (Some "logos.command:DelegateCommand") None []) empty_state
    = (Raise (TypeError msg), empty_state).
Proof. eexists. reflexivity. Qed.

(** X20: A service whose class path names no class fails once its parameters
    have been interpolated, with the error of loading the path or of calling
    what it names, and builds no instance of its own: the process is as the
    interpolation left it. *)
Theorem Service_resolve_load_error :
  forall W get fuel svc path st kw st1,
    klz svc = Some path -> factory svc = None ->
    class_info_of W path = None ->
    Parameter_resolve_value get fuel (VDict (parameters svc)) st = (Ok kw, st1) ->
    exists e,
      Service_resolve W get fuel svc st = (Raise e, st1) /\
      (count_colons path <> 1 -> exists msg, e = ValueError msg).
Proof.
  intros W get fuel svc path st kw st1 Hk Hf Hci Hp.
  destruct (Parameter_resolve_value_dict _ _ _ _ _ _ Hp) as [d ->].
  rewrite (Service_resolve_after_parameters _ _ _ _ _ _ _ Hp). rewrite Hf, Hk.
  apply construct_no_class. exact Hci.
Qed.

Lemma Service_resolve_load_error_witness :
  exists e,
    Service_resolve myapp_world (ContextWrapper_get myapp_world 9) 3
                    (mkService (Some "myapp.Build") None
                               [("first", VStr "%app.command.build%")]) myapp_started
    = (Raise e, snd (ContextWrapper_get myapp_world 9 "app.command.build" myapp_started)) /\
    (count_colons "myapp.Build" <> 1 -> exists msg, e = ValueError msg).
Proof.
  apply (Service_resolve_load_error myapp_world (ContextWrapper_get myapp_world 9) 3
           (mkService (Some "myapp.Build") None [("first", VStr "%app.command.build%")])
           "myapp.Build" myapp_started (VDict [("first", VObj 0)])).
  - reflexivity.
  - reflexivity.
  - reflexivity.
  - vm_compute. reflexivity.
Defined.

(** X21: A service declared by factory resolves, once its parameters are
    interpolated, the factory through the container it is given and calls
    its [create] on the interpolated parameters.  On an instance of a class
    that defines [create] the result is a new instance of what the factory
    builds; on such a class itself the method is unbound and the call fails
    with [TypeError]; every other value has no [create] and the resolution
    fails with [AttributeError].  A failed resolution builds nothing. *)
Theorem Service_resolve_factory :
  forall W get fuel svc fname fac st kw st0 st1,
    factory svc = Some fname ->
    Parameter_resolve_value get fuel (VDict (parameters svc)) st = (Ok (VDict kw), st0) ->
    get fname st0 = (Ok fac, st1) ->
    match fac with
    | VObj fid =>
        forall o,
          nth_error (objs st1) fid = Some o ->
          Service_resolve W get fuel svc st
          = match option_map cls_product (class_info_of W (obj_class o)) with
            | Some (Some product) =>
                (Ok (VObj (List.length (objs st1))),
                 set_objs (objs st1 ++ [mkObj product kw])
                          (set_trace (trace st1 ++ [EvCreate fac kw]) st1))
            | _ => (Raise (AttributeError "create"), st1)
            end
    | VClass p =>
        match option_map cls_product (class_info_of W p) with
        | Some (Some _) =>
            exists msg, Service_resolve W get fuel svc st = (Raise (TypeError msg), st1)
        | _ => Service_resolve W get fuel svc st = (Raise (AttributeError "create"), st1)
        end
    | _ => Service_resolve W get fuel svc st = (Raise (AttributeError "create"), st1)
    end.
Proof.
  intros W get fuel svc fname fac st kw st0 st1 Hf Hp Hg.
  assert (Hs : Service_resolve W get fuel svc st = create W fac kw st1).
  { rewrite (Service_resolve_after_parameters _ _ _ _ _ _ _ Hp). rewrite Hf.
    unfold bind. rewrite Hg. reflexivity. }
  rewrite Hs. destruct fac; try reflexivity.
  - intros o Ho. unfold create, read_obj, emit, alloc_obj. munfold.
    rewrite Ho. simpl.
    destruct (option_map cls_product (class_info_of W (obj_class o))) as [[product|]|];
      reflexivity.
  - unfold create.
    destruct (option_map cls_product (class_info_of W class_path)) as [[product|]|];
      try reflexivity.
    eexists. reflexivity.
Qed.

Lemma Service_resolve_factory_witness :
  Service_resolve shop_world (ContextWrapper_get shop_world 9) 2
                  (mkService None (Some "widget.factory") [("size", VInt 2)]) shop_started
  = (Ok (VObj (List.length
                 (objs (snd (ContextWrapper_get shop_world 9 "widget.factory" shop_started))))),
     set_objs (objs (snd (ContextWrapper_get shop_world 9 "widget.factory" shop_started))
                 ++ [mkObj "shop:Widget" [("size", VInt 2)]])
              (set_trace
                 (trace (snd (ContextWrapper_get shop_world 9 "widget.factory" shop_started))
                    ++ [EvCreate (VObj 0) [("size", VInt 2)]])
                 (snd (ContextWrapper_get shop_world 9 "widget.factory" shop_started)))).
Proof.
  apply (Service_resolve_factory shop_world (ContextWrapper_get shop_world 9) 2
           (mkService None (Some "widget.factory") [("size", VInt 2)]) "widget.factory"
           (VObj 0) shop_started [("size", VInt 2)] shop_started
           (snd (ContextWrapper_get shop_world 9 "widget.factory" shop_started))
           eq_refl eq_refl)
    with (o := mkObj "shop:WidgetFactory" []).
  - vm_compute. reflexivity.
  - reflexivity.
Defined.

(** X22: A name that neither the cache of a scope nor its registry (flat and
    layered registries only) knows is never defaulted: [get] fails with the
    error of the registry, [has] answers no, and neither leaves anything in
    the cache or anywhere else. *)
Theorem Context_get_unknown_name {RE : re_module} :
  forall W f self name s c d,
    nth_error (ctxs s) self = Some c ->
    nth_error (dicts s) (ctx_runtime c) = Some d ->
    dict_mem name d = false ->
    pure_tree (ctx_container c) = true ->
    tree_depth (ctx_container c) < f ->
    tree_has name (ctx_container c) = false ->
    Context_get W (S f) self name s = (Raise (tree_miss name (ctx_container c)), s) /\
    Context_has W (S f) self name s = (Ok false, s).
Proof.
  intros W f self name s c d Hc Hd Hm Hp Hdep Hh. split.
  - rewrite Context_get_S. unfold read_ctx, read_dict. munfold.
    rewrite Hc. simpl. rewrite Hd. simpl. rewrite Hm.
    rewrite (container_get_tree_miss W f _ name s Hp Hdep Hh). reflexivity.
  - rewrite Context_has_S. unfold read_ctx, read_dict. munfold.
    rewrite Hc. simpl. rewrite Hd. simpl. rewrite Hm.
    rewrite (container_has_tree W f _ name s Hp Hdep). rewrite Hh. reflexivity.
Qed.

Lemma Context_get_unknown_name_witness :
  Context_get [] 3 0 "nobody" two_scopes_active
  = (Raise (tree_miss "nobody" (StackContainer [Container []])), two_scopes_active) /\
  Context_has [] 3 0 "nobody" two_scopes_active = (Ok false, two_scopes_active).
Proof.
  apply (Context_get_unknown_name [] 2 0 "nobody" two_scopes_active
           (mkContext (StackContainer [Container []]) 0) []).
  - reflexivity.
  - reflexivity.
  - reflexivity.
  - reflexivity.
  - simpl. lia.
  - reflexivity.
Defined.

(** X23: [find] sees the registry of the current scope and nothing else: inside
    an active scope whose registry holds no application container, for a
    pattern that [re.match] takes on the names of that registry, it answers,
    without duplicates, exactly the names of the flat registries of that
    registry that match the pattern; what is only in the cache of the scope
    (a runtime override, say) is not found. *)
Theorem ContextWrapper_find_registry_names {RE : re_module} :
  forall W fuel pattern self c cs rest s,
    active_stack s = rest ++ [self] ->
    nth_error (ctxs s) self = Some c ->
    ctx_container c = StackContainer cs ->
    forallb no_app cs = true ->
    tree_depth (StackContainer cs) <= fuel ->
    (forall n, In n (flat_map tree_names cs) -> exists b, re_module_match pattern n = Ok b) ->
    exists found s',
      ContextWrapper_find W fuel pattern s = (Ok found, s') /\
      NoDup found /\
      (forall n, In n found <->
                 In n (flat_map tree_names cs) /\ re_module_match pattern n = Ok true) /\
      dicts s' = dicts s /\ ctxs s' = ctxs s /\ objs s' = objs s.
Proof.
  intros W fuel pattern self c cs rest s Ha Hc Hcc Hna Hd Hre.
  pose proof (ContextWrapper_container_top s rest self Ha) as Ht.
  match type of Ht with _ = (_, ?t) => set (s' := t) in * end.
  assert (Hs' : dicts s' = dicts s /\ ctxs s' = ctxs s /\ objs s' = objs s).
  { unfold s'. destruct (wrapper_stack s); simpl; auto. }
  destruct Hs' as (E1 & E2 & E3).
  destruct (resources_names_tree W fuel cs s' Hna Hd) as (l & Hl & Hnd & Hin).
  set (h := fun n => match re_module_match pattern n with Ok b => b | _ => false end).
  assert (Hh : forall n, In n l -> re_module_match pattern n = Ok (h n)).
  { intros n Hn. apply Hin in Hn. destruct (Hre n Hn) as [b Hb].
    unfold h. rewrite Hb. reflexivity. }
  exists (filter h l), s'.
  split; [|split; [|split; [|auto]]].
  - unfold ContextWrapper_find. unfold bind at 1. rewrite Ht.
    unfold bind at 1. unfold read_ctx. unfold bind at 1. unfold gets at 1.
    rewrite E2, Hc. unfold of_option, ret at 1. unfold bind at 1.
    rewrite Hcc. rewrite Hl. apply filterM_of_result_ok. exact Hh.
  - apply NoDup_filter. exact Hnd.
  - intros n. rewrite filter_In, Hin. split.
    + intros [Hn Hb]. split; [exact Hn|].
      rewrite (Hh n (proj2 (Hin n) Hn)). rewrite Hb. reflexivity.
    + intros [Hn Hb]. split; [exact Hn|]. unfold h. rewrite Hb. reflexivity.
Qed.

Lemma ContextWrapper_find_registry_names_witness :
  exists found s',
    ContextWrapper_find [] 2 "^app."
      (exec_ops [] [OpNewContext (StackContainer [L1; Container [("app.x", RParameter VNone)]])
                                 (Some 2);
                    OpEnter 1] derive_ready)
    = (Ok found, s') /\
    NoDup found /\
    (forall n, In n found <->
               In n (flat_map tree_names [L1; Container [("app.x", RParameter VNone)]]) /\
               re_module_match "^app." n = Ok true) /\
    dicts s' = dicts (exec_ops [] [OpNewContext
                                     (StackContainer
                                        [L1; Container [("app.x", RParameter VNone)]])
                                     (Some 2);
                                   OpEnter 1] derive_ready) /\
    ctxs s' = ctxs (exec_ops [] [OpNewContext
                                   (StackContainer
                                      [L1; Container [("app.x", RParameter VNone)]])
                                   (Some 2);
                                 OpEnter 1] derive_ready) /\
    objs s' = objs (exec_ops [] [OpNewContext
                                   (StackContainer
                                      [L1; Container [("app.x", RParameter VNone)]])
                                   (Some 2);
                                 OpEnter 1] derive_ready).
Proof.
  apply (ContextWrapper_find_registry_names [] 2 "^app." 1
           (mkContext (StackContainer [L1; Container [("app.x", RParameter VNone)]]) 2)
           [L1; Container [("app.x", RParameter VNone)]] []).
  - reflexivity.
  - reflexivity.
  - reflexivity.
  - reflexivity.
  - simpl. lia.
  - intros n _. eexists. reflexivity.
Defined.



(** X9: Through the application container [app.modules] is the caller's module
    list as construction left it, [logos] at the end, as long as no module
    registers that name itself and no module name is a placeholder. *)
Theorem app_modules_is_the_callers_list {RE : re_module} :
  forall W g s m c ms s0,
    app_instance s = None ->
    nth_error (lists s) m = Some ms ->
    match c with Some x => x < List.length (dicts s) | None => True end ->
    ApplicationContainer_call m c s = (Ok tt, s0) ->
    first_missing W (ms ++ ["logos"]) = None ->
    forallb pure_tree (module_containers W (ms ++ ["logos"])) = true ->
    tree_depth (StackContainer (module_containers W (ms ++ ["logos"]))) <= S (S (S g)) ->
    existsb (tree_has "app.modules") (module_containers W (ms ++ ["logos"])) = false ->
    forallb (fun n => negb (is_placeholder n)) ms = true ->
    exists s1,
      container_get W (S (S (S (S (S g))))) AppRef "app.modules" s0
      = (Ok (VList (map VStr (ms ++ ["logos"]))), s1) /\
      lists s1 = lists s0 /\ dicts s1 = dicts s0 /\ objs s1 = objs s0 /\
      trace s1 = trace s0.
Proof.
  intros W g s m c ms s0 Hn Hl Hc Hcall Hm Hp Hd Hh Hms.
  destruct (call_first s m c ms Hn Hl Hc) as (s0' & cfg & Hcall' & Hinst & Hlists).
  rewrite Hcall in Hcall'. injection Hcall' as <-.
  assert (Hl0 : nth_error (lists s0) m = Some (ms ++ ["logos"])).
  { rewrite Hlists. eapply nth_error_list_update_eq; eauto. }
  pose proof (ApplicationContainer_container_build W s0 m cfg _ Hinst Hl0 Hm) as Hb.
  set (mcs := module_containers W (ms ++ ["logos"])) in *.
  match type of Hb with _ = (_, ?t) => set (s1 := t) in * end.
  exists s1. split; [|repeat split].
  rewrite container_get_app. unfold bind. rewrite Hb.
  rewrite container_get_stack.
  rewrite (StackContainer_get_first_hit _ _ _ _ [] (app_base m cfg) mcs s1 s1 s1).
  - unfold app_base. rewrite container_get_flat.
    change (dict_get "app.modules"
              [("app.modules", RParameter (VListRef m));
               ("app.configuration", RParameter (VDictRef cfg))])
      with (Some (RParameter (VListRef m))).
    unfold resource_resolve.
    rewrite Parameter_resolve_value_S. unfold bind at 1.
    assert (Hr : read_list m s1 = (Ok (ms ++ ["logos"]), s1)).
    { unfold read_list. munfold. simpl. rewrite Hl0. reflexivity. }
    rewrite Hr. unfold bind at 1.
    rewrite (mapM_pure _ _ _ Ok (map VStr (ms ++ ["logos"])) s1).
    + rewrite sequence_results_ok. reflexivity.
    + intros x Hx. apply in_map_iff in Hx. destruct Hx as (n & <- & Hin).
      apply Parameter_resolve_value_plain; [|simpl; lia].
      simpl. apply in_app_or in Hin. destruct Hin as [Hin|[<-|[]]].
      * rewrite forallb_forall in Hms. apply Hms. exact Hin.
      * reflexivity.
  - apply all_miss_pure. intros c0 Hc0. apply in_rev in Hc0.
    rewrite container_has_tree.
    + destruct (tree_has "app.modules" c0) eqn:Ec; [|reflexivity].
      exfalso. assert (existsb (tree_has "app.modules") mcs = true).
      { apply existsb_exists. exists c0. auto. }
      congruence.
    + rewrite forallb_forall in Hp. apply Hp. exact Hc0.
    + pose proof (tree_depth_child _ _ Hc0). lia.
  - reflexivity.
Qed.

Lemma app_modules_is_the_callers_list_witness :
  exists s1,
    container_get myapp_world 5 AppRef "app.modules" myapp_started
    = (Ok (VList (map VStr (["myapp"] ++ ["logos"]))), s1) /\
    lists s1 = lists myapp_started /\ dicts s1 = dicts myapp_started /\
    objs s1 = objs myapp_started /\ trace s1 = trace myapp_started.
Proof.
  apply (app_modules_is_the_callers_list myapp_world 0 (set_lists [["myapp"]] empty_state)
           0 None ["myapp"]).
  - reflexivity.
  - reflexivity.
  - exact I.
  - reflexivity.
  - reflexivity.
  - reflexivity.
  - simpl. lia.
  - reflexivity.
  - reflexivity.
Defined.
